(** * react-diff-viewer-continued: line reconciliation and hidden blocks

    A shallow embedding of [src/compute-lines.ts], [src/compute-hidden-blocks.ts]
    and of the input guard of [render] in [src/index.tsx], with the properties
    the specification states about them; then of the rows [renderDiff]
    selects, their [renderLine] calls, the summary and the fold state of
    [src/index.tsx], with further properties of the code.

    Conventions of the embedding:
    - a JavaScript number that holds an integer is a [Z]; a position handed out
      by [forEach]/[map] is a [nat]. The numbers of the code are doubles, on
      which [n + 1] is the successor of [n] up to 2^53: the [Z] counters
      stand for the counters of the code as long as these stay safe
      integers ([safeCounters] below);
    - an optional field ([value?], [lineNumber?], [type?]) is an [option];
      the empty object literal is the record with every field [None];
    - the [diff] package is not part of the repository: its entry points are
      the fields of a [DiffLibrary] the functions take as an argument;
    - the closure [getLineInformation] mutates the locals of
      [computeLineInformation]; they form the record [State], threaded through
      a small state-and-exception monad. *)

From Stdlib Require Import Ascii String ZArith Lia.
From stdpp Require Import base decidable option list sorting strings gmap pretty.

Local Open Scope Z_scope.
#[local] Set Warnings "-register-all,-notation-for-abbreviation,-clear-no-such-hyp".

(** ** Strings *)

(** The line feed, the only character [constructLines] looks at. *)
Definition LF : ascii := "010"%char.

(** [value.replace(/\n$/, "")]: without the [m] flag [$] matches at the end of
    the input only, so at most the final line feed goes. *)
Fixpoint stripFinalNewline (s : string) : string :=
  match s with
  | EmptyString => EmptyString
  | String c rest =>
      match rest with
      | EmptyString => if Ascii.eqb c LF then EmptyString else s
      | String _ _ => String c (stripFinalNewline rest)
      end
  end.

(** [s.split("\n")]: never empty, the empty string splits into one empty line. *)
Fixpoint splitNewline (s : string) : list string :=
  match s with
  | EmptyString => [EmptyString]
  | String c rest =>
      if Ascii.eqb c LF then EmptyString :: splitNewline rest
      else match splitNewline rest with
           | l :: ls => String c l :: ls
           | [] => [String c EmptyString]
           end
  end.

(** [constructLines] (compute-lines.ts, lines 59-65). *)
Definition constructLines (value : string) : list string :=
  if String.eqb value "" then []
  else splitNewline (stripFinalNewline value).

(** JavaScript truthiness of a string, and [line || " "]. *)
Definition truthy (s : string) : bool := negb (String.eqb s "").
Definition orSpace (line : string) : string :=
  if truthy line then line else " ".

(** [Array.prototype.includes] on an array of primitives. *)
Definition includes `{EqDecision A} (x : A) (l : list A) : bool :=
  bool_decide (x ∈ l).

(** ** Data model (compute-lines.ts, lines 5-51) *)

Inductive DiffType := DEFAULT | ADDED | REMOVED | CHANGED.

Inductive DiffMethod :=
  | CHARS | WORDS | WORDS_WITH_SPACE | LINES
  | TRIMMED_LINES | SENTENCES | CSS | JSON.

#[global] Instance DiffType_eq_dec : EqDecision DiffType.
Proof. solve_decision. Defined.
#[global] Instance DiffMethod_eq_dec : EqDecision DiffMethod.
Proof. solve_decision. Defined.

(** The enum's numeric values ([right.type = 0] writes [DEFAULT]). *)
Definition DiffType_code (t : DiffType) : Z :=
  match t with DEFAULT => 0 | ADDED => 1 | REMOVED => 2 | CHANGED => 3 end.

(** [diff.Change] / [JsDiffChangeObject]: an absent flag reads as [false]. *)
Record Change := mkChange {
  added : bool;
  removed : bool;
  value : string
}.

(** [DiffInformation]: [value] is a string or an array of [DiffInformation]. *)
Inductive DiffInformation :=
  | mkDiffInformation (value : option DiffValue) (lineNumber : option Z)
                      (type : option DiffType)
with DiffValue :=
  | VString (s : string)
  | VList (l : list DiffInformation).

Definition di_value (d : DiffInformation) : option DiffValue :=
  let (v, _, _) := d in v.
Definition di_lineNumber (d : DiffInformation) : option Z :=
  let (_, n, _) := d in n.
Definition di_type (d : DiffInformation) : option DiffType :=
  let (_, _, t) := d in t.

(** The object literal [{}]. *)
Definition emptyInfo : DiffInformation := mkDiffInformation None None None.

Record LineInformation := mkLineInformation {
  left : option DiffInformation;
  right : option DiffInformation
}.

Record ComputedLineInformation := mkComputedLineInformation {
  lineInformation : list LineInformation;
  cl_diffLines : list Z
}.

Record ComputedDiffInformation := mkComputedDiffInformation {
  cd_left : list DiffInformation;
  cd_right : list DiffInformation
}.

(** [compareMethod]: one of the enum's strings or a function of the caller. *)
Inductive CompareMethod :=
  | Preset (m : DiffMethod)
  | Custom (f : string -> string -> list Change).

(** [string | Record<string, unknown>]. The values of the fields are kept to
    primitives: nothing below looks inside an object. *)
Inductive JsValue :=
  | JsNull
  | JsBool (b : bool)
  | JsNumber (n : Z)
  | JsString (s : string).

Inductive DiffInput :=
  | InString (s : string)
  | InObject (fields : list (string * JsValue)).

Definition isString (v : DiffInput) : bool :=
  match v with InString _ => true | InObject _ => false end.

(** The [diff] package as the code uses it: [diff.diffLines] with the options
    of line 145, [diff.diffJson], and the table [jsDiff[compareMethod]]. *)
Record DiffLibrary := mkDiffLibrary {
  lib_diffLines : string -> string -> list Change;
  lib_diffJson : DiffInput -> DiffInput -> list Change;
  lib_method : DiffMethod -> string -> string -> list Change
}.

(** ** computeDiff (compute-lines.ts, lines 75-114) *)

(** The callback of [diffArray.forEach] builds one object per chunk and pushes
    that same object on either array, so every array that holds it sees the
    type assigned last: [REMOVED] wins over [ADDED] when both flags are set. *)
Definition fragmentOf (c : Change) : DiffInformation :=
  let t0 : option DiffType := None in
  let t1 := if added c then Some ADDED else t0 in
  let t2 := if removed c then Some REMOVED else t1 in
  let t3 := if negb (removed c) && negb (added c) then Some DEFAULT else t2 in
  let v := if added c || removed c || (negb (removed c) && negb (added c))
           then Some (VString (value c)) else None in
  mkDiffInformation v None t3.

Definition pushFragment (acc : ComputedDiffInformation) (c : Change)
  : ComputedDiffInformation :=
  let d := fragmentOf c in
  let r1 := if added c then cd_right acc ++ [d] else cd_right acc in
  let l1 := if removed c then cd_left acc ++ [d] else cd_left acc in
  if negb (removed c) && negb (added c)
  then mkComputedDiffInformation (l1 ++ [d]) (r1 ++ [d])
  else mkComputedDiffInformation l1 r1.

Definition compareFunc (lib : DiffLibrary) (compareMethod : CompareMethod)
  : string -> string -> list Change :=
  match compareMethod with
  | Preset m => lib_method lib m
  | Custom f => f
  end.

Definition computeDiffOf (diffArray : list Change) : ComputedDiffInformation :=
  foldl pushFragment (mkComputedDiffInformation [] []) diffArray.

Definition computeDiff (lib : DiffLibrary) (oldValue newValue : string)
    (compareMethod : CompareMethod) : ComputedDiffInformation :=
  computeDiffOf (compareFunc lib compareMethod oldValue newValue).

(** ** The locals of computeLineInformation and the monad that threads them *)

(** Lines 154-159: the counters, the row counter, [diffLines] and
    [ignoreDiffIndexes]; the closure reads and writes all of them. *)
Record State := mkState {
  leftLineNumber : Z;
  rightLineNumber : Z;
  counter : Z;
  diffLines : list Z;
  ignoreDiffIndexes : list string
}.

(** [TypeError]: reading [.right] of [nextDiffLineInfo[0]] when the nested call
    returned no row. [Unreachable] marks the two places where the embedding
    stops because the source cannot get there (lemmas below): a nested call
    deeper than one level, and a right value that is not a string. *)
Inductive Error := TypeError | Unreachable.

Inductive Result (A : Type) :=
  | Ok (a : A) (s : State)
  | Throw (e : Error).
Arguments Ok {A} a s.
Arguments Throw {A} e.

Definition M (A : Type) : Type := State -> Result A.

Definition ret {A} (a : A) : M A := fun s => Ok a s.
Definition bind {A B} (m : M A) (k : A -> M B) : M B :=
  fun s => match m s with
           | Ok a s' => k a s'
           | Throw e => Throw e
           end.
Definition throw {A} (e : Error) : M A := fun _ => Throw e.
Definition gets {A} (f : State -> A) : M A := fun s => Ok (f s) s.
Definition modify (f : State -> State) : M unit := fun s => Ok tt (f s).
Definition when (b : bool) (m : M unit) : M unit := if b then m else ret tt.

Notation "x <- m ;; k" := (bind m (fun x => k))
  (at level 100, m at next level, right associativity).
Notation "m ;;; k" := (bind m (fun _ => k))
  (at level 100, right associativity).

(** [leftLineNumber += 1] and its like, on counters that are safe integers. *)
Definition incrLeft (s : State) : State :=
  mkState (leftLineNumber s + 1) (rightLineNumber s) (counter s)
          (diffLines s) (ignoreDiffIndexes s).
Definition incrRight (s : State) : State :=
  mkState (leftLineNumber s) (rightLineNumber s + 1) (counter s)
          (diffLines s) (ignoreDiffIndexes s).
Definition incrCounter (s : State) : State :=
  mkState (leftLineNumber s) (rightLineNumber s) (counter s + 1)
          (diffLines s) (ignoreDiffIndexes s).
(** [diffLines.push(counter)] *)
Definition pushCounter (s : State) : State :=
  mkState (leftLineNumber s) (rightLineNumber s) (counter s)
          (diffLines s ++ [counter s]) (ignoreDiffIndexes s).
(** [ignoreDiffIndexes.push(key)] *)
Definition pushIgnore (key : string) (s : State) : State :=
  mkState (leftLineNumber s) (rightLineNumber s) (counter s)
          (diffLines s) (ignoreDiffIndexes s ++ [key]).

(** The template literals: [`${diffIndex}-${lineIndex}`], and
    [`L-${left.lineNumber}`] where an absent number prints as [undefined]. *)
Definition ignoreKey (diffIndex lineIndex : nat) : string :=
  pretty diffIndex +:+ "-" +:+ pretty lineIndex.
Definition numberText (n : option Z) : string :=
  match n with Some z => pretty z | None => "undefined" end.
Definition leftToken (n : option Z) : string := "L-" +:+ numberText n.
Definition rightToken (n : option Z) : string := "R-" +:+ numberText n.

(** [left.value === rightValue] with a string on the left: equal only to the
    same string. *)
Definition strictEqString (l : string) (v : option DiffValue) : bool :=
  match v with
  | Some (VString r) => String.eqb l r
  | _ => false
  end.

(** ** getLineInformation (compute-lines.ts, lines 160-279) *)

Section GetLineInformation.
Variable lib : DiffLibrary.
Variable diffArray : list Change.
Variable disableWordDiff : bool.
Variable lineCompareMethod : CompareMethod.
Variable showLines : list string.

Section Body.
(** The function itself, for the nested call of line 197. *)
Variable getLineInformation :
  string -> nat -> bool -> bool -> bool -> M (list LineInformation).

(** Lines 248-252. *)
Definition registerChange : M unit :=
  ds <- gets diffLines ;;
  c <- gets counter ;;
  when (negb (includes c ds)) (modify pushCounter).

(** Lines 265-271; [&&] binds tighter than [||]. *)
Definition forceShown (l r : DiffInformation) : M unit :=
  ds <- gets diffLines ;;
  c <- gets counter ;;
  when (includes (leftToken (di_lineNumber l)) showLines
        || (includes (rightToken (di_lineNumber r)) showLines
            && negb (includes c ds)))
       (modify pushCounter).

(** Lines 184-241, the [removed] branch. The result is [None] for the
    [return null] of line 206, else [left], [right] and [countAsChange]. *)
Definition removedLine (line : string) (diffIndex lineIndex : nat)
  : M (option (DiffInformation * DiffInformation * bool)) :=
  modify incrLeft ;;;
  n <- gets leftLineNumber ;;
  let l := mkDiffInformation (Some (VString (orSpace line))) (Some n)
                             (Some REMOVED) in
  let pureRemoval := ret (Some (l, emptyInfo, true)) in
  match diffArray !! (diffIndex + 1)%nat with
  | None => pureRemoval
  | Some nextDiff =>
    if negb (added nextDiff) then pureRemoval else
    match constructLines (value nextDiff) !! lineIndex with
    | None => pureRemoval
    | Some nextDiffLines =>
      if negb (truthy nextDiffLines) then pureRemoval else
      nextDiffLineInfo <- getLineInformation nextDiffLines diffIndex
                                             true false true ;;
      match nextDiffLineInfo with
      | [] => throw TypeError
      | first :: _ =>
        match right first with
        | None => ret None
        | Some rightInfo =>
          let rightValue := di_value rightInfo in
          let lineNumber := di_lineNumber rightInfo in
          let type := di_type rightInfo in
          modify (pushIgnore (ignoreKey (diffIndex + 1) lineIndex)) ;;;
          if strictEqString (orSpace line) rightValue then
            ret (Some (mkDiffInformation (Some (VString (orSpace line)))
                                         (Some n) (Some DEFAULT),
                       mkDiffInformation rightValue lineNumber
                                         (Some DEFAULT),
                       false))
          else if disableWordDiff then
            ret (Some (l, mkDiffInformation rightValue lineNumber type,
                       true))
          else
            match rightValue with
            | Some (VString newLine) =>
              let computedDiff :=
                computeDiff lib line newLine lineCompareMethod in
              ret (Some (mkDiffInformation
                           (Some (VList (cd_left computedDiff)))
                           (Some n) (Some REMOVED),
                         mkDiffInformation
                           (Some (VList (cd_right computedDiff)))
                           lineNumber type,
                         true))
            | _ => throw Unreachable
            end
        end
      end
    end
  end.

(** Lines 243-246. *)
Definition addedLine (line : string)
  : M (option (DiffInformation * DiffInformation * bool)) :=
  modify incrRight ;;;
  n <- gets rightLineNumber ;;
  ret (Some (emptyInfo,
             mkDiffInformation (Some (VString line)) (Some n) (Some ADDED),
             true)).

(** Lines 254-262. *)
Definition unchangedLine (line : string)
  : M (option (DiffInformation * DiffInformation)) :=
  modify incrLeft ;;;
  modify incrRight ;;;
  ln <- gets leftLineNumber ;;
  rn <- gets rightLineNumber ;;
  ret (Some (mkDiffInformation (Some (VString line)) (Some ln)
                               (Some DEFAULT),
             mkDiffInformation (Some (VString line)) (Some rn)
                               (Some DEFAULT))).

(** The callback of [lines.map], lines 173-277. *)
Definition lineStep (diffIndex : nat)
    (isAdded isRemoved evaluateOnlyFirstLine : bool)
    (line : string) (lineIndex : nat) : M (option LineInformation) :=
  ignored <- gets ignoreDiffIndexes ;;
  if includes (ignoreKey diffIndex lineIndex) ignored
     || (evaluateOnlyFirstLine && negb (Nat.eqb lineIndex 0))
  then ret None
  else
    sides <-
      (if isAdded || isRemoved then
         r <- (if isRemoved then removedLine line diffIndex lineIndex
               else addedLine line) ;;
         match r with
         | None => ret None
         | Some (l, r, countAsChange) =>
           when (countAsChange && negb evaluateOnlyFirstLine)
                registerChange ;;;
           ret (Some (l, r))
         end
       else unchangedLine line) ;;
    match sides with
    | None => ret None
    | Some (l, r) =>
      forceShown l r ;;;
      when (negb evaluateOnlyFirstLine) (modify incrCounter) ;;;
      ret (Some (mkLineInformation (Some l) (Some r)))
    end.

Fixpoint mapLines (diffIndex : nat)
    (isAdded isRemoved evaluateOnlyFirstLine : bool)
    (lines : list string) (lineIndex : nat)
  : M (list (option LineInformation)) :=
  match lines with
  | [] => ret []
  | line :: rest =>
    r <- lineStep diffIndex isAdded isRemoved evaluateOnlyFirstLine
                  line lineIndex ;;
    rs <- mapLines diffIndex isAdded isRemoved evaluateOnlyFirstLine
                   rest (S lineIndex) ;;
    ret (r :: rs)
  end.

(** [lines.map(...).filter(item => item !== null)] *)
Definition getLineInformationBody (value : string) (diffIndex : nat)
    (isAdded isRemoved evaluateOnlyFirstLine : bool)
  : M (list LineInformation) :=
  rows <- mapLines diffIndex isAdded isRemoved evaluateOnlyFirstLine
                   (constructLines value) 0 ;;
  ret (omap id rows).
End Body.

(** The closure calls itself only from the [removed] branch and then with
    [removed = false], so the nesting is one level deep; [depth] bounds it. *)
Fixpoint getLineInformation (depth : nat) (value : string) (diffIndex : nat)
    (isAdded isRemoved evaluateOnlyFirstLine : bool)
  : M (list LineInformation) :=
  match depth with
  | O => throw Unreachable
  | S d =>
    getLineInformationBody (getLineInformation d) value diffIndex
                           isAdded isRemoved evaluateOnlyFirstLine
  end.

(** Lines 281-286: [diffArray.forEach] appending each chunk's rows. *)
Fixpoint forEachChunk (chunks : list Change) (index : nat)
    (rows : list LineInformation) : M (list LineInformation) :=
  match chunks with
  | [] => ret rows
  | c :: rest =>
    new <- getLineInformation 2 (value c) index (added c) (removed c)
                              false ;;
    forEachChunk rest (S index) (rows ++ new)
  end.

Definition initialState (linesOffset : Z) : State :=
  mkState linesOffset linesOffset 0 [] [].

(** Lines 154-291: everything after [diffArray] is known. *)
Definition computeLineInformation_from (linesOffset : Z)
  : Error + ComputedLineInformation :=
  match forEachChunk diffArray 0 [] (initialState linesOffset) with
  | Ok rows s => inr (mkComputedLineInformation rows (diffLines s))
  | Throw e => inl e
  end.
End GetLineInformation.

(** Lines 141-152: [diffLines] for two strings, [diffJson] otherwise. *)
Definition diffArrayOf (lib : DiffLibrary) (oldString newString : DiffInput)
  : list Change :=
  match oldString, newString with
  | InString o, InString n => lib_diffLines lib o n
  | _, _ => lib_diffJson lib oldString newString
  end.

(** computeLineInformation (compute-lines.ts, lines 131-292). *)
Definition computeLineInformation (lib : DiffLibrary)
    (oldString newString : DiffInput) (disableWordDiff : bool)
    (lineCompareMethod : CompareMethod) (linesOffset : Z)
    (showLines : list string) : Error + ComputedLineInformation :=
  computeLineInformation_from lib (diffArrayOf lib oldString newString)
                              disableWordDiff lineCompareMethod showLines
                              linesOffset.

(** ** The input guard of render (index.tsx, lines 655-662) and its call of
       computeLineInformation (lines 567-587) *)

(** [Error('"oldValue" and "newValue" should be strings')]. *)
Inductive RenderError := StringsExpected.

Definition render_guard (compareMethod : CompareMethod)
    (oldValue newValue : DiffInput) : option RenderError :=
  match compareMethod with
  | Preset m =>
    if negb (bool_decide (m = JSON)) then
      if negb (isString oldValue) || negb (isString newValue)
      then Some StringsExpected
      else None
    else None
  | Custom _ => None
  end.

(** What [render] hands to the row renderers: the guard first, then
    [renderDiff]'s call with the props as arguments. *)
Definition render_lines (lib : DiffLibrary) (oldValue newValue : DiffInput)
    (disableWordDiff : bool) (compareMethod : CompareMethod)
    (linesOffset : Z) (alwaysShowLines : list string)
  : RenderError + (Error + ComputedLineInformation) :=
  match render_guard compareMethod oldValue newValue with
  | Some e => inl e
  | None => inr (computeLineInformation lib oldValue newValue disableWordDiff
                                        compareMethod linesOffset
                                        alwaysShowLines)
  end.

(** ** computeHiddenBlocks (compute-hidden-blocks.ts) *)

Record Block := mkBlock {
  index : Z;
  startLine : Z;
  endLine : Z;
  lines : Z
}.

Record HiddenBlocks := mkHiddenBlocks {
  lineBlocks : gmap Z Z;
  blocks : list Block
}.

(** The locals of [computeHiddenBlocks]. [currentBlock] and the array
    [blocks] share the block object: the block is pushed when it is made and
    extended afterwards through [currentBlock]. Every block lives in [blocks],
    so the reference held by [currentBlock] is the position of its block
    there, and a write through it updates the array in place. *)
Record BlockState := mkBlockState {
  newBlockIndex : Z;
  currentBlock : option nat;
  hb_lineBlocks : gmap Z Z;
  hb_blocks : list Block
}.

(** Lines 24-28: [diffLines.some(...)]. *)
Definition isDiffLine (diffLines : list Z) (extraLines lineIndex : Z) : bool :=
  existsb (fun diffLine =>
             (diffLine >=? lineIndex - extraLines)
             && (diffLine <=? lineIndex + extraLines))
          diffLines.

Definition extendBlock (lineIndex : Z) (b : Block) : Block :=
  mkBlock (index b) (startLine b) lineIndex (lines b + 1).

(** [currentBlock.index], read through the reference. *)
Definition indexAt (bs : list Block) (ref : nat) : Z :=
  match bs !! ref with Some b => index b | None => 0 end.

(** The callback of [lineInformation.forEach], lines 23-49. *)
Definition blockStep (diffLines : list Z) (extraLines : Z)
    (st : BlockState) (lineIndex : Z) : BlockState :=
  let isDiff := isDiffLine diffLines extraLines lineIndex in
  match negb isDiff, currentBlock st with
  | true, None =>
    (* block begins *)
    let b := mkBlock (newBlockIndex st) lineIndex lineIndex 1 in
    mkBlockState (newBlockIndex st + 1)
                 (Some (length (hb_blocks st)))
                 (<[lineIndex := index b]> (hb_lineBlocks st))
                 (hb_blocks st ++ [b])
  | true, Some ref =>
    (* block continues *)
    let bs := alter (extendBlock lineIndex) ref (hb_blocks st) in
    mkBlockState (newBlockIndex st) (Some ref)
                 (<[lineIndex := indexAt bs ref]> (hb_lineBlocks st))
                 bs
  | false, _ =>
    (* not a block anymore *)
    mkBlockState (newBlockIndex st) None (hb_lineBlocks st) (hb_blocks st)
  end.

Fixpoint forEachLine (diffLines : list Z) (extraLines : Z)
    (rows : list LineInformation) (lineIndex : Z) (st : BlockState)
  : BlockState :=
  match rows with
  | [] => st
  | _ :: rest =>
    forEachLine diffLines extraLines rest (lineIndex + 1)
                (blockStep diffLines extraLines st lineIndex)
  end.

Definition computeHiddenBlocks (lineInformation : list LineInformation)
    (diffLines : list Z) (extraLines : Z) : HiddenBlocks :=
  let st := forEachLine diffLines extraLines lineInformation 0
                        (mkBlockState 0 None ∅ []) in
  mkHiddenBlocks (hb_lineBlocks st) (hb_blocks st).

(** ** A stand-in for the diff package, for closed examples

    Any [DiffLibrary] can be plugged into the functions above. The examples
    below need one that computes: lines are compared as the package does
    (each with its line feed); the common leading lines and the common
    trailing lines form unchanged chunks, and what is left of the old and of
    the new text in between is one removed and one added chunk. On the texts
    used below this is the chunk list of [diff.diffLines]. *)

(** The lines of a text, each with its line feed. *)
Fixpoint lineTokens (s : string) : list string :=
  match s with
  | EmptyString => []
  | String c rest =>
    if Ascii.eqb c LF then String c EmptyString :: lineTokens rest
    else match lineTokens rest with
         | t :: ts => String c t :: ts
         | [] => [String c EmptyString]
         end
  end.

Definition joinTokens (ts : list string) : string :=
  foldr String.append EmptyString ts.

Fixpoint commonPrefix (xs ys : list string)
  : list string * (list string * list string) :=
  match xs, ys with
  | x :: xs', y :: ys' =>
    if String.eqb x y
    then let '(p, rest) := commonPrefix xs' ys' in (x :: p, rest)
    else ([], (xs, ys))
  | _, _ => ([], (xs, ys))
  end.

Definition chunkOf (isAdded isRemoved : bool) (ts : list string) : list Change :=
  match ts with
  | [] => []
  | _ => [mkChange isAdded isRemoved (joinTokens ts)]
  end.

Definition trimDiffLines (oldText newText : string) : list Change :=
  let '(p, (o, n)) := commonPrefix (lineTokens oldText) (lineTokens newText) in
  let '(q, (o', n')) := commonPrefix (reverse o) (reverse n) in
  chunkOf false false p ++ chunkOf false true (reverse o')
    ++ chunkOf true false (reverse n') ++ chunkOf false false (reverse q).

(** Whole-string comparison, for the table of intra-line methods; an empty
    text gives no chunk. *)
Definition textChunk (isAdded isRemoved : bool) (text : string)
  : list Change :=
  if String.eqb text "" then [] else [mkChange isAdded isRemoved text].

Definition wholeDiff (oldText newText : string) : list Change :=
  if String.eqb oldText newText then textChunk false false oldText
  else textChunk false true oldText ++ textChunk true false newText.

(** One line per field between braces; an object without fields is [{}]. *)
Definition fieldText (f : string * JsValue) : string :=
  "  " +:+ fst f +:+ ": " +:+
  match snd f with
  | JsNull => "null"
  | JsBool b => if b then "true" else "false"
  | JsNumber n => pretty n
  | JsString s => s
  end +:+ String LF EmptyString.

Definition inputText (v : DiffInput) : string :=
  match v with
  | InString s => s
  | InObject [] => "{}"
  | InObject fields =>
    "{" +:+ String LF EmptyString +:+ joinTokens (fieldText <$> fields) +:+ "}"
  end.

Definition standIn : DiffLibrary :=
  mkDiffLibrary trimDiffLines
                (fun o n => trimDiffLines (inputText o) (inputText n))
                (fun _ => wholeDiff).

(** * Vocabulary of the statements *)

(** ** Rows and their sides *)

(** The line numbers a row sequence shows on either side. *)
Definition leftNumber (row : LineInformation) : option Z :=
  left row ≫= di_lineNumber.
Definition rightNumber (row : LineInformation) : option Z :=
  right row ≫= di_lineNumber.
Definition leftNumbers (rows : list LineInformation) : list Z :=
  omap leftNumber rows.
Definition rightNumbers (rows : list LineInformation) : list Z :=
  omap rightNumber rows.

Definition leftValue (row : LineInformation) : option DiffValue :=
  left row ≫= di_value.
Definition rightValue (row : LineInformation) : option DiffValue :=
  right row ≫= di_value.
Definition leftType (row : LineInformation) : option DiffType :=
  left row ≫= di_type.
Definition rightType (row : LineInformation) : option DiffType :=
  right row ≫= di_type.

(** A side is populated when it holds a value. *)
Definition populated (row : LineInformation) : Prop :=
  is_Some (leftValue row) \/ is_Some (rightValue row).

(** No chunk is flagged both added and removed (the package's chunks). *)
Definition exclusive (c : Change) : Prop := ~ (added c = true /\ removed c = true).

(** ** One run of the callback *)

(** A string without line feed, as every element of [constructLines] is. *)
Fixpoint hasLF (s : string) : bool :=
  match s with
  | EmptyString => false
  | String c rest => Ascii.eqb c LF || hasLF rest
  end.

(** What the nested call of line 197 amounts to: an [added] line evaluated in
    [evaluateOnlyFirstLine] mode. *)
Definition nestedResult (showLines : list string) (newLine : string)
    (diffIndex : nat) (s : State) : Result (list LineInformation) :=
  if includes (ignoreKey diffIndex 0) (ignoreDiffIndexes s) then Ok [] s
  else
    let n := rightLineNumber s + 1 in
    let r := mkDiffInformation (Some (VString newLine)) (Some n) (Some ADDED) in
    Ok [mkLineInformation (Some emptyInfo) (Some r)]
       (if includes (leftToken None) showLines
           || (includes (rightToken (Some n)) showLines
               && negb (includes (counter s) (diffLines s)))
        then pushCounter (incrRight s) else incrRight s).

(** The callback as [forEachChunk] runs it: not in [evaluateOnlyFirstLine]
    mode, the nested call one level below. *)
Definition rowStep (lib : DiffLibrary) (diffArray : list Change)
    (disableWordDiff : bool) (lineCompareMethod : CompareMethod)
    (showLines : list string) (diffIndex : nat) (isAdded isRemoved : bool)
    (line : string) (lineIndex : nat) : M (option LineInformation) :=
  lineStep lib diffArray disableWordDiff lineCompareMethod showLines
           (getLineInformation lib diffArray disableWordDiff lineCompareMethod
                               showLines 1)
           diffIndex isAdded isRemoved false line lineIndex.

(** The rows emitted between two states are numbered on from the counters. *)
Definition numbered (s : State) (rows : list LineInformation) (s' : State)
  : Prop :=
  (leftNumbers rows
     = seqZ (leftLineNumber s + 1) (leftLineNumber s' - leftLineNumber s)
   /\ leftLineNumber s <= leftLineNumber s')
  /\ (rightNumbers rows
        = seqZ (rightLineNumber s + 1)
               (rightLineNumber s' - rightLineNumber s)
      /\ rightLineNumber s <= rightLineNumber s').

(** ** Safe integers *)

(** [Number.MAX_SAFE_INTEGER]. The two line counters are doubles: [+= 1] is
    the integer successor as long as the counter stays a safe integer, and
    that is where the [Z] counters of the embedding and the counters of the
    code agree. A counter starts at [linesOffset] and is stepped at most once
    for every row of the output. *)
Definition MAX_SAFE_INTEGER : Z := 2 ^ 53 - 1.
Definition safeInteger (n : Z) : Prop :=
  - MAX_SAFE_INTEGER <= n <= MAX_SAFE_INTEGER.
Definition safeCounters (linesOffset : Z) (rows : list LineInformation)
  : Prop :=
  safeInteger linesOffset
  /\ safeInteger (linesOffset + Z.of_nat (length rows)).

(** ** The lookahead *)


(** ** Line-number offsets *)

(** Adding [k] to every line number of a row, of a state, of a result. *)
Definition shiftInfo (k : Z) (d : DiffInformation) : DiffInformation :=
  mkDiffInformation (di_value d) ((fun n => n + k) <$> di_lineNumber d)
                    (di_type d).
Definition shiftRow (k : Z) (row : LineInformation) : LineInformation :=
  mkLineInformation (shiftInfo k <$> left row) (shiftInfo k <$> right row).
Definition shiftState (k : Z) (s : State) : State :=
  mkState (leftLineNumber s + k) (rightLineNumber s + k) (counter s)
          (diffLines s) (ignoreDiffIndexes s).
Definition shiftResult {A} (f : A -> A) (k : Z) (r : Result A) : Result A :=
  match r with
  | Ok a s => Ok (f a) (shiftState k s)
  | Throw e => Throw e
  end.
(** A function of the shape of [getLineInformation] that does not look at the
    line numbers it hands out. *)
Definition commutesWithShift (k : Z)
    (self : string -> nat -> bool -> bool -> bool -> M (list LineInformation))
  : Prop :=
  forall v d a r e s,
    self v d a r e (shiftState k s)
    = shiftResult (fmap (shiftRow k)) k (self v d a r e s).

Definition shiftOutput (k : Z) (r : Error + ComputedLineInformation)
  : Error + ComputedLineInformation :=
  match r with
  | inr out => inr (mkComputedLineInformation
                      (shiftRow k <$> lineInformation out) (cl_diffLines out))
  | inl e => inl e
  end.

(** ** Ignore keys and diff lines *)

(** The character that separates the two numbers of an ignore key. *)
Fixpoint hasDash (s : string) : bool :=
  match s with
  | EmptyString => false
  | String c rest => Ascii.eqb c "-" || hasDash rest
  end.

(** Every ignored key names a line of an added chunk. *)
Definition ignoreSound (diffArray : list Change) (s : State) : Prop :=
  forall key, key ∈ ignoreDiffIndexes s ->
    exists d l c, key = ignoreKey d l /\ diffArray !! d = Some c
                  /\ added c = true.

(** What a stretch of the run adds to [diffLines]: row indices of that
    stretch, in an order given by [R]. *)
Definition registers (R : Z -> Z -> Prop) (s : State)
    (rows : list LineInformation) (s' : State) : Prop :=
  counter s' = counter s + Z.of_nat (length rows)
  /\ exists new, diffLines s' = diffLines s ++ new
                 /\ StronglySorted R new
                 /\ Forall (fun d => counter s <= d < counter s') new.


(** ** Fragments of computeDiff *)

(** The fragment a chunk turns into, and the text a fragment holds. *)
Definition tagged (c : Change) : DiffInformation :=
  mkDiffInformation (Some (VString (value c))) None
    (Some (if removed c then REMOVED else if added c then ADDED else DEFAULT)).
Definition fragmentText (d : DiffInformation) : string :=
  match di_value d with
  | Some (VString s) => s
  | _ => EmptyString
  end.

(** ** Hidden blocks *)

(** A row index is protected when a diff line lies within [extraLines] of it. *)
Definition protected (diffLines : list Z) (extraLines x : Z) : Prop :=
  exists d, d ∈ diffLines /\ d - extraLines <= x <= d + extraLines.

(** What holds of one block while the scan stands before row [i]. *)
Definition blockOk (diffLines : list Z) (extraLines i : Z) (b : Block) : Prop :=
  startLine b <= endLine b /\ endLine b < i
  /\ forall x, startLine b <= x <= endLine b ->
               ~ protected diffLines extraLines x.

Definition apart (b1 b2 : Block) : Prop := endLine b1 < startLine b2.

(** The invariant of the scan: the blocks found so far, and the block that
    [currentBlock] refers to, which is the last one and ends at row [i - 1]. *)
Definition scanInv (diffLines : list Z) (extraLines i : Z) (st : BlockState)
  : Prop :=
  Forall (blockOk diffLines extraLines i) (hb_blocks st)
  /\ StronglySorted apart (hb_blocks st)
  /\ match currentBlock st with
     | None => True
     | Some ref =>
       exists pre b, hb_blocks st = pre ++ [b] /\ ref = length pre
                     /\ endLine b = i - 1
     end.

(** Numbering and size of the blocks found so far. *)
Definition shapeInv (st : BlockState) : Prop :=
  newBlockIndex st = Z.of_nat (length (hb_blocks st))
  /\ forall k b, hb_blocks st !! k = Some b ->
       index b = Z.of_nat k /\ lines b = endLine b - startLine b + 1.

(** The blocks are whole runs of unprotected rows: they start after a
    protected row or at row 0, end before a protected row or at the row just
    scanned, and no unprotected row scanned so far is left out. *)
Definition runsInv (diffLines : list Z) (extraLines i : Z) (st : BlockState)
  : Prop :=
  0 <= i
  /\ (forall b, b ∈ hb_blocks st ->
        0 <= startLine b
        /\ (startLine b = 0 \/ protected diffLines extraLines (startLine b - 1))
        /\ (protected diffLines extraLines (endLine b + 1)
            \/ (endLine b = i - 1 /\ is_Some (currentBlock st))))
  /\ (forall x, 0 <= x < i -> ~ protected diffLines extraLines x ->
        exists b, b ∈ hb_blocks st /\ startLine b <= x <= endLine b)
  /\ (currentBlock st = None ->
        i = 0 \/ protected diffLines extraLines (i - 1)).

(** [lineBlocks] sends a row to the position of the block that holds it. *)
Definition mapInv (st : BlockState) : Prop :=
  forall x k, hb_lineBlocks st !! x = Some k <->
    exists (p : nat) b, k = Z.of_nat p /\ hb_blocks st !! p = Some b
                        /\ startLine b <= x <= endLine b.

(** ** Inputs and outputs of the examples *)

Definition rowsOf (r : Error + ComputedLineInformation)
  : list LineInformation :=
  match r with inr out => lineInformation out | inl _ => [] end.
Definition diffLinesOf (r : Error + ComputedLineInformation) : list Z :=
  match r with inr out => cl_diffLines out | inl _ => [] end.

Definition nl : string := String LF EmptyString.

(** A side with a line number, a type and a plain value; a row with both
    sides present. *)
Definition side (t : DiffType) (n : Z) (text : string) : DiffInformation :=
  mkDiffInformation (Some (VString text)) (Some n) (Some t).
Definition both (l r : DiffInformation) : LineInformation :=
  mkLineInformation (Some l) (Some r).

Definition text_old : string := "test" +:+ nl +:+ "oldLine".
Definition text_new : string := "test" +:+ nl +:+ "newLine".
Definition chunks_modification : list Change :=
  [ mkChange false false ("test" +:+ nl);
    mkChange false true "oldLine";
    mkChange true false "newLine" ].
Definition unchangedSide (n : Z) (line : string) : DiffInformation :=
  mkDiffInformation (Some (VString line)) (Some n) (Some DEFAULT).
Definition row_test : LineInformation :=
  mkLineInformation (Some (unchangedSide 1 "test"))
                    (Some (unchangedSide 1 "test")).

(** A caller-supplied compare function with one chunk of each kind. *)
Definition threeChunks (oldText newText : string) : list Change :=
  [ mkChange false true oldText; mkChange false false "-";
    mkChange true false newText ].


(** A library whose line differ flags a chunk both added and removed; the
    type [diff.Change] allows it, the package does not do it. *)
Definition chunks_double_flag : list Change :=
  [ mkChange false true "a";
    mkChange true true ("a" +:+ nl +:+ "b");
    mkChange true false ("x" +:+ nl +:+ "y") ].
Definition doubleFlagged : DiffLibrary :=
  mkDiffLibrary (fun _ _ => chunks_double_flag)
                (fun _ _ => chunks_double_flag)
                (fun _ => wholeDiff).

(** * The viewer: rows, summary and fold state (index.tsx)

    What follows is the part of the component that decides which rows are
    shown and how they are labelled. A React element is kept as the calls
    that build it: a table row is the list of its [renderLine] calls, and
    class names, styles and event wiring are left out. A number prop holds
    an integer, on which [Math.round] is the identity. *)

(** [LineNumberPrefix], lines 25-28. *)
Inductive LineNumberPrefix := LEFT | RIGHT.

(** An argument that may be left out or be [null]. *)
Inductive Arg (A : Type) :=
  | Undefined
  | Null
  | Given (a : A).
Arguments Undefined {A}.
Arguments Null {A}.
Arguments Given {A} a.

(** [x ?? null] as an argument. *)
Definition orNull {A} (x : option A) : Arg A :=
  match x with Some a => Given a | None => Null end.

(** One call of [renderLine] (lines 244-251); a [lineNumber] of [null] is
    [None], and so is an [additionalPrefix] that is left out. *)
Record LineCall := mkLineCall {
  lc_lineNumber : option Z;
  lc_type : DiffType;
  lc_prefix : LineNumberPrefix;
  lc_value : DiffValue;
  lc_additionalLineNumber : Arg Z;
  lc_additionalPrefix : option LineNumberPrefix
}.




(** Lines 262 and 271-276: [Array.isArray(value)] and the element that wraps
    the content. *)
Definition hasWordDiff (c : LineCall) : bool :=
  match lc_value c with VList _ => true | VString _ => false end.

Inductive ElementType := ins | del | div.

Definition elementType (c : LineCall) : ElementType :=
  let isAdded := bool_decide (lc_type c = ADDED) in
  let isRemoved := bool_decide (lc_type c = REMOVED) in
  if isAdded && negb (hasWordDiff c) then ins
  else if isRemoved && negb (hasWordDiff c) then del
  else div.

(** [left?.type ?? DiffType.DEFAULT] and [left?.value ?? ''] . *)
Definition typeOr (t : option DiffType) : DiffType := default DEFAULT t.
Definition valueOr (v : option DiffValue) : DiffValue :=
  default (VString EmptyString) v.

(** [renderSplitView] (lines 384-404): one table row, the left call then the
    right call, both with four arguments. *)
Definition renderSplitView (line : LineInformation) : list (list LineCall) :=
  [[ mkLineCall (leftNumber line) (typeOr (leftType line)) LEFT
                (valueOr (leftValue line)) Undefined None;
     mkLineCall (rightNumber line) (typeOr (rightType line)) RIGHT
                (valueOr (rightValue line)) Undefined None ]].

(** [renderInlineView] (lines 414-478): two table rows for a REMOVED left
    against an ADDED right; else one row holding [content], which the three
    tests assign in turn and which stays [undefined] when none holds. *)
Definition renderInlineView (line : LineInformation)
  : list (list LineCall) :=
  if bool_decide (leftType line = Some REMOVED)
     && bool_decide (rightType line = Some ADDED)
  then [ [ mkLineCall (leftNumber line) (typeOr (leftType line)) LEFT
                      (valueOr (leftValue line)) Null None ];
         [ mkLineCall None (typeOr (rightType line)) RIGHT
                      (valueOr (rightValue line))
                      (orNull (rightNumber line)) (Some RIGHT) ] ]
  else
    let content0 : option LineCall := None in
    let content1 :=
      if bool_decide (leftType line = Some REMOVED)
      then Some (mkLineCall (leftNumber line) (typeOr (leftType line)) LEFT
                            (valueOr (leftValue line)) Null None)
      else content0 in
    let content2 :=
      if bool_decide (leftType line = Some DEFAULT)
      then Some (mkLineCall (leftNumber line) (typeOr (leftType line)) LEFT
                            (valueOr (leftValue line))
                            (orNull (rightNumber line)) (Some RIGHT))
      else content1 in
    let content3 :=
      if bool_decide (rightType line = Some ADDED)
      then Some (mkLineCall None (typeOr (rightType line)) RIGHT
                            (valueOr (rightValue line))
                            (orNull (rightNumber line)) None)
      else content2 in
    [option_list content3].

(** An element of [diffNodes]: the fold row of [renderSkippedLineIndicator]
    (lines 499-562) with its four arguments, or the table rows of a line
    under its React key. *)
Inductive DiffNode :=
  | SkippedLineIndicator (num blockNumber leftBlockLineNumber
                          rightBlockLineNumber : Z)
  | LineRows (key : nat) (rows : list (list LineCall)).

(** [blocks[blockIndex]]. *)
Definition blockAt (bs : list Block) (blockIndex : Z) : option Block :=
  if blockIndex <? 0 then None else bs !! Z.to_nat blockIndex.

(** The callback of [lineInformation.map] in [renderDiff], lines 601-633.
    Reading [.endLine] of a block that is not there is a [TypeError]. *)
Definition diffNode (showDiffOnly splitView : bool) (hidden : HiddenBlocks)
    (expandedBlocks : list Z) (line : LineInformation) (lineIndex : nat)
  : Error + option DiffNode :=
  let view :=
    inr (Some (LineRows lineIndex (if splitView then renderSplitView line
                                   else renderInlineView line))) in
  if showDiffOnly then
    match lineBlocks hidden !! Z.of_nat lineIndex with
    | Some blockIndex =>
      match blockAt (blocks hidden) blockIndex with
      | None => inl TypeError
      | Some b =>
        let lastLineOfBlock := bool_decide (endLine b = Z.of_nat lineIndex) in
        if negb (includes blockIndex expandedBlocks) && lastLineOfBlock then
          inr (Some (SkippedLineIndicator (lines b) blockIndex
                       (default 0 (leftNumber line))
                       (default 0 (rightNumber line))))
        else if negb (includes blockIndex expandedBlocks) then inr None
        else view
      end
    | None => view
    end
  else view.

Fixpoint mapDiffNodes (showDiffOnly splitView : bool) (hidden : HiddenBlocks)
    (expandedBlocks : list Z) (rows : list LineInformation) (lineIndex : nat)
  : Error + list (option DiffNode) :=
  match rows with
  | [] => inr []
  | line :: rest =>
    match diffNode showDiffOnly splitView hidden expandedBlocks line
                   lineIndex with
    | inl e => inl e
    | inr node =>
      match mapDiffNodes showDiffOnly splitView hidden expandedBlocks rest
                         (S lineIndex) with
      | inl e => inl e
      | inr nodes => inr (node :: nodes)
      end
    end
  end.

(** The props [renderDiff] reads (lines 30-92); an optional prop that is
    absent is [None], a flag is its truthiness. A number prop holds an
    integer: a fraction, an infinity or [NaN] in [extraLinesSurroundingDiff]
    is outside the embedding. *)
Record ReactDiffViewerProps := mkProps {
  oldValue : DiffInput;
  newValue : DiffInput;
  splitView : bool;
  linesOffset : Z;
  disableWordDiff : bool;
  compareMethod : CompareMethod;
  extraLinesSurroundingDiff : option Z;
  alwaysShowLines : option (list string);
  showDiffOnly : bool;
  highlightLines : option (list string)
}.

(** Lines 589-593; [Math.round] is the identity on an integer. *)
Definition extraLinesOf (props : ReactDiffViewerProps) : Z :=
  let extraLinesSurroundingDiffValue :=
    default 3 (extraLinesSurroundingDiff props) in
  if extraLinesSurroundingDiffValue <? 0 then 0
  else extraLinesSurroundingDiffValue.

Record RenderedDiff := mkRenderedDiff {
  diffNodes : list DiffNode;
  rd_blocks : list Block;
  rd_lineInformation : list LineInformation
}.

(** [renderDiff] (lines 567-640); [showLines] defaults to [[]] in
    [computeLineInformation], and [filter(Boolean)] drops the [null]s. *)
Definition renderDiff (lib : DiffLibrary) (props : ReactDiffViewerProps)
    (expandedBlocks : list Z) : Error + RenderedDiff :=
  match computeLineInformation lib (oldValue props) (newValue props)
          (disableWordDiff props) (compareMethod props) (linesOffset props)
          (default [] (alwaysShowLines props)) with
  | inl e => inl e
  | inr out =>
    let hidden := computeHiddenBlocks (lineInformation out) (cl_diffLines out)
                                      (extraLinesOf props) in
    match mapDiffNodes (showDiffOnly props) (splitView props) hidden
                       expandedBlocks (lineInformation out) 0 with
    | inl e => inl e
    | inr nodes =>
      inr (mkRenderedDiff (omap id nodes) (blocks hidden)
                          (lineInformation out))
    end
  end.

(** ** The summary and the fold state of render (index.tsx) *)

(** Lines 680-696: the loop over [nodes.lineInformation]; the pair is
    [(deletions, additions)]. *)
Definition countLine (acc : Z * Z) (l : LineInformation) : Z * Z :=
  let '(deletions, additions) := acc in
  let additions :=
    if bool_decide (leftType l = Some ADDED) then additions + 1
    else additions in
  let additions :=
    if bool_decide (rightType l = Some ADDED) then additions + 1
    else additions in
  let deletions :=
    if bool_decide (leftType l = Some REMOVED) then deletions + 1
    else deletions in
  let deletions :=
    if bool_decide (rightType l = Some REMOVED) then deletions + 1
    else deletions in
  (deletions, additions).

Definition countChanges (rows : list LineInformation) : Z * Z :=
  foldl countLine (0, 0) rows.

Definition totalChanges (rows : list LineInformation) : Z :=
  let '(deletions, additions) := countChanges rows in deletions + additions.

(** Lines 717-718 and 726-732: the test behind the button of the summary and
    the state its click sets. *)
Definition allExpanded (expandedBlocks : list Z) (bs : list Block) : bool :=
  bool_decide (length expandedBlocks = length bs).
Definition toggleAll (expandedBlocks : list Z) (bs : list Block) : list Z :=
  if allExpanded expandedBlocks bs then [] else index <$> bs.

(** [onBlockExpand] (lines 155-162) and [resetCodeBlocks] (lines 141-149),
    as functions of the state [expandedBlocks]. *)
Definition onBlockExpand (id : Z) (expandedBlocks : list Z) : list Z :=
  expandedBlocks ++ [id].
Definition resetCodeBlocks (expandedBlocks : list Z) : list Z * bool :=
  if bool_decide (0 < length expandedBlocks)%nat then ([], true)
  else (expandedBlocks, false).

(** [render] up to the summary (lines 642-696): the input guard, then
    [renderDiff]; the result carries [totalChanges]. *)
Definition render (lib : DiffLibrary) (props : ReactDiffViewerProps)
    (expandedBlocks : list Z) : RenderError + (Error + (Z * RenderedDiff)) :=
  match render_guard (compareMethod props) (oldValue props)
                     (newValue props) with
  | Some e => inl e
  | None =>
    inr (match renderDiff lib props expandedBlocks with
         | inl e => inl e
         | inr nodes => inr (totalChanges (rd_lineInformation nodes), nodes)
         end)
  end.

(** * Vocabulary of the further properties *)

(** ** Shapes of rows *)

(** The rows [getLineInformation] builds: an unchanged line (also a removed
    line merged with an equal added line), a removal, an addition, and a
    modification, whose two values are the lines themselves when word diff is
    disabled and the two fragment lists of one [computeDiff] call otherwise. *)
Inductive rowShape (lib : DiffLibrary) (disableWordDiff : bool)
    (lineCompareMethod : CompareMethod) : LineInformation -> Prop :=
  | shape_unchanged line ln rn :
      rowShape lib disableWordDiff lineCompareMethod
        (both (side DEFAULT ln line) (side DEFAULT rn line))
  | shape_removal line ln :
      line <> EmptyString ->
      rowShape lib disableWordDiff lineCompareMethod
        (both (side REMOVED ln line) emptyInfo)
  | shape_addition line rn :
      rowShape lib disableWordDiff lineCompareMethod
        (both emptyInfo (side ADDED rn line))
  | shape_modification_lines oldLine newLine ln rn :
      disableWordDiff = true -> oldLine <> newLine ->
      oldLine <> EmptyString -> newLine <> EmptyString ->
      rowShape lib disableWordDiff lineCompareMethod
        (both (side REMOVED ln oldLine) (side ADDED rn newLine))
  | shape_modification_words oldLine newLine ln rn :
      disableWordDiff = false -> orSpace oldLine <> newLine ->
      newLine <> EmptyString ->
      rowShape lib disableWordDiff lineCompareMethod
        (both (mkDiffInformation
                 (Some (VList (cd_left (computeDiff lib oldLine newLine
                                                    lineCompareMethod))))
                 (Some ln) (Some REMOVED))
              (mkDiffInformation
                 (Some (VList (cd_right (computeDiff lib oldLine newLine
                                                     lineCompareMethod))))
                 (Some rn) (Some ADDED))).

(** A row with a change on either side: a REMOVED left or an ADDED right. *)
Definition changed (row : LineInformation) : Prop :=
  leftType row = Some REMOVED \/ rightType row = Some ADDED.



#[global] Instance changed_dec row : Decision (changed row).
Proof. unfold changed. apply _. Defined.

(** The indices of the changed rows, counted from [i]. *)
Fixpoint changedFrom (i : Z) (rows : list LineInformation) : list Z :=
  match rows with
  | [] => []
  | row :: rest =>
    (if decide (changed row) then [i] else []) ++ changedFrom (i + 1) rest
  end.

(** What a stretch of the run adds to [diffLines] when no row is forced. *)
Definition marksChanged (s : State) (rows : list LineInformation)
    (s' : State) : Prop :=
  counter s' = counter s + Z.of_nat (length rows)
  /\ (Forall (fun d => d < counter s) (diffLines s) ->
      diffLines s' = diffLines s ++ changedFrom (counter s) rows).

(** ** Lines of the two texts *)

(** The lines of the chunks that belong to the old text (every chunk that is
    not added) and to the new text (every chunk that is not removed). *)
Fixpoint oldLineCount (chunks : list Change) : nat :=
  match chunks with
  | [] => 0
  | c :: rest =>
    ((if added c then 0 else length (constructLines (value c)))
     + oldLineCount rest)%nat
  end.
Fixpoint newLineCount (chunks : list Change) : nat :=
  match chunks with
  | [] => 0
  | c :: rest =>
    ((if removed c then 0 else length (constructLines (value c)))
     + newLineCount rest)%nat
  end.

(** The number of lines of the chunk at position [d]. *)
Definition linesAt (diffArray : list Change) (d : nat) : nat :=
  match diffArray !! d with
  | Some c => length (constructLines (value c))
  | None => 0
  end.

(** The lines of chunk [d], from line [i] on, that the ignore list names. *)
Definition skipped (d i n : nat) (s : State) : nat :=
  length (filter (fun l => ignoreKey d l ∈ ignoreDiffIndexes s) (seq i n)).

(** The state between two chunks, before the chunk at position [length pre]:
    the right counter has passed the lines of the new text so far and the
    lines [taken] of the coming chunk, which are the ones the ignore list
    names for it; no later chunk is named. *)
Definition between (diffArray : list Change) (off : Z) (pre : list Change)
    (s : State) : Prop :=
  leftLineNumber s = off + Z.of_nat (oldLineCount pre)
  /\ exists taken : list nat,
       NoDup taken
       /\ Forall (fun l => (l < linesAt diffArray (length pre))%nat) taken
       /\ (forall l, ignoreKey (length pre) l ∈ ignoreDiffIndexes s
                     <-> l ∈ taken)
       /\ (forall d l, ignoreKey d l ∈ ignoreDiffIndexes s ->
                       (d <= length pre)%nat)
       /\ rightLineNumber s
          = off + Z.of_nat (newLineCount pre) + Z.of_nat (length taken).

(** ** Rows of the table *)

(** The table rows of one line, in the view the props select. *)
Definition viewRows (splitView : bool) (line : LineInformation)
  : list (list LineCall) :=
  if splitView then renderSplitView line else renderInlineView line.

(** The node of row [i] when it lies in the block [b] at position [p]. *)
Definition foldedNode (splitView : bool) (expandedBlocks : list Z) (p : nat)
    (b : Block) (line : LineInformation) (i : nat) : option DiffNode :=
  if bool_decide (Z.of_nat p ∈ expandedBlocks)
  then Some (LineRows i (viewRows splitView line))
  else if bool_decide (Z.of_nat i = endLine b)
       then Some (SkippedLineIndicator (endLine b - startLine b + 1)
                                       (Z.of_nat p)
                                       (default 0 (leftNumber line))
                                       (default 0 (rightNumber line)))
       else None.

(** Every line shown, in order. *)
Definition allViews (splitView : bool) (rows : list LineInformation)
  : list DiffNode :=
  imap (fun i line => LineRows i (viewRows splitView line)) rows.

(** The node of a row, read off [diffNode]. *)
Definition nodeOf (sd sv : bool) (hb : HiddenBlocks) (exp : list Z)
    (i : nat) (line : LineInformation) : option DiffNode :=
  match diffNode sd sv hb exp line i with
  | inr o => o
  | inl _ => None
  end.

(** ** Inputs of the further examples *)

Definition text_abc : string := "a" +:+ nl +:+ "b" +:+ nl +:+ "c".
Definition text_axyz : string :=
  "a" +:+ nl +:+ "x" +:+ nl +:+ "y" +:+ nl +:+ "z" +:+ nl.

(** The run on these two texts with word diff disabled. *)
Definition run_abc (linesOffset : Z) (showLines : list string)
  : Error + ComputedLineInformation :=
  computeLineInformation standIn (InString text_abc) (InString text_axyz)
                         true (Preset CHARS) linesOffset showLines.

(** The same run with word diff enabled, no offset and no forced line. *)
Definition run_abc_words : Error + ComputedLineInformation :=
  computeLineInformation standIn (InString text_abc) (InString text_axyz)
                         false (Preset CHARS) 0 [].

(** ** Props of the further examples *)

Definition text_eight : string :=
  "a" +:+ nl +:+ "b" +:+ nl +:+ "c" +:+ nl +:+ "d" +:+ nl +:+ "e" +:+ nl
  +:+ "f" +:+ nl +:+ "g" +:+ nl +:+ "h" +:+ nl.
Definition text_nine : string :=
  "a" +:+ nl +:+ "b" +:+ nl +:+ "c" +:+ nl +:+ "d" +:+ nl +:+ "E" +:+ nl
  +:+ "f" +:+ nl +:+ "g" +:+ nl +:+ "h" +:+ nl +:+ "i" +:+ nl.

(** Inline view, word diff disabled, one extra line around each change. *)
Definition props_inline : ReactDiffViewerProps :=
  mkProps (InString text_eight) (InString text_nine) false 0 true
          (Preset CHARS) (Some 1) None true None.

(** A failing line differ behind the default props. *)
Definition props_default (oldText newText : string) : ReactDiffViewerProps :=
  mkProps (InString oldText) (InString newText) true 0 false (Preset CHARS)
          (Some 3) None true (Some []).

Definition renderedOf (r : Error + RenderedDiff) : RenderedDiff :=
  match r with
  | inr rd => rd
  | inl _ => mkRenderedDiff [] [] []
  end.

(** ** Fold states *)

(** The fold states the handlers reach while the props stay the same: the
    state the constructor sets, a click on a fold row that is shown
    ([onBlockClickProxy] of its block number), a click on the button of the
    summary, and [resetCodeBlocks]. *)
Inductive reachable (lib : DiffLibrary) (props : ReactDiffViewerProps)
  : list Z -> Prop :=
  | reach_initial : reachable lib props []
  | reach_expand st rd n k l r :
      reachable lib props st ->
      renderDiff lib props st = inr rd ->
      SkippedLineIndicator n k l r ∈ diffNodes rd ->
      reachable lib props (onBlockExpand k st)
  | reach_toggle st rd :
      reachable lib props st ->
      renderDiff lib props st = inr rd ->
      reachable lib props (toggleAll st (rd_blocks rd))
  | reach_reset st :
      reachable lib props st ->
      reachable lib props (fst (resetCodeBlocks st)).

(** Every element of a fold state is the position of a block, once. *)
Definition foldStateOk (bs : list Block) (st : list Z) : Prop :=
  NoDup st
  /\ forall k, k ∈ st -> exists (p : nat) b, k = Z.of_nat p /\ bs !! p = Some b.

(** * Properties *)

(** ** Lines carry no line feed *)

Lemma splitNewline_noLF s : Forall (fun l => hasLF l = false) (splitNewline s).
Proof.
  induction s as [|c rest IH]; simpl.
  - by repeat constructor.
  - destruct (Ascii.eqb c LF) eqn:Hc.
    + by constructor.
    + destruct (splitNewline rest) as [|l ls].
      * repeat constructor. simpl. by rewrite Hc.
      * inversion IH; subst. constructor; [|done]. simpl. by rewrite Hc.
Qed.

Lemma stripFinalNewline_noLF s : hasLF s = false -> stripFinalNewline s = s.
Proof.
  induction s as [|c rest IH]; simpl; [done|].
  intros [Hc Hrest]%orb_false_elim.
  destruct rest; [by rewrite Hc|]. by rewrite IH.
Qed.

Lemma splitNewline_single s : hasLF s = false -> splitNewline s = [s].
Proof.
  induction s as [|c rest IH]; simpl; [done|].
  intros [Hc Hrest]%orb_false_elim. by rewrite Hc, IH.
Qed.

Lemma constructLines_noLF v i l :
  constructLines v !! i = Some l -> hasLF l = false.
Proof.
  unfold constructLines. destruct (String.eqb v ""); [done|].
  intros H. eapply (Forall_lookup_1 _ _ _ _ (splitNewline_noLF _) H).
Qed.

Lemma constructLines_single l :
  hasLF l = false -> truthy l = true -> constructLines l = [l].
Proof.
  unfold constructLines, truthy. intros Hl Ht.
  destruct (String.eqb l ""); [done|].
  by rewrite stripFinalNewline_noLF, splitNewline_single.
Qed.

(** ** The nested call *)

Section NestedCall.
Context (lib : DiffLibrary) (diffArray : list Change)
        (disableWordDiff : bool) (lineCompareMethod : CompareMethod)
        (showLines : list string).

Notation getLineInformation' :=
  (getLineInformation lib diffArray disableWordDiff lineCompareMethod
                      showLines).
Notation lineStep' :=
  (lineStep lib diffArray disableWordDiff lineCompareMethod showLines).
Notation mapLines' :=
  (mapLines lib diffArray disableWordDiff lineCompareMethod showLines).

(** With [removed = false] the body never calls the function again. *)
Lemma getLineInformation_nested depth newLine diffIndex s :
  hasLF newLine = false -> truthy newLine = true ->
  getLineInformation' (S depth) newLine diffIndex true false true s
  = nestedResult showLines newLine diffIndex s.
Proof.
  intros Hlf Ht. simpl. unfold getLineInformationBody.
  rewrite (constructLines_single _ Hlf Ht). simpl.
  unfold nestedResult, lineStep, addedLine, forceShown, bind, gets, modify,
    when, ret. simpl.
  destruct (includes (ignoreKey diffIndex 0) (ignoreDiffIndexes s)); simpl;
    [done|].
  by destruct (includes (leftToken None) showLines
               || includes (rightToken (Some (rightLineNumber s + 1)))
                           showLines
                  && negb (includes (counter s) (diffLines s))).
Qed.
End NestedCall.

#[local] Arguments getLineInformation : simpl never.

Ltac destruct_inner t :=
  lazymatch t with
  | context [match ?x with _ => _ end] => destruct_inner x
  | _ => destruct t eqn:?
  end.

(** Case analysis of one top-level run of the callback, with [tac] run on
    the hypothesis after every split. *)
Ltac open_step_with tac H :=
  unfold rowStep, lineStep, removedLine, addedLine, unchangedLine,
    registerChange, forceShown, bind, gets, modify, when, ret, throw in H;
  simpl in H; tac;
  repeat (match type of H with
  | context [getLineInformation ?l ?da ?w ?m ?sh (S ?k) ?v ?d true false true ?s] =>
      rewrite (getLineInformation_nested l da w m sh k v d s) in H
        by (first [ eapply constructLines_noLF; eassumption
                  | assumption
                  | by apply negb_false_iff ]);
      unfold nestedResult in H; simpl in H
  | context [match ?x with _ => _ end] => destruct_inner x; simpl in H
  end; tac).

Ltac open_step_core H := open_step_with idtac H.

Ltac open_step H :=
  open_step_core H; try discriminate; injection H as <- <-.


Lemma seqZ_step m a : seqZ m (a + 1 - a) = [m].
Proof. by replace (a + 1 - a) with 1 by lia. Qed.
Lemma seqZ_stay m a : seqZ m (a - a) = [].
Proof. by replace (a - a) with 0 by lia. Qed.

Section Numbering.
Context (lib : DiffLibrary) (diffArray : list Change)
        (disableWordDiff : bool) (lineCompareMethod : CompareMethod)
        (showLines : list string).

Notation getLineInformation' :=
  (getLineInformation lib diffArray disableWordDiff lineCompareMethod
                      showLines).
Notation lineStep' :=
  (lineStep lib diffArray disableWordDiff lineCompareMethod showLines).
Notation mapLines' :=
  (mapLines lib diffArray disableWordDiff lineCompareMethod showLines).
Notation forEachChunk' :=
  (forEachChunk lib diffArray disableWordDiff lineCompareMethod showLines).
Notation rowStep' :=
  (rowStep lib diffArray disableWordDiff lineCompareMethod showLines).

(** *** Lifting a property of one step to the whole run *)
Section Lifting.
Variable P : State -> list LineInformation -> State -> Prop.
Hypothesis P_refl : forall s, P s [] s.
Hypothesis P_trans : forall s1 r1 s2 r2 s3,
  P s1 r1 s2 -> P s2 r2 s3 -> P s1 (r1 ++ r2) s3.
Hypothesis P_step : forall d a r line i s o s',
  rowStep' d a r line i s = Ok o s' -> P s (option_list o) s'.

Lemma mapLines_lift d a r ls : forall i s rs s',
  mapLines' (getLineInformation' 1) d a r false ls i s = Ok rs s' ->
  P s (omap id rs) s'.
Proof.
  induction ls as [|line rest IH]; intros i s rs s' H; simpl in H.
  - injection H as <- <-. apply P_refl.
  - unfold bind in H at 1.
    destruct (lineStep' _ d a r false line i s) as [o s1|] eqn:Hstep;
      [|done].
    unfold bind in H at 1.
    destruct (mapLines' _ d a r false rest (S i) s1) as [rs1 s2|] eqn:Hrest;
      [|done].
    injection H as <- <-.
    apply P_step in Hstep. apply IH in Hrest.
    replace (omap id (o :: rs1)) with (option_list o ++ omap id rs1)
      by by destruct o.
    eapply P_trans; eassumption.
Qed.

Lemma getLineInformation_lift v d a r s rows s' :
  getLineInformation' 2 v d a r false s = Ok rows s' -> P s rows s'.
Proof.
  unfold getLineInformation, getLineInformationBody.
  fold (getLineInformation' 1). unfold bind.
  destruct (mapLines' _ d a r false (constructLines v) 0 s)
    as [rs s1|] eqn:Hmap; [|done].
  intros [= <- <-]. by eapply mapLines_lift.
Qed.

Lemma forEachChunk_lift chunks : forall i rows0 s rows s',
  forEachChunk' chunks i rows0 s = Ok rows s' ->
  exists new, rows = rows0 ++ new /\ P s new s'.
Proof.
  induction chunks as [|c rest IH]; intros i rows0 s rows s' H; simpl in H.
  - injection H as <- <-. exists []. by rewrite app_nil_r.
  - unfold bind in H.
    destruct (getLineInformation' 2 (value c) i (added c) (removed c)
                false s) as [new s1|] eqn:Hc; [|done].
    apply getLineInformation_lift in Hc.
    apply IH in H as (new' & -> & H).
    exists (new ++ new'). split; [by rewrite app_assoc|].
    eapply P_trans; eassumption.
Qed.
End Lifting.

Lemma numbered_refl s : numbered s [] s.
Proof. unfold numbered. simpl. rewrite !seqZ_stay. repeat split; lia. Qed.

Lemma numbered_trans s1 r1 s2 r2 s3 :
  numbered s1 r1 s2 -> numbered s2 r2 s3 -> numbered s1 (r1 ++ r2) s3.
Proof.
  unfold numbered, leftNumbers, rightNumbers.
  intros [[Hl1 ?] [Hr1 ?]] [[Hl2 ?] [Hr2 ?]].
  rewrite !omap_app, Hl1, Hl2, Hr1, Hr2.
  replace (leftLineNumber s3 - leftLineNumber s1)
    with ((leftLineNumber s2 - leftLineNumber s1)
          + (leftLineNumber s3 - leftLineNumber s2)) by lia.
  replace (rightLineNumber s3 - rightLineNumber s1)
    with ((rightLineNumber s2 - rightLineNumber s1)
          + (rightLineNumber s3 - rightLineNumber s2)) by lia.
  rewrite !seqZ_app by lia.
  repeat split; try lia; do 2 f_equal; lia.
Qed.

Lemma rowStep_numbered d a r line i s o s' :
  rowStep' d a r line i s = Ok o s' -> numbered s (option_list o) s'.
Proof.
  intros H. open_step H.
  all: unfold numbered; simpl; rewrite ?seqZ_step, ?seqZ_stay.
  all: repeat split; lia.
Qed.
End Numbering.

(** ** The offset only moves the line numbers *)

Section Offset.
Context (lib : DiffLibrary) (diffArray : list Change)
        (disableWordDiff : bool) (lineCompareMethod : CompareMethod).
Variable k : Z.

Notation getLineInformation' :=
  (getLineInformation lib diffArray disableWordDiff lineCompareMethod []).
Notation lineStep' :=
  (lineStep lib diffArray disableWordDiff lineCompareMethod []).
Notation mapLines' :=
  (mapLines lib diffArray disableWordDiff lineCompareMethod []).
Notation forEachChunk' :=
  (forEachChunk lib diffArray disableWordDiff lineCompareMethod []).

Notation commutes := (commutesWithShift k).

Lemma lineStep_shift self d a r e line i s :
  commutes self ->
  lineStep' self d a r e line i (shiftState k s)
  = shiftResult (fmap (shiftRow k)) k (lineStep' self d a r e line i s).
Proof.
  intros Hself.
  unfold lineStep, removedLine, addedLine, unchangedLine, registerChange,
    forceShown, bind, gets, modify, when, ret, throw, shiftResult.
  simpl.
  repeat first
    [ match goal with
      | |- context [self ?v ?d' ?a' ?r' ?e' (incrLeft (shiftState k s))] =>
          replace (incrLeft (shiftState k s)) with (shiftState k (incrLeft s))
            by (unfold shiftState, incrLeft; simpl; f_equal; lia);
          rewrite (Hself v d' a' r' e' (incrLeft s)); unfold shiftResult;
          destruct (self v d' a' r' e' (incrLeft s)) as [[|? ?] ?|]; simpl
      end
    | match goal with
      | |- context [match ?x with _ => _ end] => destruct_inner x; simpl
      end ].
  all: try reflexivity.
  all: unfold shiftRow, shiftInfo, shiftState, incrCounter, pushCounter,
         pushIgnore, incrLeft, incrRight in *; simpl in *.
  all: simplify_eq/=; try congruence.
  all: rewrite ?(Z.add_shuffle0 _ k 1); try reflexivity.
  all: unfold strictEqString in *;
       repeat match goal with
              | H : di_value ?x = _, H' : context [di_value ?x] |- _ =>
                  rewrite H in H'
              end; congruence.
Qed.

Lemma mapLines_shift self d a r e ls :
  commutes self -> forall i s,
  mapLines' self d a r e ls i (shiftState k s)
  = shiftResult (A := list (option LineInformation))
                (fmap (M := list) (fmap (M := option) (shiftRow k))) k
                (mapLines' self d a r e ls i s).
Proof.
  intros Hself. induction ls as [|line rest IH]; intros i s; simpl; [done|].
  unfold bind at 1 3. rewrite lineStep_shift by done.
  destruct (lineStep' self d a r e line i s) as [o s1|]; simpl; [|done].
  unfold bind at 1 2. rewrite IH.
  by destruct (mapLines' self d a r e rest (S i) s1).
Qed.

Lemma getLineInformation_shift depth : commutes (getLineInformation' depth).
Proof.
  induction depth as [|depth IH]; intros v d a r e s; [done|].
  unfold getLineInformation; fold (getLineInformation' depth).
  unfold getLineInformationBody, bind.
  rewrite mapLines_shift by done.
  destruct (mapLines' _ d a r e (constructLines v) 0 s) as [rs s1|];
    simpl; [|done].
  unfold ret. f_equal. induction rs as [|[row|] rs IHrs]; simpl; [done| |done].
  by f_equal.
Qed.

Lemma forEachChunk_shift chunks : forall i rows s,
  forEachChunk' chunks i (shiftRow k <$> rows) (shiftState k s)
  = shiftResult (fmap (shiftRow k)) k (forEachChunk' chunks i rows s).
Proof.
  induction chunks as [|c rest IH]; intros i rows s; simpl; [done|].
  unfold bind. rewrite getLineInformation_shift.
  destruct (getLineInformation' 2 (value c) i (added c) (removed c) false s)
    as [new s1|]; simpl; [|done].
  by rewrite <- fmap_app, IH.
Qed.

Lemma computeLineInformation_from_shift off :
  computeLineInformation_from lib diffArray disableWordDiff
                              lineCompareMethod [] (off + k)
  = shiftOutput k (computeLineInformation_from lib diffArray disableWordDiff
                                               lineCompareMethod [] off).
Proof.
  unfold computeLineInformation_from.
  change (initialState (off + k)) with (shiftState k (initialState off)).
  change (@nil LineInformation) with (shiftRow k <$> @nil LineInformation)
    at 1.
  rewrite forEachChunk_shift.
  by destruct (forEachChunk' diffArray 0 [] (initialState off)).
Qed.
End Offset.

(** ** Whole-run consequences *)

Section Outputs.
Context (lib : DiffLibrary) (diffArray : list Change)
        (disableWordDiff : bool) (lineCompareMethod : CompareMethod)
        (showLines : list string).

Notation rowStep' :=
  (rowStep lib diffArray disableWordDiff lineCompareMethod showLines).
Notation getLineInformation' :=
  (getLineInformation lib diffArray disableWordDiff lineCompareMethod
                      showLines).
Notation run :=
  (computeLineInformation_from lib diffArray disableWordDiff
                               lineCompareMethod showLines).

Lemma run_lift (P : State -> list LineInformation -> State -> Prop) :
  (forall s, P s [] s) ->
  (forall s1 r1 s2 r2 s3, P s1 r1 s2 -> P s2 r2 s3 -> P s1 (r1 ++ r2) s3) ->
  (forall d a r line i s o s',
      rowStep' d a r line i s = Ok o s' -> P s (option_list o) s') ->
  forall off out, run off = inr out ->
  exists s', P (initialState off) (lineInformation out) s'
             /\ cl_diffLines out = diffLines s'.
Proof.
  intros Hrefl Htrans Hstep off out. unfold computeLineInformation_from.
  destruct (forEachChunk _ _ _ _ _ diffArray 0 [] (initialState off))
    as [rows s'|] eqn:Hrun; [|done].
  intros [= <-]. exists s'. split; [|done].
  eapply forEachChunk_lift in Hrun as (new & -> & H); eauto.
Qed.

Lemma rowStep_populated d a r line i s o s' :
  rowStep' d a r line i s = Ok o s' -> Forall populated (option_list o).
Proof.
  intros H. open_step H.
  all: simpl; first [apply Forall_nil_2 | apply Forall_singleton].
  all: unfold populated, leftValue, rightValue; simpl; eauto.
Qed.

Lemma run_numbers off out :
  run off = inr out ->
  leftNumbers (lineInformation out)
    = seqZ (off + 1) (Z.of_nat (length (leftNumbers (lineInformation out))))
  /\ rightNumbers (lineInformation out)
    = seqZ (off + 1) (Z.of_nat (length (rightNumbers (lineInformation out)))).
Proof.
  intros Hrun.
  destruct (run_lift numbered (numbered_refl)
              (numbered_trans) (rowStep_numbered lib diffArray
                 disableWordDiff lineCompareMethod showLines) off out Hrun)
    as (s' & [[Hl ?] [Hr ?]] & _).
  simpl in *. split.
  - rewrite Hl at 2. rewrite length_seqZ, Z2Nat.id by lia. done.
  - rewrite Hr at 2. rewrite length_seqZ, Z2Nat.id by lia. done.
Qed.

Lemma run_populated off out :
  run off = inr out -> Forall populated (lineInformation out).
Proof.
  intros Hrun.
  destruct (run_lift (fun _ rows _ => Forall populated rows)) with off out
    as (s' & H & _); try done.
  - intros. by apply Forall_app.
  - apply rowStep_populated.
Qed.
End Outputs.

(** ** Safe integers *)

Lemma omap_length_le {A B} (f : A -> option B) (l : list A) :
  (length (omap f l) <= length l)%nat.
Proof.
  induction l as [|x l IH]; [simpl; lia|].
  change (omap f (x :: l))
    with (match f x with Some y => y :: omap f l | None => omap f l end).
  destruct (f x); simpl; lia.
Qed.

Lemma safe_numbers linesOffset (rows : list LineInformation) (k : nat) :
  safeCounters linesOffset rows -> (k <= length rows)%nat ->
  Forall safeInteger (seqZ (linesOffset + 1) (Z.of_nat k)).
Proof.
  intros [[? ?] [? ?]] Hk. apply Forall_forall. intros n Hn.
  apply elem_of_seqZ in Hn. unfold safeInteger in *. lia.
Qed.

(** ** Hidden blocks *)

Lemma isDiffLine_protected diffLines extraLines x :
  isDiffLine diffLines extraLines x = true <-> protected diffLines extraLines x.
Proof.
  unfold isDiffLine, protected. rewrite existsb_exists.
  split.
  - intros (d & Hd & Hc). exists d. rewrite list_elem_of_In. split; [done|].
    apply andb_true_iff in Hc as [H1 H2]. lia.
  - intros (d & Hd & Hc). exists d. rewrite <- list_elem_of_In. split; [done|].
    apply andb_true_iff. lia.
Qed.

Lemma blockOk_mono diffLines extraLines i j b :
  i <= j -> blockOk diffLines extraLines i b -> blockOk diffLines extraLines j b.
Proof. unfold blockOk. intros ? (? & ? & ?). repeat split; [lia..|done]. Qed.

Lemma blockStep_inv diffLines extraLines i st :
  scanInv diffLines extraLines i st ->
  scanInv diffLines extraLines (i + 1) (blockStep diffLines extraLines st i).
Proof.
  intros (Hok & Hsorted & Hcur). unfold blockStep.
  assert (Hok' : Forall (blockOk diffLines extraLines (i + 1)) (hb_blocks st)).
  { eapply Forall_impl; [done|]. intros b. apply blockOk_mono. lia. }
  destruct (isDiffLine diffLines extraLines i) eqn:Hdiff; simpl.
  { destruct (currentBlock st); by repeat split. }
  assert (Hfree : ~ protected diffLines extraLines i).
  { rewrite <- isDiffLine_protected. by rewrite Hdiff. }
  destruct (currentBlock st) as [ref|]; simpl.
  - destruct Hcur as (pre & b & Hbs & -> & Hend). rewrite Hbs in *.
    rewrite alter_app_r_alt, Nat.sub_diag by done. simpl.
    apply Forall_app in Hok as [Hpre Hb].
    apply Forall_app in Hok' as [Hpre' _].
    apply Forall_singleton in Hb as (Hse & _ & Hb).
    apply StronglySorted_app in Hsorted as (Hcross & Hspre & _).
    repeat split.
    + apply Forall_app. split; [done|]. apply Forall_singleton.
      repeat split; simpl; [lia..|].
      intros x Hx. destruct (decide (x = i)) as [->|]; [done|].
      apply Hb. lia.
    + apply StronglySorted_app. repeat split; [|done|by repeat constructor].
      intros b1 b2 H1 ->%list_elem_of_singleton.
      apply (Hcross b1 b); [done|]. by apply list_elem_of_singleton.
    + exists pre, (extendBlock i b). repeat split; simpl. lia.
  - repeat split.
    + apply Forall_app. split; [done|]. apply Forall_singleton.
      repeat split; simpl; [lia..|].
      intros x Hx. by replace x with i by lia.
    + apply StronglySorted_app. repeat split; [|done|by repeat constructor].
      intros b1 b2 H1 ->%list_elem_of_singleton. unfold apart. simpl.
      by destruct (proj1 (Forall_forall _ _) Hok b1 H1) as (_ & ? & _).
    + exists (hb_blocks st), (mkBlock (newBlockIndex st) i i 1).
      repeat split; simpl. lia.
Qed.

Lemma forEachLine_inv diffLines extraLines rows : forall i st,
  scanInv diffLines extraLines i st ->
  exists j, scanInv diffLines extraLines j
                    (forEachLine diffLines extraLines rows i st).
Proof.
  induction rows as [|row rest IH]; intros i st Hinv; simpl.
  - by exists i.
  - apply IH with (i := i + 1). by apply blockStep_inv.
Qed.

Lemma StronglySorted_lookup {A} (R : A -> A -> Prop) l :
  StronglySorted R l -> forall i j a b,
  (i < j)%nat -> l !! i = Some a -> l !! j = Some b -> R a b.
Proof.
  induction 1 as [|x l Hl IH Hx]; intros i j a b Hij Ha Hb; [done|].
  destruct j as [|j]; [lia|]. destruct i as [|i]; simpl in *.
  - injection Ha as ->. eapply Forall_lookup_1; eauto.
  - eapply IH; [|done..]. lia.
Qed.

(** ** Hidden blocks: numbering, maximal runs, the row map *)

Lemma shapeInv_step diffLines extraLines i st :
  scanInv diffLines extraLines i st -> shapeInv st ->
  shapeInv (blockStep diffLines extraLines st i).
Proof.
  intros (_ & _ & Hcur) (Hn & Hshape). unfold blockStep.
  destruct (isDiffLine diffLines extraLines i); simpl; [by split|].
  destruct (currentBlock st) as [ref|];
    unfold shapeInv; cbn [newBlockIndex hb_blocks].
  - destruct Hcur as (pre & b & Hbs & -> & Hend). split.
    + by rewrite length_alter.
    + intros k b'. rewrite list_lookup_alter.
      case_decide as Hk; [subst k|by apply Hshape].
      destruct (hb_blocks st !! length pre) as [b0|] eqn:Hb0; [|done].
      intros [= <-]. destruct (Hshape _ _ Hb0) as [Hi Hl].
      rewrite Hbs, list_lookup_middle in Hb0 by done. injection Hb0 as ->.
      simpl. split; [done|]. lia.
  - split.
    + rewrite length_app. simpl. lia.
    + intros k b [Hb | [Hk Hb]]%lookup_app_Some; [by apply Hshape|].
      destruct (k - length (hb_blocks st))%nat as [|?] eqn:Hd; [|done].
      injection Hb as <-. simpl. split; lia.
Qed.

Lemma runsInv_step diffLines extraLines i st :
  scanInv diffLines extraLines i st -> runsInv diffLines extraLines i st ->
  runsInv diffLines extraLines (i + 1) (blockStep diffLines extraLines st i).
Proof.
  intros (Hok & Hsorted & Hcur) (Hi & Hmax & Hcover & Hnone).
  unfold blockStep.
  destruct (isDiffLine diffLines extraLines i) eqn:Hdiff; simpl.
  { apply isDiffLine_protected in Hdiff.
    repeat split; simpl; [lia|..].
    - by destruct (Hmax b H).
    - by destruct (Hmax b H) as (_ & ? & _).
    - destruct (Hmax b H) as (_ & _ & [?|[Hend _]]); [by left|].
      left. by replace (endLine b + 1) with i by lia.
    - intros x Hx Hfree. apply Hcover; [|done].
      destruct (decide (x = i)) as [->|]; [done|lia].
    - intros _. right. by replace (i + 1 - 1) with i by lia. }
  assert (Hfree : ~ protected diffLines extraLines i).
  { rewrite <- isDiffLine_protected. by rewrite Hdiff. }
  destruct (currentBlock st) as [ref|] eqn:Hcb; simpl.
  - destruct Hcur as (pre & b & Hbs & -> & Hend). rewrite Hbs in *.
    rewrite alter_app_r_alt, Nat.sub_diag by done. simpl.
    apply StronglySorted_app in Hsorted as (Hcross & _ & _).
    repeat split; simpl; [lia|..].
    + apply elem_of_app in H as [Hb | ->%list_elem_of_singleton].
      * destruct (Hmax b0) as (? & _); [set_solver|done].
      * destruct (Hmax b) as (? & _); [set_solver|done].
    + apply elem_of_app in H as [Hb | ->%list_elem_of_singleton].
      * destruct (Hmax b0) as (_ & ? & _); [set_solver|done].
      * destruct (Hmax b) as (_ & ? & _); [set_solver|done].
    + apply elem_of_app in H as [Hb | ->%list_elem_of_singleton].
      * destruct (Hmax b0) as (_ & _ & [?|[Hend0 _]]); [set_solver|by left|].
        assert (apart b0 b) as Hap by (apply Hcross; set_solver).
        destruct (proj1 (Forall_forall _ _) Hok b) as (Hse & _);
          [set_solver|].
        unfold apart in Hap. lia.
      * right. simpl. split; [lia|done].
    + intros x Hx Hnot. destruct (decide (x = i)) as [->|].
      * exists (extendBlock i b). split; [set_solver|]. simpl.
        destruct (proj1 (Forall_forall _ _) Hok b) as (Hse & _);
          [set_solver|]. lia.
      * destruct (Hcover x) as (b0 & Hb0 & Hx0); [lia|done|].
        apply elem_of_app in Hb0 as [Hb0 | ->%list_elem_of_singleton].
        -- exists b0. split; [set_solver|done].
        -- exists (extendBlock i b). split; [set_solver|]. simpl. lia.
    + done.
  - repeat split; simpl; [lia|..].
    + apply elem_of_app in H as [Hb | ->%list_elem_of_singleton].
      * by destruct (Hmax b Hb).
      * simpl. lia.
    + apply elem_of_app in H as [Hb | ->%list_elem_of_singleton].
      * by destruct (Hmax b Hb) as (_ & ? & _).
      * simpl. destruct (Hnone eq_refl) as [->|?]; [by left|by right].
    + apply elem_of_app in H as [Hb | ->%list_elem_of_singleton].
      * destruct (Hmax b Hb) as (_ & _ & [?|[_ [? Hsome]]]); [by left|done].
      * right. simpl. split; [lia|done].
    + intros x Hx Hnot. destruct (decide (x = i)) as [->|].
      * exists (mkBlock (newBlockIndex st) i i 1). split; [set_solver|].
        simpl. lia.
      * destruct (Hcover x) as (b0 & Hb0 & Hx0); [lia|done|].
        exists b0. split; [set_solver|done].
    + done.
Qed.

Lemma mapInv_step diffLines extraLines i st :
  scanInv diffLines extraLines i st -> shapeInv st -> mapInv st ->
  mapInv (blockStep diffLines extraLines st i).
Proof.
  intros (Hok & _ & Hcur) (Hn & Hshape) Hmap. unfold blockStep.
  unfold mapInv in Hmap.
  destruct (isDiffLine diffLines extraLines i); simpl; [done|].
  rewrite Forall_forall in Hok.
  destruct (currentBlock st) as [ref|];
    unfold mapInv; cbn [hb_lineBlocks hb_blocks].
  - destruct Hcur as (pre & b & Hbs & -> & Hend).
    assert (Hlast : hb_blocks st !! length pre = Some b)
      by (by rewrite Hbs, list_lookup_middle).
    assert (Hb : startLine b <= endLine b /\ endLine b < i)
      by (destruct (Hok b) as (? & ? & _);
          [by eapply list_elem_of_lookup_2|done]).
    unfold indexAt. rewrite list_lookup_alter_eq, Hlast. simpl.
    destruct (Hshape _ _ Hlast) as [-> _].
    intros x k. destruct (decide (x = i)) as [->|Hx].
    + rewrite lookup_insert_eq. split.
      * intros [= <-]. exists (length pre), (extendBlock i b).
        rewrite list_lookup_alter_eq, Hlast. simpl. repeat split; lia.
      * intros (p & b' & -> & Hp & Hr).
        destruct (decide (p = length pre)) as [->|Hne]; [done|].
        rewrite list_lookup_alter_ne in Hp by done.
        destruct (Hok b') as (_ & ? & _);
          [by eapply list_elem_of_lookup_2|lia].
    + rewrite lookup_insert_ne by done. rewrite Hmap. split.
      * intros (p & b' & -> & Hp & Hr).
        destruct (decide (p = length pre)) as [->|Hne].
        -- exists (length pre), (extendBlock i b).
           rewrite list_lookup_alter_eq, Hlast. simpl.
           rewrite Hlast in Hp. injection Hp as <-. repeat split; lia.
        -- exists p, b'. by rewrite list_lookup_alter_ne.
      * intros (p & b' & -> & Hp & Hr).
        destruct (decide (p = length pre)) as [->|Hne].
        -- exists (length pre), b. rewrite list_lookup_alter_eq, Hlast in Hp.
           injection Hp as <-. simpl in Hr. repeat split; [done|lia..].
        -- exists p, b'. by rewrite list_lookup_alter_ne in Hp.
  - cbn [index]. rewrite Hn. intros x k.
    destruct (decide (x = i)) as [->|Hx].
    + rewrite lookup_insert_eq. split.
      * intros [= <-]. eexists (length (hb_blocks st)), _.
        rewrite list_lookup_middle by done.
        split; [done|]. split; [done|]. simpl. lia.
      * intros (p & b' & -> & Hp & Hr).
        apply lookup_app_Some in Hp as [Hp | [Hge Hp]].
        -- destruct (Hok b') as (_ & ? & _);
             [by eapply list_elem_of_lookup_2|lia].
        -- destruct (p - length (hb_blocks st))%nat eqn:Hd; [|done].
           do 2 f_equal. lia.
    + rewrite lookup_insert_ne by done. rewrite Hmap. split.
      * intros (p & b' & -> & Hp & Hr). exists p, b'.
        repeat split; [|lia..]. by apply lookup_app_l_Some.
      * intros (p & b' & -> & Hp & Hr).
        apply lookup_app_Some in Hp as [Hp | [Hge Hp]]; [by exists p, b'|].
        destruct (p - length (hb_blocks st))%nat eqn:Hd; [|done].
        injection Hp as <-. simpl in Hr. lia.
Qed.

Lemma forEachLine_full diffLines extraLines rows : forall i st,
  scanInv diffLines extraLines i st -> shapeInv st ->
  runsInv diffLines extraLines i st -> mapInv st ->
  let st' := forEachLine diffLines extraLines rows i st in
  let j := i + Z.of_nat (length rows) in
  scanInv diffLines extraLines j st' /\ shapeInv st'
  /\ runsInv diffLines extraLines j st' /\ mapInv st'.
Proof.
  induction rows as [|row rest IH]; intros i st H1 H2 H3 H4;
    cbn [forEachLine length].
  - by rewrite Z.add_0_r.
  - replace (i + Z.of_nat (S (length rest)))
      with (i + 1 + Z.of_nat (length rest)) by lia.
    apply IH.
    + by apply blockStep_inv.
    + by eapply shapeInv_step.
    + by apply runsInv_step.
    + by eapply mapInv_step.
Qed.

(** ** computeDiff *)

Lemma fragmentOf_tagged c : fragmentOf c = tagged c.
Proof. unfold fragmentOf, tagged. by destruct (added c), (removed c). Qed.

Lemma computeDiffOf_sides chunks : forall acc,
  Forall exclusive chunks ->
  cd_left (foldl pushFragment acc chunks)
    = cd_left acc ++ (tagged <$> filter (fun c => added c = false) chunks)
  /\ cd_right (foldl pushFragment acc chunks)
    = cd_right acc ++ (tagged <$> filter (fun c => removed c = false) chunks).
Proof.
  induction chunks as [|c rest IH]; intros acc Hex; simpl.
  - by rewrite !app_nil_r.
  - apply Forall_cons in Hex as [Hc Hrest].
    destruct (IH (pushFragment acc c) Hrest) as [Hl Hr].
    rewrite Hl, Hr. unfold pushFragment. rewrite fragmentOf_tagged.
    rewrite !filter_cons. unfold exclusive in Hc.
    destruct (added c) eqn:Ha, (removed c) eqn:Hr'; simpl;
      repeat case_decide; try done; try (by destruct Hc);
      by rewrite <- ?app_assoc.
Qed.

Lemma fragmentText_tagged (chunks : list Change) :
  fragmentText <$> (tagged <$> chunks) = value <$> chunks.
Proof. induction chunks; simpl; by f_equal. Qed.

Lemma computeDiffOf_all chunks : forall acc,
  cd_left (foldl pushFragment acc chunks)
    = cd_left acc
      ++ (tagged <$> filter (fun c => removed c = true \/ added c = false)
                            chunks)
  /\ cd_right (foldl pushFragment acc chunks)
    = cd_right acc
      ++ (tagged <$> filter (fun c => added c = true \/ removed c = false)
                            chunks).
Proof.
  induction chunks as [|c rest IH]; intros acc; simpl.
  - by rewrite !app_nil_r.
  - destruct (IH (pushFragment acc c)) as [Hl Hr].
    rewrite Hl, Hr. unfold pushFragment. rewrite fragmentOf_tagged.
    rewrite !filter_cons.
    destruct (added c) eqn:Ha, (removed c) eqn:Hr'; simpl;
      repeat case_decide; try done;
      try (by rewrite <- ?app_assoc); naive_solver.
Qed.

(** ** The keys of ignoreDiffIndexes are read back without ambiguity *)

Lemma pretty_N_go_noDash x : forall s,
  hasDash s = false -> hasDash (pretty_N_go x s) = false.
Proof.
  induction (N.lt_wf_0 x) as [x _ IH]; intros s Hs.
  destruct (decide (x = 0)%N) as [->|Hx]; [by rewrite pretty_N_go_0|].
  rewrite pretty_N_go_step by lia. apply IH.
  - apply N.div_lt; lia.
  - simpl. rewrite Hs, orb_false_r.
    unfold pretty_N_char. by repeat case_match.
Qed.

Lemma pretty_nat_noDash (n : nat) : hasDash (pretty n) = false.
Proof.
  unfold pretty, pretty_nat, pretty, pretty_N.
  case_decide; [done|]. by apply pretty_N_go_noDash.
Qed.

Lemma append_dash_inj s1 : forall s2 t1 t2,
  hasDash s1 = false -> hasDash s2 = false ->
  s1 +:+ "-" +:+ t1 = s2 +:+ "-" +:+ t2 -> s1 = s2 /\ t1 = t2.
Proof.
  induction s1 as [|c s1 IH]; intros [|c' s2] t1 t2 H1 H2 Heq; simpl in *.
  - by injection Heq.
  - injection Heq as <- _. by rewrite Ascii.eqb_refl in H2.
  - injection Heq as -> _. by rewrite Ascii.eqb_refl in H1.
  - injection Heq as <- Heq.
    apply orb_false_elim in H1 as [_ H1]. apply orb_false_elim in H2 as [_ H2].
    destruct (IH _ _ _ H1 H2 Heq) as [-> ->]. done.
Qed.

Lemma ignoreKey_inj d l d' l' :
  ignoreKey d l = ignoreKey d' l' -> d = d' /\ l = l'.
Proof.
  unfold ignoreKey. intros H.
  apply append_dash_inj in H as [Hd Hl]; try apply pretty_nat_noDash.
  split; by eapply (inj pretty).
Qed.

(** ** Chunks flagged one way at most never make the run throw *)

Section Returns.
Context (lib : DiffLibrary) (diffArray : list Change)
        (disableWordDiff : bool) (lineCompareMethod : CompareMethod)
        (showLines : list string).

Notation rowStep' :=
  (rowStep lib diffArray disableWordDiff lineCompareMethod showLines).
Notation mapLines' :=
  (mapLines lib diffArray disableWordDiff lineCompareMethod showLines
     (getLineInformation lib diffArray disableWordDiff lineCompareMethod
                         showLines 1)).
Notation getLineInformation' :=
  (getLineInformation lib diffArray disableWordDiff lineCompareMethod
                      showLines).
Notation forEachChunk' :=
  (forEachChunk lib diffArray disableWordDiff lineCompareMethod showLines).

Lemma ignoreSound_push s d l c :
  ignoreSound diffArray s -> diffArray !! d = Some c -> added c = true ->
  forall key, key ∈ ignoreDiffIndexes s ++ [ignoreKey d l] ->
    exists d l c, key = ignoreKey d l /\ diffArray !! d = Some c
                  /\ added c = true.
Proof.
  intros Hs Hd Ha key [Hin | ->%list_elem_of_singleton]%elem_of_app;
    [by apply Hs | by exists d, l, c].
Qed.

Lemma rowStep_returns d c line i s :
  ignoreSound diffArray s -> diffArray !! d = Some c -> exclusive c ->
  exists o s', rowStep' d (added c) (removed c) line i s = Ok o s'
               /\ ignoreSound diffArray s'.
Proof.
  intros Hs Hd Hex.
  destruct (rowStep' d (added c) (removed c) line i s) as [o s'|e] eqn:H.
  - exists o, s'. split; [done|].
    open_step_core H; try discriminate; injection H as <- <-.
    all: try exact Hs.
    all: unfold ignoreSound; simpl;
         eapply ignoreSound_push; eauto; by apply negb_false_iff.
  - exfalso. open_step_core H; try discriminate.
    all: match goal with
         | Hi : includes (ignoreKey _ 0) _ = true |- _ =>
             apply bool_decide_eq_true in Hi; apply Hs in Hi;
             destruct Hi as (d' & l' & c' & [<- _]%ignoreKey_inj & Hd' & Ha')
         end.
    all: apply Hex; split; congruence.
Qed.
End Returns.

Section WholeRun.
Context (lib : DiffLibrary) (diffArray : list Change)
        (disableWordDiff : bool) (lineCompareMethod : CompareMethod)
        (showLines : list string).

Notation rowStep' :=
  (rowStep lib diffArray disableWordDiff lineCompareMethod showLines).
Notation mapLines' :=
  (mapLines lib diffArray disableWordDiff lineCompareMethod showLines
     (getLineInformation lib diffArray disableWordDiff lineCompareMethod
                         showLines 1)).
Notation getLineInformation' :=
  (getLineInformation lib diffArray disableWordDiff lineCompareMethod
                      showLines).
Notation forEachChunk' :=
  (forEachChunk lib diffArray disableWordDiff lineCompareMethod showLines).

Lemma mapLines_returns d c ls : forall i s,
  ignoreSound diffArray s -> diffArray !! d = Some c -> exclusive c ->
  exists rs s', mapLines' d (added c) (removed c) false ls i s = Ok rs s'
                /\ ignoreSound diffArray s'.
Proof.
  induction ls as [|line rest IH]; intros i s Hs Hd Hex; simpl.
  - by exists [], s.
  - destruct (rowStep_returns lib diffArray disableWordDiff lineCompareMethod
                showLines d c line i s Hs Hd Hex) as (o & s1 & Hstep & Hs1).
    unfold rowStep in Hstep. unfold bind at 1. rewrite Hstep.
    destruct (IH (S i) s1 Hs1 Hd Hex) as (rs & s2 & Hrest & Hs2).
    unfold bind at 1. rewrite Hrest. by exists (o :: rs), s2.
Qed.

Lemma getLineInformation_top v d a r e s :
  getLineInformation' 2 v d a r e s
  = match mapLines lib diffArray disableWordDiff lineCompareMethod
            showLines (getLineInformation' 1) d a r e (constructLines v) 0 s
    with
    | Ok rs s1 => Ok (omap id rs) s1
    | Throw err => Throw err
    end.
Proof. reflexivity. Qed.

Lemma forEachChunk_returns chunks : forall pre rows s,
  diffArray = pre ++ chunks -> Forall exclusive chunks ->
  ignoreSound diffArray s ->
  exists rows' s', forEachChunk' chunks (length pre) rows s = Ok rows' s'.
Proof.
  induction chunks as [|c rest IH]; intros pre rows s Hpre Hex Hs; simpl.
  - by exists rows, s.
  - apply Forall_cons in Hex as [Hc Hrest].
    assert (Hd : diffArray !! length pre = Some c).
    { rewrite Hpre. by rewrite list_lookup_middle. }
    destruct (mapLines_returns (length pre) c (constructLines (value c)) 0 s
                Hs Hd Hc) as (rs & s1 & Hmap & Hs1).
    unfold bind at 1. rewrite getLineInformation_top, Hmap.
    destruct (IH (pre ++ [c]) (rows ++ omap id rs) s1) as (rows' & s' & H);
      [by rewrite <- app_assoc|done..|].
    rewrite length_app, Nat.add_comm in H. simpl in H. eauto.
Qed.

Lemma computeLineInformation_from_returns off :
  Forall exclusive diffArray ->
  exists out, computeLineInformation_from lib diffArray disableWordDiff
                lineCompareMethod showLines off = inr out.
Proof.
  intros Hex. unfold computeLineInformation_from.
  destruct (forEachChunk_returns diffArray [] [] (initialState off))
    as (rows & s' & Hrun); [done..| |].
  - intros key Hkey. simpl in Hkey. by apply not_elem_of_nil in Hkey.
  - simpl in Hrun. rewrite Hrun. eauto.
Qed.

(** *** Order of diffLines *)

Lemma registers_refl R s : registers R s [] s.
Proof.
  split; [simpl; lia|]. exists []. rewrite app_nil_r.
  repeat split; constructor.
Qed.

Lemma registers_trans R s1 r1 s2 r2 s3 :
  (forall x y, x < y -> R x y) ->
  registers R s1 r1 s2 -> registers R s2 r2 s3 ->
  registers R s1 (r1 ++ r2) s3.
Proof.
  intros Hlt (Hc1 & n1 & Hd1 & Hs1 & Hb1) (Hc2 & n2 & Hd2 & Hs2 & Hb2).
  split; [rewrite length_app; lia|].
  exists (n1 ++ n2). rewrite Hd2, Hd1, app_assoc. split; [done|]. split.
  - apply StronglySorted_app. repeat split; [|done..].
    intros x y Hx Hy. rewrite Forall_forall in Hb1, Hb2.
    apply Hlt. specialize (Hb1 x Hx). specialize (Hb2 y Hy). lia.
  - apply Forall_app. split.
    + eapply Forall_impl; [done|]. simpl. lia.
    + eapply Forall_impl; [done|]. simpl. lia.
Qed.

Lemma rowStep_registers_le d a r line i s o s' :
  rowStep' d a r line i s = Ok o s' ->
  registers Z.le s (option_list o) s'.
Proof.
  intros H. open_step_core H; try discriminate; injection H as <- <-.
  all: split; [simpl; lia|]; simpl; rewrite <- ?app_assoc; simpl.
  all: first [ exists []; split; [by rewrite app_nil_r|]
             | eexists; split; [reflexivity|] ].
  all: split; repeat constructor; lia.
Qed.


Lemma run_registers R off out :
  (forall x y, x < y -> R x y) ->
  (forall d a r line i s o s',
      rowStep' d a r line i s = Ok o s' ->
      registers R s (option_list o) s') ->
  computeLineInformation_from lib diffArray disableWordDiff
                              lineCompareMethod showLines off = inr out ->
  StronglySorted R (cl_diffLines out)
  /\ Forall (fun d => 0 <= d < Z.of_nat (length (lineInformation out)))
            (cl_diffLines out).
Proof.
  intros Hlt Hstep Hrun.
  destruct (run_lift lib diffArray disableWordDiff lineCompareMethod
              showLines (registers R) (registers_refl R)
              (fun s1 r1 s2 r2 s3 => registers_trans R s1 r1 s2 r2 s3 Hlt)
              Hstep off out Hrun)
    as (s' & (Hc & new & Hd & Hs & Hb) & ->).
  simpl in *. rewrite Hd. split; [done|].
  eapply Forall_impl; [done|]. simpl. lia.
Qed.
End WholeRun.

(** ** The bound on the nesting is never met *)

Section Depth.
Context (lib : DiffLibrary) (diffArray : list Change)
        (disableWordDiff : bool) (lineCompareMethod : CompareMethod)
        (showLines : list string).

Notation rowStep' :=
  (rowStep lib diffArray disableWordDiff lineCompareMethod showLines).
Notation lineStep' :=
  (lineStep lib diffArray disableWordDiff lineCompareMethod showLines).
Notation mapLines' :=
  (mapLines lib diffArray disableWordDiff lineCompareMethod showLines).
Notation getLineInformation' :=
  (getLineInformation lib diffArray disableWordDiff lineCompareMethod
                      showLines).
Notation forEachChunk' :=
  (forEachChunk lib diffArray disableWordDiff lineCompareMethod showLines).

(** One level below is as good as any number of levels below. *)
Lemma lineStep_depth k d a r e line i s :
  lineStep' (getLineInformation' (S k)) d a r e line i s
  = lineStep' (getLineInformation' 1) d a r e line i s.
Proof.
  unfold lineStep, removedLine, bind, gets, modify, when, ret, throw.
  simpl.
  repeat first
    [ reflexivity
    | rewrite !getLineInformation_nested
        by (first [ eapply constructLines_noLF; eassumption
                  | by apply negb_false_iff ])
    | match goal with
      | |- context [match ?x with _ => _ end] => destruct_inner x; simpl
      end ].
Qed.

Lemma mapLines_depth k d a r e ls : forall i s,
  mapLines' (getLineInformation' (S k)) d a r e ls i s
  = mapLines' (getLineInformation' 1) d a r e ls i s.
Proof.
  induction ls as [|line rest IH]; intros i s; simpl; [done|].
  unfold bind at 1 3. rewrite lineStep_depth.
  destruct (lineStep' _ d a r e line i s) as [o s1|]; [|done].
  unfold bind at 1 2. by rewrite IH.
Qed.

Lemma getLineInformation_depth k v d a r e s :
  getLineInformation' (S (S k)) v d a r e s
  = getLineInformation' 2 v d a r e s.
Proof.
  change (getLineInformation' (S (S k)) v d a r e s)
    with (getLineInformationBody lib diffArray disableWordDiff
            lineCompareMethod showLines (getLineInformation' (S k))
            v d a r e s).
  change (getLineInformation' 2 v d a r e s)
    with (getLineInformationBody lib diffArray disableWordDiff
            lineCompareMethod showLines (getLineInformation' 1)
            v d a r e s).
  unfold getLineInformationBody, bind. by rewrite mapLines_depth.
Qed.

Lemma rowStep_throws d a r line i s e :
  rowStep' d a r line i s = Throw e -> e = TypeError.
Proof.
  intros H. open_step_core H; try discriminate; by injection H as <-.
Qed.

Lemma mapLines_throws d a r ls : forall i s e,
  mapLines' (getLineInformation' 1) d a r false ls i s = Throw e ->
  e = TypeError.
Proof.
  induction ls as [|line rest IH]; intros i s e H; simpl in H; [done|].
  unfold bind in H at 1.
  destruct (lineStep' _ d a r false line i s) as [o s1|e1] eqn:Hstep.
  - unfold bind in H at 1.
    destruct (mapLines' _ d a r false rest (S i) s1) as [rs s2|e2] eqn:Hrest;
      [done|]. injection H as <-. by eapply IH.
  - injection H as <-. by eapply rowStep_throws.
Qed.

Lemma forEachChunk_throws chunks : forall i rows s e,
  forEachChunk' chunks i rows s = Throw e -> e = TypeError.
Proof.
  induction chunks as [|c rest IH]; intros i rows s e H; simpl in H; [done|].
  unfold bind in H. rewrite getLineInformation_top in H.
  destruct (mapLines' _ i (added c) (removed c) false
              (constructLines (value c)) 0 s) as [rs s1|e1] eqn:Hmap.
  - by eapply IH.
  - injection H as <-. by eapply mapLines_throws.
Qed.
End Depth.

(** ** A removed line merged with an added line *)

Ltac bool_hyps :=
  repeat match goal with
  | H : _ || _ = true |- _ => apply orb_true_iff in H; destruct H as [H|H]
  | H : _ && _ = true |- _ => apply andb_true_iff in H; destruct H as [? ?]
  | H : _ || _ = false |- _ => apply orb_false_iff in H; destruct H as [? ?]
  | H : negb _ = true |- _ => apply negb_true_iff in H
  | H : negb _ = false |- _ => apply negb_false_iff in H
  | H : includes _ _ = true |- _ => apply bool_decide_eq_true in H
  | H : includes _ _ = false |- _ => apply bool_decide_eq_false in H
  | H : (_ =? _)%string = true |- _ => apply String.eqb_eq in H
  | H : (_ =? _)%string = false |- _ => apply String.eqb_neq in H
  end.

Section Pair.
Context (lib : DiffLibrary) (diffArray : list Change)
        (disableWordDiff : bool) (lineCompareMethod : CompareMethod)
        (showLines : list string).

End Pair.

(** * The properties the specification states *)

(** C1. In every output of [computeLineInformation] whose counters stay
    safe integers (from [linesOffset] to [linesOffset] plus the number of
    rows), the left line numbers, read over the rows that carry one, are
    [linesOffset + 1], [linesOffset + 2], ... without gap or repetition, and
    so are the right line numbers; all of them are safe integers. *)
Theorem line_numbers_consecutive lib oldString newString disableWordDiff
    lineCompareMethod linesOffset showLines out :
  computeLineInformation lib oldString newString disableWordDiff
                         lineCompareMethod linesOffset showLines = inr out ->
  safeCounters linesOffset (lineInformation out) ->
  (leftNumbers (lineInformation out)
     = seqZ (linesOffset + 1)
            (Z.of_nat (length (leftNumbers (lineInformation out))))
   /\ rightNumbers (lineInformation out)
     = seqZ (linesOffset + 1)
            (Z.of_nat (length (rightNumbers (lineInformation out)))))
  /\ Forall safeInteger (leftNumbers (lineInformation out)
                         ++ rightNumbers (lineInformation out)).
Proof.
  unfold computeLineInformation. intros Hrun Hsafe.
  destruct (run_numbers _ _ _ _ _ _ _ Hrun) as [Hl Hr].
  split; [done|]. rewrite Hl, Hr.
  apply Forall_app. split.
  - apply (safe_numbers _ (lineInformation out)); [done|].
    apply omap_length_le.
  - apply (safe_numbers _ (lineInformation out)); [done|].
    apply omap_length_le.
Qed.

Lemma line_numbers_consecutive_witness :
  (leftNumbers (rowsOf (computeLineInformation standIn
      (InString ("a" +:+ nl +:+ "b" +:+ nl +:+ "c"))
      (InString ("a" +:+ nl +:+ "x" +:+ nl +:+ "y" +:+ nl +:+ "z" +:+ nl))
      false (Preset CHARS) 3 ["R-5"])) = seqZ (3 + 1) (Z.of_nat 3)
   /\ rightNumbers (rowsOf (computeLineInformation standIn
      (InString ("a" +:+ nl +:+ "b" +:+ nl +:+ "c"))
      (InString ("a" +:+ nl +:+ "x" +:+ nl +:+ "y" +:+ nl +:+ "z" +:+ nl))
      false (Preset CHARS) 3 ["R-5"])) = seqZ (3 + 1) (Z.of_nat 4))
  /\ Forall safeInteger [4; 5; 6; 4; 5; 6; 7].
Proof.
  destruct (computeLineInformation standIn
     (InString ("a" +:+ nl +:+ "b" +:+ nl +:+ "c"))
     (InString ("a" +:+ nl +:+ "x" +:+ nl +:+ "y" +:+ nl +:+ "z" +:+ nl))
     false (Preset CHARS) 3 ["R-5"]) as [e|out] eqn:Hrun;
    [by vm_compute in Hrun|].
  assert (safeCounters 3 (lineInformation out)) as Hsafe.
  { vm_compute in Hrun. injection Hrun as <-.
    repeat split; vm_compute; discriminate. }
  pose proof (line_numbers_consecutive _ _ _ _ _ _ _ _ Hrun Hsafe) as H.
  vm_compute in Hrun. injection Hrun as <-. exact H.
Defined.

(** C2. For old [test\noldLine] and new [test\nnewLine] with the default
    options, whatever the intra-line differ, the output has exactly two rows:
    row 0 is unchanged on both sides (line 1, value [test]); row 1 is a
    modification, REMOVED on the left and ADDED on the right, line 2 on both
    sides; and [diffLines] is [[1]]. The chunk list is the one the package
    returns for these texts. *)
Theorem modification_example lib :
  lib_diffLines lib text_old text_new = chunks_modification ->
  exists l r,
    computeLineInformation lib (InString text_old) (InString text_new)
                           false (Preset CHARS) 0 []
    = inr (mkComputedLineInformation
             [row_test; mkLineInformation (Some l) (Some r)] [1])
    /\ di_type l = Some REMOVED /\ di_type r = Some ADDED
    /\ di_lineNumber l = Some 2 /\ di_lineNumber r = Some 2.
Proof.
  intros Hchunks. unfold computeLineInformation, diffArrayOf.
  rewrite Hchunks.
  exists (mkDiffInformation
            (Some (VList (cd_left (computeDiff lib "oldLine" "newLine"
                                               (Preset CHARS)))))
            (Some 2) (Some REMOVED)),
         (mkDiffInformation
            (Some (VList (cd_right (computeDiff lib "oldLine" "newLine"
                                                (Preset CHARS)))))
            (Some 2) (Some ADDED)).
  split; [|done]. vm_compute. reflexivity.
Qed.

Lemma modification_example_witness :
  exists l r,
    computeLineInformation standIn (InString text_old) (InString text_new)
                           false (Preset CHARS) 0 []
    = inr (mkComputedLineInformation
             [row_test; mkLineInformation (Some l) (Some r)] [1])
    /\ di_type l = Some REMOVED /\ di_type r = Some ADDED
    /\ di_lineNumber l = Some 2 /\ di_lineNumber r = Some 2.
Proof. apply (modification_example standIn). vm_compute. reflexivity. Defined.

(** C3 (the code departs from the claim). With the token [L-2] in
    [showLines], the modification row of the example is pushed twice: once as
    a change (lines 248-252) and once more by the forced-visibility test of
    lines 265-271, whose guard [!diffLines.includes(counter)] only covers the
    [R-] alternative. *)
Theorem diffLines_duplicate_with_left_token :
  diffLinesOf (computeLineInformation standIn (InString text_old)
                 (InString text_new) false (Preset CHARS) 0 ["L-2"])
  = [1; 1].
Proof. vm_compute. reflexivity. Qed.

(** C4, as amended. [render] refuses its inputs exactly when [compareMethod]
    is one of the preset strings other than JSON and one of the two values is
    not a string; nothing is reconciled then, and otherwise [render] hands the
    inputs on. [computeLineInformation] itself never refuses a pair of
    inputs: unless both are strings it reconciles the chunks of
    [diff.diffJson]. *)
Theorem render_rejects_non_strings lib oldValue newValue disableWordDiff
    compareMethod linesOffset alwaysShowLines :
  (render_lines lib oldValue newValue disableWordDiff compareMethod
                linesOffset alwaysShowLines = inl StringsExpected
   <-> exists m, compareMethod = Preset m /\ m <> JSON
                 /\ (isString oldValue = false \/ isString newValue = false))
  /\ (render_lines lib oldValue newValue disableWordDiff compareMethod
                   linesOffset alwaysShowLines = inl StringsExpected
      \/ render_lines lib oldValue newValue disableWordDiff compareMethod
                      linesOffset alwaysShowLines
         = inr (computeLineInformation lib oldValue newValue disableWordDiff
                  compareMethod linesOffset alwaysShowLines))
  /\ (isString oldValue && isString newValue = false ->
      computeLineInformation lib oldValue newValue disableWordDiff
                             compareMethod linesOffset alwaysShowLines
      = computeLineInformation_from lib (lib_diffJson lib oldValue newValue)
          disableWordDiff compareMethod alwaysShowLines linesOffset).
Proof.
  unfold render_lines, render_guard, computeLineInformation. repeat split.
  - destruct compareMethod as [m|f]; [|done].
    destruct (decide (m = JSON)) as [->|Hm]; [done|].
    rewrite bool_decide_eq_false_2 by done. simpl.
    destruct oldValue, newValue; simpl; try done; intros _; exists m; eauto.
  - intros (m & -> & Hm & Hs). rewrite bool_decide_eq_false_2 by done. simpl.
    by destruct Hs as [-> | ->]; simpl; rewrite ?orb_true_r.
  - destruct compareMethod as [m|f]; [|by right].
    destruct (negb (bool_decide (m = JSON))); [|by right].
    destruct (negb (isString oldValue) || negb (isString newValue));
      [by left|by right].
  - by destruct oldValue, newValue.
Qed.

Lemma render_rejects_non_strings_witness :
  render_lines standIn (InString "a") (InObject []) false (Preset CHARS) 0 []
  = inl StringsExpected.
Proof.
  apply (proj1 (render_rejects_non_strings standIn (InString "a")
                  (InObject []) false (Preset CHARS) 0 [])).
  exists CHARS. repeat split; [done|by right].
Defined.

(** C4, the claim as stated fails: a string against an object under the JSON
    compare method passes the guard and yields a row and a diff line. *)
Lemma mixed_inputs_accepted :
  render_lines standIn (InString "a") (InObject []) true (Preset JSON) 0 []
  = inr (inr (mkComputedLineInformation
                [mkLineInformation
                   (Some (mkDiffInformation (Some (VString "a")) (Some 1)
                                            (Some REMOVED)))
                   (Some (mkDiffInformation (Some (VString "{}")) (Some 1)
                                            (Some ADDED)))]
                [0])).
Proof. vm_compute. reflexivity. Qed.

(** C5 (the code departs from the claim). The removed line is empty, the
    added line is a single space: the raw values differ, yet the comparison of
    line 218 sees [" "] on both sides, since line 188 stored [line || " "];
    the row comes out DEFAULT on both sides and is not a diff line. *)
Theorem empty_line_against_space_downgraded :
  computeLineInformation standIn (InString nl) (InString (" " +:+ nl))
                         false (Preset CHARS) 0 []
  = inr (mkComputedLineInformation
           [mkLineInformation (Some (unchangedSide 1 " "))
                              (Some (unchangedSide 1 " "))]
           []).
Proof. vm_compute. reflexivity. Qed.

(** C6. Every block of [computeHiddenBlocks] has [startLine <= endLine]; the
    blocks are in ascending order of [startLine] and a block ends before the
    next one starts; and no row index within a block lies within
    [extraLines] of an element of [diffLines]. *)
Theorem hidden_blocks_sorted_disjoint_unprotected rows diffLines extraLines :
  (forall b, b ∈ blocks (computeHiddenBlocks rows diffLines extraLines) ->
             startLine b <= endLine b)
  /\ (forall i j b1 b2, (i < j)%nat ->
        blocks (computeHiddenBlocks rows diffLines extraLines) !! i = Some b1 ->
        blocks (computeHiddenBlocks rows diffLines extraLines) !! j = Some b2 ->
        startLine b1 < startLine b2 /\ endLine b1 < startLine b2)
  /\ (forall b x d,
        b ∈ blocks (computeHiddenBlocks rows diffLines extraLines) ->
        startLine b <= x <= endLine b -> d ∈ diffLines ->
        ~ (d - extraLines <= x <= d + extraLines)).
Proof.
  unfold computeHiddenBlocks. simpl.
  destruct (forEachLine_inv diffLines extraLines rows 0
              (mkBlockState 0 None ∅ [])) as (j & Hok & Hsorted & _).
  { repeat split; simpl; constructor. }
  rewrite Forall_forall in Hok. repeat split.
  - intros b Hb. by destruct (Hok b Hb).
  - assert (endLine b1 < startLine b2)
      by (eapply (StronglySorted_lookup apart); eauto).
    apply list_elem_of_lookup_2 in H0. destruct (Hok b1 H0). lia.
  - eapply (StronglySorted_lookup apart); eauto.
  - intros b x d Hb Hx Hd Hnear.
    destruct (Hok b Hb) as (_ & _ & Hfree). apply (Hfree x Hx). by exists d.
Qed.

(** C7. Every row of an output of [computeLineInformation] holds a value on
    its left side or on its right side. *)
Theorem rows_populated lib oldString newString disableWordDiff
    lineCompareMethod linesOffset showLines out :
  computeLineInformation lib oldString newString disableWordDiff
                         lineCompareMethod linesOffset showLines = inr out ->
  forall row, row ∈ lineInformation out -> populated row.
Proof.
  unfold computeLineInformation. intros Hrun%run_populated.
  by apply Forall_forall.
Qed.

Lemma rows_populated_witness :
  populated (mkLineInformation
               (Some (mkDiffInformation (Some (VString "gone")) (Some 1)
                                        (Some REMOVED)))
               (Some emptyInfo)).
Proof.
  apply (rows_populated standIn (InString "gone") (InString "") true
           (Preset CHARS) 0 []
           (mkComputedLineInformation
              [mkLineInformation
                 (Some (mkDiffInformation (Some (VString "gone")) (Some 1)
                                          (Some REMOVED)))
                 (Some emptyInfo)]
              [0])).
  - vm_compute. reflexivity.
  - apply list_elem_of_here.
Defined.




(** C9. With no [alwaysShowLines], the output for [linesOffset = 5] is the
    output for [linesOffset = 0] with 5 added to every left and right line
    number: same rows otherwise, same [diffLines], and the same failure if
    there is one. *)
Theorem offset_five_shifts_line_numbers lib oldString newString
    disableWordDiff lineCompareMethod :
  computeLineInformation lib oldString newString disableWordDiff
                         lineCompareMethod 5 []
  = shiftOutput 5 (computeLineInformation lib oldString newString
                     disableWordDiff lineCompareMethod 0 []).
Proof.
  unfold computeLineInformation.
  apply (computeLineInformation_from_shift _ _ _ _ 5 0).
Qed.

(** C10. When no chunk of the compare function is flagged both added and
    removed, [computeDiff] returns on the left the chunks that are not added
    and on the right the chunks that are not removed, each side in the order
    of the chunk list, every fragment tagged REMOVED, ADDED or DEFAULT after
    its chunk; so the texts of the left fragments concatenate to the removed
    and unchanged text, those of the right fragments to the added and
    unchanged text. *)
Theorem computeDiff_sides lib oldValue newValue compareMethod :
  Forall exclusive (compareFunc lib compareMethod oldValue newValue) ->
  cd_left (computeDiff lib oldValue newValue compareMethod)
    = tagged <$> filter (fun c => added c = false)
                        (compareFunc lib compareMethod oldValue newValue)
  /\ cd_right (computeDiff lib oldValue newValue compareMethod)
    = tagged <$> filter (fun c => removed c = false)
                        (compareFunc lib compareMethod oldValue newValue)
  /\ joinTokens (fragmentText <$>
                   cd_left (computeDiff lib oldValue newValue compareMethod))
    = joinTokens (value <$> filter (fun c => added c = false)
                     (compareFunc lib compareMethod oldValue newValue))
  /\ joinTokens (fragmentText <$>
                   cd_right (computeDiff lib oldValue newValue compareMethod))
    = joinTokens (value <$> filter (fun c => removed c = false)
                     (compareFunc lib compareMethod oldValue newValue)).
Proof.
  intros Hex. unfold computeDiff, computeDiffOf.
  destruct (computeDiffOf_sides _ (mkComputedDiffInformation [] []) Hex)
    as [Hl Hr].
  simpl in Hl, Hr. rewrite Hl, Hr, !fragmentText_tagged. done.
Qed.

Lemma computeDiff_sides_witness :
  cd_left (computeDiff standIn "old" "new" (Custom threeChunks))
    = tagged <$> filter (fun c => added c = false) (threeChunks "old" "new")
  /\ cd_right (computeDiff standIn "old" "new" (Custom threeChunks))
    = tagged <$> filter (fun c => removed c = false) (threeChunks "old" "new")
  /\ joinTokens (fragmentText <$>
                   cd_left (computeDiff standIn "old" "new"
                                        (Custom threeChunks)))
    = joinTokens (value <$> filter (fun c => added c = false)
                                   (threeChunks "old" "new"))
  /\ joinTokens (fragmentText <$>
                   cd_right (computeDiff standIn "old" "new"
                                         (Custom threeChunks)))
    = joinTokens (value <$> filter (fun c => removed c = false)
                                   (threeChunks "old" "new")).
Proof.
  apply (computeDiff_sides standIn "old" "new" (Custom threeChunks)).
  repeat constructor; unfold exclusive; simpl; intros [? ?]; discriminate.
Defined.

(** * Further properties of the code *)

(** X1. When no chunk the package returns is flagged both added and removed,
    [computeLineInformation] returns rows and diff lines: the [TypeError] of
    line 205 and the two stops of the embedding are out of reach. *)
Theorem computeLineInformation_returns lib oldString newString
    disableWordDiff lineCompareMethod linesOffset showLines :
  Forall exclusive (diffArrayOf lib oldString newString) ->
  exists out,
    computeLineInformation lib oldString newString disableWordDiff
                           lineCompareMethod linesOffset showLines = inr out.
Proof. apply computeLineInformation_from_returns. Qed.

Lemma computeLineInformation_returns_witness :
  exists out,
    computeLineInformation standIn (InString text_old) (InString text_new)
                           false (Preset CHARS) 0 ["L-2"] = inr out.
Proof.
  apply (computeLineInformation_returns standIn (InString text_old)
           (InString text_new) false (Preset CHARS) 0 ["L-2"]).
  repeat constructor; unfold exclusive; simpl; intros [? ?]; discriminate.
Defined.

(** X2. The elements of [diffLines] are indices of rows of the output and
    never decrease along the sequence. *)
Theorem diffLines_ascending lib oldString newString disableWordDiff
    lineCompareMethod linesOffset showLines out :
  computeLineInformation lib oldString newString disableWordDiff
                         lineCompareMethod linesOffset showLines = inr out ->
  StronglySorted Z.le (cl_diffLines out)
  /\ Forall (fun d => 0 <= d < Z.of_nat (length (lineInformation out)))
            (cl_diffLines out).
Proof.
  unfold computeLineInformation. apply run_registers; [lia|].
  apply rowStep_registers_le.
Qed.

Lemma diffLines_ascending_witness :
  StronglySorted Z.le [1; 1]
  /\ Forall (fun d => 0 <= d < Z.of_nat (length [row_test; row_test]))
            [1; 1].
Proof.
  apply (diffLines_ascending standIn (InString text_old) (InString text_new)
           true (Preset CHARS) 0 ["L-2"]
           (mkComputedLineInformation
              [row_test;
               mkLineInformation
                 (Some (mkDiffInformation (Some (VString "oldLine")) (Some 2)
                                          (Some REMOVED)))
                 (Some (mkDiffInformation (Some (VString "newLine")) (Some 2)
                                          (Some ADDED)))]
              [1; 1])).
  vm_compute. reflexivity.
Defined.






(** X5. [computeLineInformation] fails in one way only, the [TypeError] of
    line 205; the stops the embedding adds for the nesting bound and for a
    right value that is not a string are never reached. *)
Theorem computeLineInformation_fails_with_TypeError lib oldString newString
    disableWordDiff lineCompareMethod linesOffset showLines e :
  computeLineInformation lib oldString newString disableWordDiff
                         lineCompareMethod linesOffset showLines = inl e ->
  e = TypeError.
Proof.
  unfold computeLineInformation, computeLineInformation_from.
  destruct (forEachChunk _ _ _ _ _ _ 0 [] (initialState linesOffset))
    as [rows s|e'] eqn:Hrun; [done|].
  intros [= <-]. by eapply forEachChunk_throws.
Qed.

Lemma computeLineInformation_fails_with_TypeError_witness :
  computeLineInformation doubleFlagged (InString "a") (InString "b") true
                         (Preset CHARS) 0 [] = inl TypeError
  /\ TypeError = TypeError.
Proof.
  split; [vm_compute; reflexivity|].
  apply (computeLineInformation_fails_with_TypeError doubleFlagged
           (InString "a") (InString "b") true (Preset CHARS) 0 [] TypeError).
  vm_compute. reflexivity.
Defined.

Lemma computeHiddenBlocks_invariants rows diffLines extraLines :
  let st := forEachLine diffLines extraLines rows 0
                        (mkBlockState 0 None ∅ []) in
  let n := Z.of_nat (length rows) in
  scanInv diffLines extraLines n st /\ shapeInv st
  /\ runsInv diffLines extraLines n st /\ mapInv st.
Proof.
  apply (forEachLine_full diffLines extraLines rows 0
           (mkBlockState 0 None ∅ [])).
  - repeat split; simpl; constructor.
  - split; [done|]. intros k b Hb. simpl in Hb. by destruct k.
  - repeat split; simpl; try done.
    + by apply not_elem_of_nil in H.
    + by apply not_elem_of_nil in H.
    + by apply not_elem_of_nil in H.
    + intros x Hx. lia.
    + by left.
  - intros x k. simpl. rewrite lookup_empty. split; [done|].
    intros (p & b & _ & Hb & _). by destruct p.
Qed.

(** X6. The blocks are exactly the maximal runs of unprotected rows: a row
    of the input lies in a block exactly when it is not protected, and every
    block lies within the rows, starts at row 0 or right after a protected
    row, and ends at the last row or right before a protected row. *)
Theorem hidden_blocks_maximal_runs rows diffLines extraLines :
  (forall x, 0 <= x < Z.of_nat (length rows) ->
     (~ protected diffLines extraLines x
      <-> exists b,
            b ∈ blocks (computeHiddenBlocks rows diffLines extraLines)
            /\ startLine b <= x <= endLine b))
  /\ (forall b,
        b ∈ blocks (computeHiddenBlocks rows diffLines extraLines) ->
        0 <= startLine b /\ endLine b < Z.of_nat (length rows)
        /\ (startLine b = 0
            \/ protected diffLines extraLines (startLine b - 1))
        /\ (endLine b = Z.of_nat (length rows) - 1
            \/ protected diffLines extraLines (endLine b + 1))).
Proof.
  destruct (computeHiddenBlocks_invariants rows diffLines extraLines)
    as ((Hok & _ & _) & _ & (_ & Hmax & Hcover & _) & _).
  unfold computeHiddenBlocks. simpl. rewrite Forall_forall in Hok. split.
  - intros x Hx. split; [by apply Hcover|].
    intros (b & Hb & Hr). by destruct (Hok b Hb) as (_ & _ & Hfree); apply Hfree.
  - intros b Hb. destruct (Hmax b Hb) as (? & ? & Hend).
    destruct (Hok b Hb) as (_ & ? & _).
    repeat split; [done..|]. destruct Hend as [?|[? _]]; [by right|by left].
Qed.

(** X7. Blocks are numbered by their position in the list, and [lines] is
    the number of rows from [startLine] to [endLine]. *)
Theorem hidden_blocks_numbering rows diffLines extraLines k b :
  blocks (computeHiddenBlocks rows diffLines extraLines) !! k = Some b ->
  index b = Z.of_nat k /\ lines b = endLine b - startLine b + 1.
Proof.
  destruct (computeHiddenBlocks_invariants rows diffLines extraLines)
    as (_ & (_ & Hshape) & _). apply Hshape.
Qed.

Lemma hidden_blocks_numbering_witness :
  index (mkBlock 1 8 11 4) = Z.of_nat 1
  /\ lines (mkBlock 1 8 11 4) = endLine (mkBlock 1 8 11 4)
                                - startLine (mkBlock 1 8 11 4) + 1.
Proof.
  apply (hidden_blocks_numbering (replicate 12 row_test) [5] 2 1).
  vm_compute. reflexivity.
Defined.

(** X8. [lineBlocks] maps a row index to a block number exactly when the
    block at that position holds the row. *)
Theorem lineBlocks_owner rows diffLines extraLines x k :
  lineBlocks (computeHiddenBlocks rows diffLines extraLines) !! x = Some k
  <-> exists (p : nat) b,
        k = Z.of_nat p
        /\ blocks (computeHiddenBlocks rows diffLines extraLines) !! p = Some b
        /\ startLine b <= x <= endLine b.
Proof.
  destruct (computeHiddenBlocks_invariants rows diffLines extraLines)
    as (_ & _ & _ & Hmap). apply Hmap.
Qed.

(** X9. Whatever chunks the compare function returns, [computeDiff] puts on
    the left, in order, the chunks that are removed or not added, and on the
    right those that are added or not removed, each tagged REMOVED when it is
    removed, else ADDED when it is added, else DEFAULT. So a chunk flagged
    both added and removed lands on both sides, and both sides hold it
    tagged REMOVED: the two arrays share the one object, whose type is
    assigned last in the [removed] test. *)
Theorem computeDiff_double_flag lib oldValue newValue compareMethod :
  cd_left (computeDiff lib oldValue newValue compareMethod)
    = tagged <$> filter (fun c => removed c = true \/ added c = false)
                        (compareFunc lib compareMethod oldValue newValue)
  /\ cd_right (computeDiff lib oldValue newValue compareMethod)
    = tagged <$> filter (fun c => added c = true \/ removed c = false)
                        (compareFunc lib compareMethod oldValue newValue)
  /\ forall c,
       c ∈ compareFunc lib compareMethod oldValue newValue ->
       added c = true -> removed c = true ->
       mkDiffInformation (Some (VString (value c))) None (Some REMOVED)
         ∈ cd_left (computeDiff lib oldValue newValue compareMethod)
       /\ mkDiffInformation (Some (VString (value c))) None (Some REMOVED)
            ∈ cd_right (computeDiff lib oldValue newValue compareMethod).
Proof.
  unfold computeDiff, computeDiffOf.
  destruct (computeDiffOf_all
              (compareFunc lib compareMethod oldValue newValue)
              (mkComputedDiffInformation [] [])) as [Hl Hr].
  simpl in Hl, Hr. rewrite Hl, Hr. split; [done|]. split; [done|].
  intros c Hc Ha Hrem.
  replace (mkDiffInformation (Some (VString (value c))) None (Some REMOVED))
    with (tagged c) by (unfold tagged; by rewrite Hrem).
  split; apply list_elem_of_fmap_2, list_elem_of_filter; auto.
Qed.

(** * The tests of the repository

    [test/compute-lines.test.ts], run on the embedding with the stand-in
    library; the tests that expect the fragments of [diffChars] or
    [diffWords] are left out. *)

(** "It should not avoid trailing spaces" *)
Example test_trailing_spaces :
  computeLineInformation standIn
    (InString ("test" +:+ nl +:+ nl +:+ nl +:+ "    "))
    (InString ("test" +:+ nl +:+ nl +:+ "    "))
    false (Preset CHARS) 0 []
  = inr (mkComputedLineInformation
           [ both (side DEFAULT 1 "test") (side DEFAULT 1 "test");
             both (side DEFAULT 2 "") (side DEFAULT 2 "");
             both (side REMOVED 3 " ") emptyInfo;
             both (side DEFAULT 4 "    ") (side DEFAULT 3 "    ") ]
           [2]).
Proof. vm_compute. reflexivity. Qed.

(** "Should identify line addition" *)
Example test_line_addition :
  computeLineInformation standIn
    (InString "test") (InString ("test" +:+ nl +:+ "    newLine"))
    true (Preset CHARS) 0 []
  = inr (mkComputedLineInformation
           [ both (side DEFAULT 1 "test") (side DEFAULT 1 "test");
             both emptyInfo (side ADDED 2 "    newLine") ]
           [1]).
Proof. vm_compute. reflexivity. Qed.

(** "Should identify line deletion" *)
Example test_line_deletion :
  computeLineInformation standIn
    (InString ("test" +:+ nl +:+ "    oldLine")) (InString "test")
    false (Preset CHARS) 0 []
  = inr (mkComputedLineInformation
           [ both (side DEFAULT 1 "test") (side DEFAULT 1 "test");
             both (side REMOVED 2 "    oldLine") emptyInfo ]
           [1]).
Proof. vm_compute. reflexivity. Qed.

(** "Should identify line modification" *)
Example test_line_modification :
  computeLineInformation standIn
    (InString ("test" +:+ nl +:+ "    oldLine"))
    (InString ("test" +:+ nl +:+ "    newLine"))
    true (Preset CHARS) 0 []
  = inr (mkComputedLineInformation
           [ both (side DEFAULT 1 "test") (side DEFAULT 1 "test");
             both (side REMOVED 2 "    oldLine") (side ADDED 2 "    newLine") ]
           [1]).
Proof. vm_compute. reflexivity. Qed.

(** "Should not call jsDiff method and not diff text when disableWordDiff is
    true" *)
Example test_word_diff_disabled :
  computeLineInformation standIn
    (InString "Hello World")
    (InString ("My Updated Name" +:+ nl +:+ "Also this info"))
    true (Preset CHARS) 0 []
  = inr (mkComputedLineInformation
           [ both (side REMOVED 1 "Hello World") (side ADDED 1 "My Updated Name");
             both emptyInfo (side ADDED 2 "Also this info") ]
           [0; 1]).
Proof. vm_compute. reflexivity. Qed.

(** "Should start line counting from offset" *)
Example test_offset :
  computeLineInformation standIn
    (InString "Hello World")
    (InString ("My Updated Name" +:+ nl +:+ "Also this info"))
    true (Preset WORDS) 5 []
  = inr (mkComputedLineInformation
           [ both (side REMOVED 6 "Hello World") (side ADDED 6 "My Updated Name");
             both emptyInfo (side ADDED 7 "Also this info") ]
           [0; 1]).
Proof. vm_compute. reflexivity. Qed.

Lemma orSpace_nonempty line : orSpace line <> EmptyString.
Proof. unfold orSpace, truthy. by destruct line. Qed.

Lemma truthy_nonempty line : truthy line = true -> line <> EmptyString.
Proof. unfold truthy. by destruct line. Qed.

Section Shapes.
Context (lib : DiffLibrary) (diffArray : list Change)
        (disableWordDiff : bool) (lineCompareMethod : CompareMethod)
        (showLines : list string).

Lemma rowStep_shape d a r line i s o s' :
  rowStep lib diffArray disableWordDiff lineCompareMethod showLines
          d a r line i s = Ok o s' ->
  Forall (rowShape lib disableWordDiff lineCompareMethod) (option_list o).
Proof.
  intros H. open_step H.
  all: simpl; first [apply Forall_nil_2 | apply Forall_singleton].
  all: unfold strictEqString in *.
  all: repeat match goal with
              | Ht : negb (truthy _) = false |- _ =>
                  apply negb_false_iff, truthy_nonempty in Ht
              | He : (_ =? _)%string = true |- _ =>
                  apply String.eqb_eq in He; rewrite ?He
              | He : (_ =? _)%string = false |- _ =>
                  apply String.eqb_neq in He
              end.
  all: first [ by apply shape_unchanged
             | by apply shape_addition
             | by apply shape_removal, orSpace_nonempty
             | by apply shape_modification_lines;
                 auto using orSpace_nonempty
             | by apply shape_modification_words ].
Qed.
End Shapes.

Section Marks.
Context (lib : DiffLibrary) (diffArray : list Change)
        (disableWordDiff : bool) (lineCompareMethod : CompareMethod)
        (showLines : list string).



End Marks.

Lemma changedFrom_app i r1 r2 :
  changedFrom i (r1 ++ r2)
  = changedFrom i r1 ++ changedFrom (i + Z.of_nat (length r1)) r2.
Proof.
  revert i. induction r1 as [|row rest IH]; intros i; simpl.
  - by rewrite Z.add_0_r.
  - rewrite IH, <- app_assoc. do 3 f_equal. lia.
Qed.

Lemma changedFrom_bound i rows :
  Forall (fun d => i <= d < i + Z.of_nat (length rows)) (changedFrom i rows).
Proof.
  revert i. induction rows as [|row rest IH]; intros i; simpl; [constructor|].
  apply Forall_app. split.
  - destruct (decide (changed row)); repeat constructor; lia.
  - eapply Forall_impl; [apply IH|]. simpl. lia.
Qed.

Section MarksChanged.
Context (lib : DiffLibrary) (diffArray : list Change)
        (disableWordDiff : bool) (lineCompareMethod : CompareMethod).

Lemma marksChanged_refl s : marksChanged s [] s.
Proof. split; [simpl; lia|]. intros _. simpl. by rewrite app_nil_r. Qed.

Lemma marksChanged_trans s1 r1 s2 r2 s3 :
  marksChanged s1 r1 s2 -> marksChanged s2 r2 s3 ->
  marksChanged s1 (r1 ++ r2) s3.
Proof.
  intros [Hc1 Hd1] [Hc2 Hd2]. split; [rewrite length_app; lia|].
  intros Hlt. specialize (Hd1 Hlt).
  rewrite changedFrom_app, app_assoc, <- Hd1, <- Hc1. apply Hd2.
  rewrite Hd1. apply Forall_app. split.
  - eapply Forall_impl; [exact Hlt|]. simpl. lia.
  - eapply Forall_impl; [apply changedFrom_bound|]. simpl. lia.
Qed.

Lemma rowStep_marksChanged d a r line i s o s' :
  rowStep lib diffArray disableWordDiff lineCompareMethod [] d a r line i s
    = Ok o s' ->
  marksChanged s (option_list o) s'.
Proof.
  intros H. open_step H.
  all: split; [simpl; lia|]; simpl; intros Hlt.
  all: try (exfalso;
            match goal with
            | Hc : negb (includes (counter _) (diffLines _)) = false |- _ =>
                apply negb_false_iff, bool_decide_eq_true in Hc;
                rewrite Forall_forall in Hlt; specialize (Hlt _ Hc); lia
            end).
  all: repeat match goal with
              | |- context [decide (changed ?row)] =>
                  destruct (decide (changed row)) as [Hch|Hch];
                  unfold changed, leftType, rightType in Hch; simpl in Hch
              end.
  all: try done.
  all: try (by rewrite app_nil_r).
  all: try (by destruct Hch).
  all: try (exfalso; apply Hch; by eauto).
Qed.
End MarksChanged.

Lemma oldLineCount_app pre c :
  oldLineCount (pre ++ [c])
  = (oldLineCount pre
     + (if added c then 0 else length (constructLines (value c))))%nat.
Proof. induction pre as [|x pre IH]; simpl; [lia|]. rewrite IH. lia. Qed.

Lemma newLineCount_app pre c :
  newLineCount (pre ++ [c])
  = (newLineCount pre
     + (if removed c then 0 else length (constructLines (value c))))%nat.
Proof. induction pre as [|x pre IH]; simpl; [lia|]. rewrite IH. lia. Qed.

Lemma skipped_taken d n s taken :
  NoDup taken -> Forall (fun l => (l < n)%nat) taken ->
  (forall l, ignoreKey d l ∈ ignoreDiffIndexes s <-> l ∈ taken) ->
  skipped d 0 n s = length taken.
Proof.
  intros Hnd Hb Hin. unfold skipped. apply Permutation_length.
  apply NoDup_Permutation; [apply NoDup_filter, NoDup_seq|done|].
  intros l. rewrite list_elem_of_filter, elem_of_seq, Hin.
  rewrite Forall_forall in Hb. split; [by intros [? _]|].
  intros Hl. split; [done|]. specialize (Hb l Hl). lia.
Qed.

Section Conservation.
Context (lib : DiffLibrary) (diffArray : list Change)
        (disableWordDiff : bool) (lineCompareMethod : CompareMethod)
        (showLines : list string).

Notation rowStep' :=
  (rowStep lib diffArray disableWordDiff lineCompareMethod showLines).
Notation mapLines' :=
  (mapLines lib diffArray disableWordDiff lineCompareMethod showLines
     (getLineInformation lib diffArray disableWordDiff lineCompareMethod
                         showLines 1)).
Notation forEachChunk' :=
  (forEachChunk lib diffArray disableWordDiff lineCompareMethod showLines).

Lemma rowStep_counts d c line i s o s' :
  ignoreSound diffArray s -> diffArray !! d = Some c -> exclusive c ->
  rowStep' d (added c) (removed c) line i s = Ok o s' ->
  leftLineNumber s' = leftLineNumber s + (if added c then 0 else 1)
  /\ if removed c
     then (rightLineNumber s' = rightLineNumber s
           /\ ignoreDiffIndexes s' = ignoreDiffIndexes s)
          \/ (rightLineNumber s' = rightLineNumber s + 1
              /\ ignoreDiffIndexes s'
                 = ignoreDiffIndexes s ++ [ignoreKey (d + 1) i]
              /\ (i < linesAt diffArray (d + 1))%nat)
     else ignoreDiffIndexes s' = ignoreDiffIndexes s
          /\ rightLineNumber s'
             = rightLineNumber s
               + (if decide (ignoreKey d i ∈ ignoreDiffIndexes s)
                  then 0 else 1).
Proof.
  intros Hs Hd Hex H.
  assert (Hnot : added c = false -> ignoreKey d i ∉ ignoreDiffIndexes s).
  { intros Ha Hin. apply Hs in Hin as (d' & l' & c' & Heq & Hd' & Ha').
    apply ignoreKey_inj in Heq as [<- <-]. congruence. }
  destruct (added c) eqn:Ha, (removed c) eqn:Hr;
    [exfalso; by apply Hex|..].
  all: open_step H; bool_hyps.
  all: try (exfalso; by eapply Hnot).
  all: simpl; split; [lia|].
  all: repeat match goal with
              | |- context [decide ?P] => destruct (decide P)
              end; try done.
  all: try (split; [done|lia]).
  all: try (by left).
  all: right; split; [lia|]; split; [done|].
  all: unfold linesAt;
       match goal with
       | Hn : diffArray !! (_ + 1)%nat = Some _ |- _ => rewrite Hn
       end; by eapply lookup_lt_Some.
Qed.

Lemma mapLines_counts d c ls : forall i s rs s',
  ignoreSound diffArray s -> diffArray !! d = Some c -> exclusive c ->
  mapLines' d (added c) (removed c) false ls i s = Ok rs s' ->
  ignoreSound diffArray s'
  /\ leftLineNumber s'
     = leftLineNumber s + (if added c then 0 else Z.of_nat (length ls))
  /\ if removed c
     then exists taken,
            ignoreDiffIndexes s'
            = ignoreDiffIndexes s ++ (ignoreKey (d + 1) <$> taken)
            /\ rightLineNumber s'
               = rightLineNumber s + Z.of_nat (length taken)
            /\ NoDup taken
            /\ Forall (fun l => (i <= l < linesAt diffArray (d + 1))%nat)
                      taken
     else ignoreDiffIndexes s' = ignoreDiffIndexes s
          /\ rightLineNumber s' + Z.of_nat (skipped d i (length ls) s)
             = rightLineNumber s + Z.of_nat (length ls).
Proof.
  induction ls as [|line rest IH]; intros i s rs s' Hs Hd Hex H;
    simpl in H.
  - injection H as <- <-. split; [done|]. split; [destruct (added c); simpl; lia|].
    destruct (removed c).
    + exists []. rewrite app_nil_r.
      repeat split; try constructor; simpl; lia.
    + split; [done|]. unfold skipped. simpl. lia.
  - destruct (rowStep_returns lib diffArray disableWordDiff lineCompareMethod
                showLines d c line i s Hs Hd Hex) as (o & s1 & Hstep & Hs1).
    pose proof (rowStep_counts d c line i s o s1 Hs Hd Hex Hstep)
      as [Hl Hr].
    unfold rowStep in Hstep. unfold bind in H at 1. rewrite Hstep in H.
    unfold bind in H at 1.
    destruct (mapLines' d (added c) (removed c) false rest (S i) s1)
      as [rs1 s2|] eqn:Hrest; [|done].
    injection H as <- <-.
    destruct (IH (S i) s1 rs1 s2 Hs1 Hd Hex Hrest) as (Hs2 & Hl2 & Hr2).
    split; [done|]. split.
    { rewrite Hl2, Hl. destruct (added c); simpl length; lia. }
    destruct (removed c).
    + destruct Hr2 as (taken & Hi2 & Hn2 & Hnd & Hb).
      destruct Hr as [[Hn1 Hi1]|(Hn1 & Hi1 & Hlt)].
      * exists taken. rewrite Hi2, Hi1, Hn2, Hn1. repeat split; [done|].
        eapply Forall_impl; [exact Hb|]. simpl. lia.
      * exists (i :: taken). rewrite Hi2, Hi1, Hn2, Hn1, <- app_assoc.
        simpl length. repeat split; [lia| |].
        -- constructor; [|done]. intros Hin.
           rewrite Forall_forall in Hb. specialize (Hb i Hin). lia.
        -- constructor; [lia|].
           eapply Forall_impl; [exact Hb|]. simpl. lia.
    + destruct Hr2 as [Hi2 Hn2], Hr as [Hi1 Hn1].
      split; [congruence|].
      assert (skipped d (S i) (length rest) s1
              = skipped d (S i) (length rest) s) as Heq
        by (unfold skipped; by rewrite Hi1).
      rewrite Heq in Hn2. unfold skipped in *. simpl seq.
      rewrite filter_cons. simpl length.
      destruct (decide (ignoreKey d i ∈ ignoreDiffIndexes s));
        simpl length; lia.
Qed.

Lemma between_step off pre c s rs s1 :
  diffArray !! length pre = Some c -> exclusive c ->
  ignoreSound diffArray s -> between diffArray off pre s ->
  mapLines' (length pre) (added c) (removed c) false
            (constructLines (value c)) 0 s = Ok rs s1 ->
  ignoreSound diffArray s1 /\ between diffArray off (pre ++ [c]) s1.
Proof.
  intros Hd Hex Hs (Hleft & taken & Hnd & Hb & Hin & Hle & Hright) Hmap.
  destruct (mapLines_counts _ c _ _ _ _ _ Hs Hd Hex Hmap)
    as (Hs1 & Hl1 & Hr1).
  split; [done|]. unfold between.
  rewrite oldLineCount_app, newLineCount_app, length_app. simpl length.
  split.
  { rewrite Hl1, Hleft. destruct (added c); lia. }
  destruct (removed c) eqn:Hrem.
  - destruct Hr1 as (taken1 & Hi1 & Hn1 & Hnd1 & Hb1).
    assert (taken = []) as ->.
    { destruct taken as [|l rest]; [done|]. exfalso.
      assert (ignoreKey (length pre) l ∈ ignoreDiffIndexes s) as Hk
        by (apply Hin; left).
      apply Hs in Hk as (d' & l' & c' & Heq & Hd' & Ha').
      apply ignoreKey_inj in Heq as [<- <-]. apply Hex. split; congruence. }
    exists taken1. split; [done|]. split.
    { eapply Forall_impl; [exact Hb1|]. simpl. lia. }
    split; [|split].
    + intros l. rewrite Hi1, elem_of_app, list_elem_of_fmap. split.
      * intros [Hk|(l' & [_ ->]%ignoreKey_inj & Hl')].
        -- apply Hle in Hk. lia.
        -- done.
      * intros Hl. right. by exists l.
    + intros d l. rewrite Hi1, elem_of_app, list_elem_of_fmap.
      intros [Hk|(l' & [-> _]%ignoreKey_inj & Hl')]; [|lia].
      apply Hle in Hk. lia.
    + rewrite Hn1, Hright. simpl. lia.
  - destruct Hr1 as [Hi1 Hn1]. exists []. split; [constructor|].
    split; [constructor|]. rewrite Hi1. split; [|split].
    + intros l. split; [|by intros ?%not_elem_of_nil].
      intros Hk. apply Hle in Hk. lia.
    + intros d l Hk. apply Hle in Hk. lia.
    + unfold linesAt in Hb. rewrite Hd in Hb.
      rewrite (skipped_taken _ _ _ taken) in Hn1 by done.
      rewrite Hright in Hn1. simpl. lia.
Qed.

Lemma forEachChunk_between off chunks : forall pre rows s rows' s',
  diffArray = pre ++ chunks -> Forall exclusive chunks ->
  ignoreSound diffArray s -> between diffArray off pre s ->
  forEachChunk' chunks (length pre) rows s = Ok rows' s' ->
  between diffArray off diffArray s'.
Proof.
  induction chunks as [|c rest IH];
    intros pre rows s rows' s' Hpre Hex Hs Hb H; simpl in H.
  - injection H as <- <-. rewrite app_nil_r in Hpre. by subst.
  - apply Forall_cons in Hex as [Hc Hrest].
    assert (Hd : diffArray !! length pre = Some c).
    { rewrite Hpre. by rewrite list_lookup_middle. }
    unfold bind in H at 1. rewrite getLineInformation_top in H.
    destruct (mapLines' (length pre) (added c) (removed c) false
                (constructLines (value c)) 0 s) as [rs s1|] eqn:Hmap;
      [|done].
    destruct (between_step off pre c s rs s1 Hd Hc Hs Hb Hmap)
      as [Hs1 Hb1].
    apply (IH (pre ++ [c]) (rows ++ omap id rs) s1 rows' s');
      [by rewrite <- app_assoc|done..|].
    by rewrite length_app, Nat.add_comm.
Qed.

Lemma between_initial off : between diffArray off [] (initialState off).
Proof.
  split; [simpl; lia|]. exists []. simpl.
  split; [constructor|]. split; [constructor|]. split.
  { intros l. split; by intros ?%not_elem_of_nil. }
  split; [|lia]. by intros d l ?%not_elem_of_nil.
Qed.

Lemma between_final off s :
  between diffArray off diffArray s ->
  leftLineNumber s = off + Z.of_nat (oldLineCount diffArray)
  /\ rightLineNumber s = off + Z.of_nat (newLineCount diffArray).
Proof.
  intros (Hleft & taken & _ & Hb & _ & _ & Hright). split; [done|].
  assert (taken = []) as ->.
  { destruct taken as [|l rest]; [done|].
    apply Forall_cons in Hb as [Hl _]. unfold linesAt in Hl.
    rewrite lookup_ge_None_2 in Hl by lia. lia. }
  simpl in Hright. lia.
Qed.
End Conservation.

(** ** Folding of the rows in renderDiff *)

#[local] Arguments computeHiddenBlocks : simpl never.

Section Folding.
Context (rows : list LineInformation) (diffLines : list Z) (extraLines : Z).
Context (splitView : bool) (expandedBlocks : list Z).

Notation hidden := (computeHiddenBlocks rows diffLines extraLines).
Notation diffNode' showDiffOnly :=
  (diffNode showDiffOnly splitView hidden expandedBlocks).

Lemma lineBlocks_protected (i : nat) :
  protected diffLines extraLines (Z.of_nat i) ->
  lineBlocks hidden !! Z.of_nat i = None.
Proof.
  intros Hp.
  destruct (computeHiddenBlocks_invariants rows diffLines extraLines)
    as ((Hok & _ & _) & _ & _ & Hmap).
  destruct (lineBlocks hidden !! Z.of_nat i) as [k|] eqn:Hk; [|done].
  apply Hmap in Hk as (p & b & _ & Hb & Hr).
  rewrite Forall_forall in Hok.
  destruct (Hok b) as (_ & _ & Hfree); [by eapply list_elem_of_lookup_2|].
  by destruct (Hfree _ Hr).
Qed.

Lemma lineBlocks_block (i p : nat) b :
  blocks hidden !! p = Some b ->
  startLine b <= Z.of_nat i <= endLine b ->
  lineBlocks hidden !! Z.of_nat i = Some (Z.of_nat p)
  /\ blockAt (blocks hidden) (Z.of_nat p) = Some b
  /\ lines b = endLine b - startLine b + 1.
Proof.
  intros Hb Hr.
  destruct (computeHiddenBlocks_invariants rows diffLines extraLines)
    as (_ & (_ & Hshape) & _ & Hmap).
  split; [apply Hmap; eauto|]. split; [|by apply (Hshape p)].
  unfold blockAt. destruct (Z.ltb_spec (Z.of_nat p) 0); [lia|].
  by rewrite Nat2Z.id.
Qed.

Lemma lineBlocks_cases (i : nat) :
  lineBlocks hidden !! Z.of_nat i = None
  \/ exists (p : nat) b,
       blocks hidden !! p = Some b
       /\ startLine b <= Z.of_nat i <= endLine b.
Proof.
  destruct (computeHiddenBlocks_invariants rows diffLines extraLines)
    as (_ & _ & _ & Hmap).
  destruct (lineBlocks hidden !! Z.of_nat i) as [k|] eqn:Hk; [|by left].
  apply Hmap in Hk as (p & b & _ & Hb & Hr). right. eauto.
Qed.

Lemma diffNode_protected showDiffOnly line (i : nat) :
  protected diffLines extraLines (Z.of_nat i) ->
  diffNode' showDiffOnly line i
  = inr (Some (LineRows i (viewRows splitView line))).
Proof.
  intros Hp. unfold diffNode. rewrite (lineBlocks_protected i Hp).
  by destruct showDiffOnly.
Qed.

Lemma diffNode_all line (i : nat) :
  diffNode' false line i
  = inr (Some (LineRows i (viewRows splitView line))).
Proof. done. Qed.

Lemma diffNode_block line (i p : nat) b :
  blocks hidden !! p = Some b ->
  startLine b <= Z.of_nat i <= endLine b ->
  diffNode' true line i
  = inr (foldedNode splitView expandedBlocks p b line i).
Proof.
  intros Hb Hr. unfold diffNode, foldedNode.
  destruct (lineBlocks_block i p b Hb Hr) as (-> & -> & ->).
  unfold includes.
  destruct (bool_decide (Z.of_nat p ∈ expandedBlocks)); simpl; [done|].
  rewrite (bool_decide_ext (endLine b = Z.of_nat i) (Z.of_nat i = endLine b))
    by (split; congruence).
  by destruct (bool_decide (Z.of_nat i = endLine b)).
Qed.

(** The read of [blocks[blockIndex]] never misses. *)
Lemma diffNode_returns showDiffOnly line (i : nat) :
  exists o, diffNode' showDiffOnly line i = inr o.
Proof.
  destruct showDiffOnly; [|rewrite diffNode_all; eauto].
  destruct (lineBlocks_cases i) as [Hn|(p & b & Hb & Hr)].
  - unfold diffNode. rewrite Hn. eauto.
  - rewrite (diffNode_block line i p b Hb Hr). eauto.
Qed.
End Folding.

Lemma mapDiffNodes_imap sd sv hb exp (f : nat -> LineInformation -> option DiffNode)
    rows : forall i0,
  (forall (j : nat) row, rows !! j = Some row ->
     diffNode sd sv hb exp row (i0 + j) = inr (f (i0 + j)%nat row)) ->
  mapDiffNodes sd sv hb exp rows i0
  = inr (imap (fun j row => f (i0 + j)%nat row) rows).
Proof.
  induction rows as [|row rest IH]; intros i0 H; simpl; [done|].
  pose proof (H 0%nat row eq_refl) as H0. rewrite Nat.add_0_r in H0.
  rewrite H0, (IH (S i0)).
  - rewrite Nat.add_0_r. do 2 f_equal. apply imap_ext. intros j x _. simpl.
    f_equal. lia.
  - intros j x Hj. specialize (H (S j) x Hj).
    by replace (S i0 + j)%nat with (i0 + S j)%nat by lia.
Qed.

Lemma mapDiffNodes_hidden rows diffLines extraLines sd sv exp :
  mapDiffNodes sd sv (computeHiddenBlocks rows diffLines extraLines) exp
               rows 0
  = inr (imap (nodeOf sd sv (computeHiddenBlocks rows diffLines extraLines)
                      exp) rows).
Proof.
  rewrite (mapDiffNodes_imap _ _ _ _
             (nodeOf sd sv (computeHiddenBlocks rows diffLines extraLines)
                     exp)); [done|].
  intros j row _. simpl. unfold nodeOf.
  by destruct (diffNode_returns rows diffLines extraLines sv exp sd row j)
    as [o ->].
Qed.

(** ** Whole-run consequences for diffLines and the counters *)

Section Runs.
Context (lib : DiffLibrary) (diffArray : list Change)
        (disableWordDiff : bool) (lineCompareMethod : CompareMethod).

Notation run showLines :=
  (computeLineInformation_from lib diffArray disableWordDiff
                               lineCompareMethod showLines).

Lemma run_shapes showLines off out :
  run showLines off = inr out ->
  Forall (rowShape lib disableWordDiff lineCompareMethod)
         (lineInformation out).
Proof.
  intros Hrun.
  destruct (run_lift lib diffArray disableWordDiff lineCompareMethod
              showLines
              (fun _ rows _ =>
                 Forall (rowShape lib disableWordDiff lineCompareMethod)
                        rows)) with off out
    as (s' & H & _); try done.
  - intros. by apply Forall_app.
  - apply rowStep_shape.
Qed.


Lemma run_marksChanged off out :
  run [] off = inr out ->
  cl_diffLines out = changedFrom 0 (lineInformation out).
Proof.
  intros Hrun.
  destruct (run_lift lib diffArray disableWordDiff lineCompareMethod
              [] marksChanged marksChanged_refl marksChanged_trans
              (rowStep_marksChanged lib diffArray disableWordDiff
                                    lineCompareMethod) off out Hrun)
    as (s' & (_ & Hd) & ->).
  simpl in Hd. by apply Hd.
Qed.

Lemma run_counts showLines off out :
  Forall exclusive diffArray ->
  run showLines off = inr out ->
  leftNumbers (lineInformation out)
    = seqZ (off + 1) (Z.of_nat (oldLineCount diffArray))
  /\ rightNumbers (lineInformation out)
    = seqZ (off + 1) (Z.of_nat (newLineCount diffArray)).
Proof.
  intros Hex. unfold computeLineInformation_from.
  destruct (forEachChunk _ _ _ _ _ diffArray 0 [] (initialState off))
    as [rows s'|] eqn:Hrun; [|done].
  intros [= <-]. simpl.
  pose proof (forEachChunk_between lib diffArray disableWordDiff
                lineCompareMethod showLines off diffArray [] []
                (initialState off) rows s' eq_refl Hex) as Hb.
  destruct (between_final diffArray off s') as [Hl Hr].
  { apply Hb; [|apply between_initial|done].
    intros key Hkey. simpl in Hkey. by apply not_elem_of_nil in Hkey. }
  apply (forEachChunk_lift lib diffArray disableWordDiff lineCompareMethod
           showLines numbered numbered_refl numbered_trans
           (rowStep_numbered lib diffArray disableWordDiff
                             lineCompareMethod showLines))
    in Hrun as (new & -> & [[Hln _] [Hrn _]]).
  simpl in *. rewrite Hln, Hrn, Hl, Hr. split; f_equal; lia.
Qed.
End Runs.

(** ** Lines and their joining *)

Lemma splitNewline_join s : String.concat nl (splitNewline s) = s.
Proof.
  induction s as [|c rest IH]; [done|]. simpl.
  destruct (Ascii.eqb_spec c LF) as [->|Hc].
  - destruct (splitNewline rest) as [|l ls] eqn:Hs.
    + by destruct rest; simpl in Hs; repeat case_match.
    + simpl in *. by rewrite IH.
  - destruct (splitNewline rest) as [|l ls] eqn:Hs.
    + by destruct rest; simpl in Hs; repeat case_match.
    + simpl in *. destruct ls; simpl in *; by rewrite <- IH.
Qed.

Lemma stripFinalNewline_cases s :
  s = stripFinalNewline s \/ s = stripFinalNewline s +:+ nl.
Proof.
  induction s as [|c rest IH]; [by left|].
  destruct rest as [|c' rest'].
  - simpl. destruct (Ascii.eqb_spec c LF) as [->|Hc]; [by right|by left].
  - change (stripFinalNewline (String c (String c' rest')))
      with (String c (stripFinalNewline (String c' rest'))).
    destruct IH as [IH|IH]; [left|right].
    + by rewrite <- IH.
    + rewrite IH at 1. done.
Qed.

(** * Further properties: lines, rows and diff lines *)

(** X10. [constructLines] splits at the line feeds and drops at most one
    final line feed: no line holds a line feed, joining the lines with line
    feeds gives the text back, up to one line feed at its end, and only the
    empty text has no line. *)
Theorem constructLines_join value :
  (constructLines value = [] <-> value = EmptyString)
  /\ (forall l, l ∈ constructLines value -> hasLF l = false)
  /\ (value = String.concat nl (constructLines value)
      \/ value = String.concat nl (constructLines value) +:+ nl).
Proof.
  split; [|split].
  - unfold constructLines. destruct (String.eqb_spec value EmptyString);
      [done|]. split; [|done].
    by destruct (stripFinalNewline value); simpl; repeat case_match.
  - intros l [i Hi]%list_elem_of_lookup_1. by eapply constructLines_noLF.
  - unfold constructLines. destruct (String.eqb_spec value EmptyString);
      [by left|].
    rewrite splitNewline_join. apply stripFinalNewline_cases.
Qed.

(** X11. Every row [computeLineInformation] returns has one of five shapes:
    both sides DEFAULT with one and the same text; a REMOVED left side with a
    non-empty text against an empty right side; an empty left side against
    an ADDED right side; with word diff disabled, a REMOVED left against an
    ADDED right, two different non-empty texts; with word diff enabled, a
    REMOVED left against an ADDED right whose values are the two fragment
    lists of one [computeDiff] call. So no side is CHANGED, no left side is
    ADDED, no right side is REMOVED, and a side has a line number exactly
    when it has a value and a type. *)
Theorem rows_shapes lib oldString newString disableWordDiff
    lineCompareMethod linesOffset showLines out :
  computeLineInformation lib oldString newString disableWordDiff
                         lineCompareMethod linesOffset showLines = inr out ->
  Forall (rowShape lib disableWordDiff lineCompareMethod)
         (lineInformation out).
Proof. unfold computeLineInformation. apply run_shapes. Qed.

Lemma rows_shapes_witness :
  Forall (rowShape standIn true (Preset CHARS)) (rowsOf (run_abc 0 ["R-4"])).
Proof.
  unfold run_abc.
  destruct (computeLineInformation standIn (InString text_abc)
              (InString text_axyz) true (Preset CHARS) 0 ["R-4"])
    as [e|out] eqn:Hrun; [by vm_compute in Hrun|].
  exact (rows_shapes _ _ _ _ _ _ _ _ Hrun).
Defined.



(** X13. With [showLines] empty, [diffLines] is the ascending list of the
    indices of the rows with a REMOVED left side or an ADDED right side,
    each once. *)
Theorem diffLines_without_showLines lib oldString newString disableWordDiff
    lineCompareMethod linesOffset out :
  computeLineInformation lib oldString newString disableWordDiff
                         lineCompareMethod linesOffset [] = inr out ->
  cl_diffLines out = changedFrom 0 (lineInformation out).
Proof. unfold computeLineInformation. apply run_marksChanged. Qed.

Lemma diffLines_without_showLines_witness :
  diffLinesOf (run_abc 0 []) = changedFrom 0 (rowsOf (run_abc 0 [])).
Proof.
  unfold run_abc.
  destruct (computeLineInformation standIn (InString text_abc)
              (InString text_axyz) true (Preset CHARS) 0 [])
    as [e|out] eqn:Hrun; [by vm_compute in Hrun|].
  exact (diffLines_without_showLines _ _ _ _ _ _ _ Hrun).
Defined.

(** X14. When no chunk is flagged both added and removed and the counters
    stay safe integers, every line of the old text gets one left line number
    and every line of the new text one right line number: the left numbers
    of the rows are [linesOffset + 1 .. linesOffset + m] for the [m] lines of
    the chunks that are not added, the right numbers [linesOffset + 1 ..
    linesOffset + n] for the [n] lines of the chunks that are not removed. *)
Theorem line_numbers_cover_texts lib oldString newString disableWordDiff
    lineCompareMethod linesOffset showLines out :
  Forall exclusive (diffArrayOf lib oldString newString) ->
  computeLineInformation lib oldString newString disableWordDiff
                         lineCompareMethod linesOffset showLines = inr out ->
  safeCounters linesOffset (lineInformation out) ->
  leftNumbers (lineInformation out)
    = seqZ (linesOffset + 1)
           (Z.of_nat (oldLineCount (diffArrayOf lib oldString newString)))
  /\ rightNumbers (lineInformation out)
    = seqZ (linesOffset + 1)
           (Z.of_nat (newLineCount (diffArrayOf lib oldString newString)))
  /\ safeInteger (linesOffset
                  + Z.of_nat (oldLineCount (diffArrayOf lib oldString
                                                        newString))
                      `max` Z.of_nat (newLineCount (diffArrayOf lib oldString
                                                                newString))).
Proof.
  unfold computeLineInformation. intros Hex Hrun Hsafe.
  destruct (run_counts _ _ _ _ _ _ _ Hex Hrun) as [Hl Hr].
  split; [done|]. split; [done|].
  pose proof (omap_length_le leftNumber (lineInformation out)) as Hlen.
  pose proof (omap_length_le rightNumber (lineInformation out)) as Hlen'.
  fold (leftNumbers (lineInformation out)) in Hlen.
  fold (rightNumbers (lineInformation out)) in Hlen'.
  rewrite Hl, length_seqZ in Hlen. rewrite Hr, length_seqZ in Hlen'.
  destruct Hsafe as [[? ?] [? ?]]. unfold safeInteger. lia.
Qed.

Lemma line_numbers_cover_texts_witness :
  leftNumbers (rowsOf (run_abc 3 ["R-5"])) = seqZ (3 + 1) (Z.of_nat 3)
  /\ rightNumbers (rowsOf (run_abc 3 ["R-5"])) = seqZ (3 + 1) (Z.of_nat 4)
  /\ safeInteger (3 + Z.of_nat 3 `max` Z.of_nat 4).
Proof.
  unfold run_abc.
  destruct (computeLineInformation standIn (InString text_abc)
              (InString text_axyz) true (Preset CHARS) 3 ["R-5"])
    as [e|out] eqn:Hrun; [by vm_compute in Hrun|].
  refine (line_numbers_cover_texts _ _ _ _ _ _ _ _ _ Hrun _).
  - repeat constructor; unfold exclusive; simpl; intros [? ?]; discriminate.
  - vm_compute in Hrun. injection Hrun as <-.
    repeat split; vm_compute; discriminate.
Defined.

(** ** What renderDiff returns *)

Lemma renderDiff_unfold lib props expandedBlocks :
  renderDiff lib props expandedBlocks
  = match computeLineInformation lib (oldValue props) (newValue props)
            (disableWordDiff props) (compareMethod props) (linesOffset props)
            (default [] (alwaysShowLines props)) with
    | inl e => inl e
    | inr out =>
      let hidden := computeHiddenBlocks (lineInformation out)
                      (cl_diffLines out) (extraLinesOf props) in
      inr (mkRenderedDiff
             (omap id (imap (nodeOf (showDiffOnly props) (splitView props)
                                    hidden expandedBlocks)
                            (lineInformation out)))
             (blocks hidden) (lineInformation out))
    end.
Proof.
  unfold renderDiff. destruct (computeLineInformation _ _ _ _ _ _ _); [done|].
  simpl. by rewrite mapDiffNodes_hidden.
Qed.

Lemma renderDiff_inv lib props expandedBlocks rd :
  renderDiff lib props expandedBlocks = inr rd ->
  exists out,
    computeLineInformation lib (oldValue props) (newValue props)
      (disableWordDiff props) (compareMethod props) (linesOffset props)
      (default [] (alwaysShowLines props)) = inr out
    /\ rd_lineInformation rd = lineInformation out
    /\ rd_blocks rd
       = blocks (computeHiddenBlocks (lineInformation out) (cl_diffLines out)
                                     (extraLinesOf props))
    /\ diffNodes rd
       = omap id (imap (nodeOf (showDiffOnly props) (splitView props)
                         (computeHiddenBlocks (lineInformation out)
                            (cl_diffLines out) (extraLinesOf props))
                         expandedBlocks)
                       (lineInformation out)).
Proof.
  rewrite renderDiff_unfold.
  destruct (computeLineInformation _ _ _ _ _ _ _) as [e|out]; [done|].
  intros [= <-]. by exists out.
Qed.

Lemma elem_of_nodes (f : nat -> LineInformation -> option DiffNode) rows x :
  x ∈ omap id (imap f rows)
  <-> exists (i : nat) line, rows !! i = Some line /\ f i line = Some x.
Proof.
  rewrite list_elem_of_omap. split.
  - intros (o & (i & line & -> & Hi)%elem_of_lookup_imap & Ho). eauto.
  - intros (i & line & Hi & Hf). exists (f i line). split; [|done].
    by apply elem_of_lookup_imap_2.
Qed.

Lemma omap_imap_Some {A B} (f : nat -> A -> option B) (g : nat -> A -> B)
    (l : list A) :
  (forall (i : nat) x, l !! i = Some x -> f i x = Some (g i x)) ->
  omap id (imap f l) = imap g l.
Proof.
  revert f g. induction l as [|x l IH]; intros f g H; [done|].
  simpl. rewrite (H 0%nat x eq_refl). simpl. f_equal.
  apply IH. intros i y Hi. apply (H (S i) y Hi).
Qed.


Section Nodes.
Context (rows : list LineInformation) (diffLines : list Z) (extraLines : Z).
Context (splitView : bool) (expandedBlocks : list Z).

Notation hidden := (computeHiddenBlocks rows diffLines extraLines).
Notation nodeOf' showDiffOnly :=
  (nodeOf showDiffOnly splitView hidden expandedBlocks).

Lemma nodeOf_free showDiffOnly (i : nat) line :
  lineBlocks hidden !! Z.of_nat i = None ->
  nodeOf' showDiffOnly i line
  = Some (LineRows i (viewRows splitView line)).
Proof.
  intros Hn. unfold nodeOf, diffNode. rewrite Hn. by destruct showDiffOnly.
Qed.

Lemma nodeOf_block (i p : nat) b line :
  blocks hidden !! p = Some b ->
  startLine b <= Z.of_nat i <= endLine b ->
  nodeOf' true i line = foldedNode splitView expandedBlocks p b line i.
Proof.
  intros Hb Hr. unfold nodeOf.
  by rewrite (diffNode_block rows diffLines extraLines splitView
                expandedBlocks line i p b Hb Hr).
Qed.

Lemma block_unique (i p p' : nat) b b' :
  blocks hidden !! p = Some b -> startLine b <= Z.of_nat i <= endLine b ->
  blocks hidden !! p' = Some b' ->
  startLine b' <= Z.of_nat i <= endLine b' ->
  p = p' /\ b = b'.
Proof.
  intros Hb Hr Hb' Hr'.
  destruct (lineBlocks_block rows diffLines extraLines i p b Hb Hr)
    as (H1 & _).
  destruct (lineBlocks_block rows diffLines extraLines i p' b' Hb' Hr')
    as (H2 & _).
  assert (p = p') as <- by (rewrite H1 in H2; injection H2; lia).
  split; [done|congruence].
Qed.

Lemma block_rows (p : nat) b :
  blocks hidden !! p = Some b ->
  0 <= startLine b <= endLine b
  /\ endLine b < Z.of_nat (length rows).
Proof.
  intros Hb.
  destruct (computeHiddenBlocks_invariants rows diffLines extraLines)
    as ((Hok & _ & _) & _ & (_ & Hmax & _ & _) & _).
  apply list_elem_of_lookup_2 in Hb.
  rewrite Forall_forall in Hok. destruct (Hok b Hb) as (? & ? & _).
  destruct (Hmax b Hb) as (? & _). lia.
Qed.

(** The rows shown and the fold rows, with [showDiffOnly] set. *)
Lemma nodes_lines (i : nat) tableRows :
  LineRows i tableRows ∈ omap id (imap (nodeOf' true) rows)
  <-> exists line,
        rows !! i = Some line /\ tableRows = viewRows splitView line
        /\ forall (p : nat) b,
             blocks hidden !! p = Some b ->
             startLine b <= Z.of_nat i <= endLine b ->
             Z.of_nat p ∈ expandedBlocks.
Proof.
  rewrite elem_of_nodes. split.
  - intros (j & line & Hj & Hnode).
    destruct (lineBlocks_cases rows diffLines extraLines j)
      as [Hn|(p & b & Hb & Hr)].
    + rewrite nodeOf_free in Hnode by done. injection Hnode as <- <-.
      exists line. repeat split; [done|]. intros p b Hb Hr.
      destruct (lineBlocks_block rows diffLines extraLines j p b Hb Hr)
        as (Hs & _). congruence.
    + rewrite (nodeOf_block j p b line Hb Hr) in Hnode.
      unfold foldedNode in Hnode.
      destruct (bool_decide_reflect (Z.of_nat p ∈ expandedBlocks))
        as [Hin|Hout].
      * injection Hnode as <- <-. exists line. repeat split; [done|].
        intros p' b' Hb' Hr'.
        by destruct (block_unique j p p' b b' Hb Hr Hb' Hr') as [<- _].
      * by destruct (bool_decide (Z.of_nat j = endLine b)).
  - intros (line & Hi & -> & Hexp). exists i, line. split; [done|].
    destruct (lineBlocks_cases rows diffLines extraLines i)
      as [Hn|(p & b & Hb & Hr)].
    + by apply nodeOf_free.
    + rewrite (nodeOf_block i p b line Hb Hr). unfold foldedNode.
      by rewrite bool_decide_eq_true_2 by eauto.
Qed.

Lemma nodes_indicator n k l r :
  SkippedLineIndicator n k l r ∈ omap id (imap (nodeOf' true) rows)
  <-> exists (p : nat) b line,
        k = Z.of_nat p /\ blocks hidden !! p = Some b
        /\ (k ∉ expandedBlocks)
        /\ rows !! Z.to_nat (endLine b) = Some line
        /\ n = endLine b - startLine b + 1
        /\ l = default 0 (leftNumber line)
        /\ r = default 0 (rightNumber line).
Proof.
  rewrite elem_of_nodes. split.
  - intros (j & line & Hj & Hnode).
    destruct (lineBlocks_cases rows diffLines extraLines j)
      as [Hn|(p & b & Hb & Hr)].
    + by rewrite nodeOf_free in Hnode.
    + rewrite (nodeOf_block j p b line Hb Hr) in Hnode.
      unfold foldedNode in Hnode.
      destruct (bool_decide_reflect (Z.of_nat p ∈ expandedBlocks))
        as [Hin|Hout]; [done|].
      destruct (bool_decide_reflect (Z.of_nat j = endLine b))
        as [Hend|Hne]; [|done].
      injection Hnode as <- <- <- <-. exists p, b, line.
      rewrite <- Hend, Nat2Z.id. by repeat split.
  - intros (p & b & line & -> & Hb & Hout & Hline & -> & -> & ->).
    destruct (block_rows p b Hb) as [? ?].
    exists (Z.to_nat (endLine b)), line. split; [done|].
    rewrite (nodeOf_block _ p b line Hb) by lia. unfold foldedNode.
    rewrite bool_decide_eq_false_2 by done.
    by rewrite bool_decide_eq_true_2 by lia.
Qed.

(** Nothing is folded when every block is expanded or [showDiffOnly] is
    off. *)
Lemma nodes_unfolded showDiffOnly :
  (showDiffOnly = false
   \/ (forall b, b ∈ blocks hidden -> index b ∈ expandedBlocks)) ->
  omap id (imap (nodeOf' showDiffOnly) rows) = allViews splitView rows.
Proof.
  intros Hall.
  assert (forall (i : nat) line, rows !! i = Some line ->
            nodeOf' showDiffOnly i line
            = Some (LineRows i (viewRows splitView line))) as Hnode.
  { intros i line Hi. destruct Hall as [->|Hall]; [done|].
    destruct showDiffOnly; [|done].
    destruct (lineBlocks_cases rows diffLines extraLines i)
      as [Hn|(p & b & Hb & Hr)]; [by apply nodeOf_free|].
    rewrite (nodeOf_block i p b line Hb Hr). unfold foldedNode.
    rewrite bool_decide_eq_true_2; [done|].
    destruct (computeHiddenBlocks_invariants rows diffLines extraLines)
      as (_ & (_ & Hshape) & _).
    destruct (Hshape p b Hb) as [<- _]. apply Hall.
    by eapply list_elem_of_lookup_2. }
  unfold allViews. by apply omap_imap_Some.
Qed.
End Nodes.

(** * Further properties: the rows renderDiff shows *)

(** X15. [renderDiff] fails exactly when [computeLineInformation] fails, and
    with the same error: the read [blocks[blockIndex].endLine] of line 607
    always finds its block. *)
Theorem renderDiff_fails_iff lib props expandedBlocks e :
  renderDiff lib props expandedBlocks = inl e
  <-> computeLineInformation lib (oldValue props) (newValue props)
        (disableWordDiff props) (compareMethod props) (linesOffset props)
        (default [] (alwaysShowLines props)) = inl e.
Proof.
  rewrite renderDiff_unfold.
  destruct (computeLineInformation _ _ _ _ _ _ _); simpl;
    split; intros H; by simplify_eq.
Qed.

(** X16. With [showDiffOnly] set, a block that is not expanded shows as one
    fold row, which carries the number of rows of the block, the block's
    position and the line numbers of the block's last row ([0] for a side
    without number), and none of its rows is rendered; of an expanded block
    every row is rendered and no fold row is. *)
Theorem renderDiff_folds lib props expandedBlocks rd (p : nat) b :
  renderDiff lib props expandedBlocks = inr rd ->
  showDiffOnly props = true ->
  rd_blocks rd !! p = Some b ->
  (exists line, rd_lineInformation rd !! Z.to_nat (endLine b) = Some line
     /\ forall n l r,
          SkippedLineIndicator n (Z.of_nat p) l r ∈ diffNodes rd
          <-> (Z.of_nat p ∉ expandedBlocks)
              /\ n = endLine b - startLine b + 1
              /\ l = default 0 (leftNumber line)
              /\ r = default 0 (rightNumber line))
  /\ (forall (i : nat) line,
        rd_lineInformation rd !! i = Some line ->
        startLine b <= Z.of_nat i <= endLine b ->
        LineRows i (viewRows (splitView props) line) ∈ diffNodes rd
        <-> Z.of_nat p ∈ expandedBlocks).
Proof.
  intros (out & _ & -> & -> & ->)%renderDiff_inv Hshow Hb. rewrite Hshow.
  destruct (block_rows _ _ _ p b Hb) as [? ?].
  destruct (lookup_lt_is_Some_2 (lineInformation out)
              (Z.to_nat (endLine b))) as [last Hlast]; [lia|].
  split.
  - exists last. split; [done|]. intros n l r. rewrite nodes_indicator. split.
    + intros (p' & b' & line & ->%(inj Z.of_nat) & Hb' & Hout & Hline
              & -> & -> & ->).
      assert (b' = b) as -> by congruence.
      assert (line = last) as -> by congruence. done.
    + intros (Hout & -> & -> & ->). exists p, b, last. by repeat split.
  - intros i line Hi Hr. rewrite nodes_lines. split.
    + intros (line' & _ & _ & Hexp). by apply (Hexp p b).
    + intros Hin. exists line. repeat split; [done|].
      intros p' b' Hb' Hr'.
      by destruct (block_unique _ _ _ i p p' b b' Hb Hr Hb' Hr')
        as [<- _].
Qed.

Lemma renderDiff_folds_witness :
  (exists line,
     rd_lineInformation (renderedOf (renderDiff standIn props_inline []))
       !! Z.to_nat (endLine (mkBlock 0 0 2 3)) = Some line
     /\ forall n l r,
          SkippedLineIndicator n (Z.of_nat 0) l r
            ∈ diffNodes (renderedOf (renderDiff standIn props_inline []))
          <-> (Z.of_nat 0 ∉ [])
              /\ n = endLine (mkBlock 0 0 2 3) - startLine (mkBlock 0 0 2 3)
                     + 1
              /\ l = default 0 (leftNumber line)
              /\ r = default 0 (rightNumber line))
  /\ (forall (i : nat) line,
        rd_lineInformation (renderedOf (renderDiff standIn props_inline []))
          !! i = Some line ->
        startLine (mkBlock 0 0 2 3) <= Z.of_nat i
          <= endLine (mkBlock 0 0 2 3) ->
        LineRows i (viewRows (splitView props_inline) line)
          ∈ diffNodes (renderedOf (renderDiff standIn props_inline []))
        <-> Z.of_nat 0 ∈ []).
Proof.
  destruct (renderDiff standIn props_inline []) as [e|rd] eqn:Hrun;
    [by vm_compute in Hrun|].
  refine (renderDiff_folds standIn props_inline [] rd 0 (mkBlock 0 0 2 3)
            Hrun eq_refl _).
  vm_compute in Hrun. injection Hrun as <-. reflexivity.
Defined.



(** X18. When [showDiffOnly] is off, or every block is in
    [expandedBlocks], [diffNodes] holds every row, in order, and no fold
    row. *)
Theorem renderDiff_unfolded lib props expandedBlocks rd :
  renderDiff lib props expandedBlocks = inr rd ->
  (showDiffOnly props = false
   \/ (forall b, b ∈ rd_blocks rd -> index b ∈ expandedBlocks)) ->
  diffNodes rd = allViews (splitView props) (rd_lineInformation rd).
Proof.
  intros (out & _ & -> & -> & ->)%renderDiff_inv Hall.
  by apply nodes_unfolded.
Qed.

Lemma renderDiff_unfolded_witness :
  diffNodes (renderedOf (renderDiff standIn props_inline [1; 0]))
  = allViews (splitView props_inline)
      (rd_lineInformation (renderedOf (renderDiff standIn props_inline
                                                  [1; 0]))).
Proof.
  destruct (renderDiff standIn props_inline [1; 0]) as [e|rd] eqn:Hrun;
    [by vm_compute in Hrun|].
  refine (renderDiff_unfolded standIn props_inline [1; 0] rd Hrun _).
  right. vm_compute in Hrun. injection Hrun as <-. simpl.
  intros b Hb.
  apply elem_of_cons in Hb as [->|Hb];
    [apply list_elem_of_further, list_elem_of_here|].
  apply elem_of_cons in Hb as [->|Hb]; [apply list_elem_of_here|].
  by apply not_elem_of_nil in Hb.
Defined.

(** ** Fold states and the button of the summary *)

Lemma allViews_no_indicator sv rows n k l r :
  SkippedLineIndicator n k l r ∉ allViews sv rows.
Proof.
  unfold allViews. by intros (i & line & ? & _)%elem_of_lookup_imap.
Qed.

Lemma block_indices (bs : list Block) :
  (forall (k : nat) b, bs !! k = Some b -> index b = Z.of_nat k) ->
  index <$> bs = Z.of_nat <$> seq 0 (length bs).
Proof.
  intros H. apply list_eq. intros i. rewrite !list_lookup_fmap.
  destruct (bs !! i) as [b|] eqn:Hb; simpl.
  - rewrite lookup_seq_lt by (by eapply lookup_lt_Some). simpl.
    by rewrite (H i b Hb).
  - by rewrite lookup_seq_ge by (by apply lookup_ge_None).
Qed.

Lemma foldStateOk_all (bs : list Block) st :
  foldStateOk bs st ->
  (length st = length bs <-> forall (p : nat), (p < length bs)%nat ->
                                               Z.of_nat p ∈ st).
Proof.
  intros [Hnd Hval].
  assert (st ⊆+ Z.of_nat <$> seq 0 (length bs)) as Hsub.
  { apply NoDup_submseteq; [done|]. intros k Hk.
    destruct (Hval k Hk) as (p & b & -> & Hb).
    apply list_elem_of_fmap. exists p. split; [done|].
    apply elem_of_seq. apply lookup_lt_Some in Hb. lia. }
  split.
  - intros Hlen p Hp.
    assert (st ≡ₚ Z.of_nat <$> seq 0 (length bs)) as ->.
    { apply submseteq_length_Permutation; [done|].
      rewrite length_fmap, length_seq. lia. }
    apply list_elem_of_fmap. exists p. split; [done|].
    apply elem_of_seq. lia.
  - intros Hall. apply Nat.le_antisymm.
    + apply submseteq_length in Hsub.
      by rewrite length_fmap, length_seq in Hsub.
    + assert ((Z.of_nat <$> seq 0 (length bs)) ⊆+ st) as Hsup.
      { apply NoDup_submseteq.
        - apply (NoDup_fmap_2 _), NoDup_seq.
        - intros k (p & -> & Hp%elem_of_seq)%list_elem_of_fmap.
          apply Hall. lia. }
      apply submseteq_length in Hsup.
      by rewrite length_fmap, length_seq in Hsup.
Qed.

Section FoldStates.
Context (lib : DiffLibrary) (props : ReactDiffViewerProps)
        (out : ComputedLineInformation).
Hypothesis Hout :
  computeLineInformation lib (oldValue props) (newValue props)
    (disableWordDiff props) (compareMethod props) (linesOffset props)
    (default [] (alwaysShowLines props)) = inr out.

Notation hidden :=
  (computeHiddenBlocks (lineInformation out) (cl_diffLines out)
                       (extraLinesOf props)).

Lemma renderDiff_out st :
  renderDiff lib props st
  = inr (mkRenderedDiff
           (omap id (imap (nodeOf (showDiffOnly props) (splitView props)
                                  hidden st) (lineInformation out)))
           (blocks hidden) (lineInformation out)).
Proof. by rewrite renderDiff_unfold, Hout. Qed.

Lemma hidden_indices :
  index <$> blocks hidden = Z.of_nat <$> seq 0 (length (blocks hidden)).
Proof.
  apply block_indices. intros k b Hb.
  destruct (computeHiddenBlocks_invariants (lineInformation out)
              (cl_diffLines out) (extraLinesOf props))
    as (_ & (_ & Hshape) & _).
  by destruct (Hshape k b Hb).
Qed.

Lemma foldStateOk_toggle st :
  foldStateOk (blocks hidden) (toggleAll st (blocks hidden)).
Proof.
  unfold toggleAll. destruct (allExpanded st (blocks hidden)).
  - split; [constructor|]. by intros k ?%not_elem_of_nil.
  - rewrite hidden_indices. split.
    + apply (NoDup_fmap_2 _), NoDup_seq.
    + intros k (p & -> & Hp%elem_of_seq)%list_elem_of_fmap.
      destruct (lookup_lt_is_Some_2 (blocks hidden) p) as [b Hb]; [lia|].
      eauto.
Qed.

Lemma reachable_ok st :
  reachable lib props st -> foldStateOk (blocks hidden) st.
Proof.
  induction 1 as [|st rd n k l r _ IH Hrd Hin|st rd _ IH Hrd|st _ IH].
  - split; [constructor|]. by intros k ?%not_elem_of_nil.
  - rewrite renderDiff_out in Hrd. injection Hrd as <-.
    cbn [diffNodes] in Hin. destruct (showDiffOnly props).
    + apply nodes_indicator in Hin
        as (p & b & line & -> & Hb & Hnew & _).
      destruct IH as [Hnd Hval]. unfold onBlockExpand. split.
      * apply NoDup_app. repeat split; [done| |apply NoDup_singleton].
        intros x Hx ->%list_elem_of_singleton. done.
      * intros x [Hx| ->%list_elem_of_singleton]%elem_of_app; eauto.
    + rewrite nodes_unfolded in Hin by (by left).
      by apply allViews_no_indicator in Hin.
  - rewrite renderDiff_out in Hrd. injection Hrd as <-.
    apply foldStateOk_toggle.
  - unfold resetCodeBlocks. case_bool_decide; [|done].
    split; [constructor|]. by intros k ?%not_elem_of_nil.
Qed.

Lemma all_expanded_iff st :
  foldStateOk (blocks hidden) st ->
  allExpanded st (blocks hidden) = true
  <-> forall b, b ∈ blocks hidden -> index b ∈ st.
Proof.
  intros Hok. unfold allExpanded. rewrite bool_decide_eq_true.
  rewrite (foldStateOk_all _ _ Hok).
  destruct (computeHiddenBlocks_invariants (lineInformation out)
              (cl_diffLines out) (extraLinesOf props))
    as (_ & (_ & Hshape) & _).
  split.
  - intros Hall b [p Hb]%list_elem_of_lookup_1.
    destruct (Hshape p b Hb) as [-> _]. apply Hall.
    by eapply lookup_lt_Some.
  - intros Hall p Hp.
    destruct (lookup_lt_is_Some_2 (blocks hidden) p) as [b Hb]; [done|].
    destruct (Hshape p b Hb) as [<- _]. apply Hall.
    by eapply list_elem_of_lookup_2.
Qed.

Lemma folded_block_shows st (p : nat) b :
  showDiffOnly props = true ->
  blocks hidden !! p = Some b -> Z.of_nat p ∉ st ->
  omap id (imap (nodeOf (showDiffOnly props) (splitView props) hidden st)
                (lineInformation out))
  <> allViews (splitView props) (lineInformation out).
Proof.
  intros Hshow Hb Hnot Heq. rewrite Hshow in Heq.
  destruct (block_rows _ _ _ p b Hb) as [? ?].
  destruct (lookup_lt_is_Some_2 (lineInformation out)
              (Z.to_nat (endLine b))) as [line Hline]; [lia|].
  apply (allViews_no_indicator (splitView props) (lineInformation out)
           (endLine b - startLine b + 1) (Z.of_nat p)
           (default 0 (leftNumber line)) (default 0 (rightNumber line))).
  rewrite <- Heq. apply nodes_indicator. exists p, b, line.
  by repeat split.
Qed.
End FoldStates.

(** * Further properties: fold states *)

(** X19. A click on the button of the summary while not every block counts
    as expanded sets a state under which [renderDiff] shows every row and no
    fold row, and under which the button counts every block as expanded; the
    next click empties the state. *)
Theorem summary_button_expands_all lib props expandedBlocks rd :
  renderDiff lib props expandedBlocks = inr rd ->
  allExpanded expandedBlocks (rd_blocks rd) = false ->
  exists rd',
    renderDiff lib props (toggleAll expandedBlocks (rd_blocks rd)) = inr rd'
    /\ rd_blocks rd' = rd_blocks rd
    /\ diffNodes rd' = allViews (splitView props) (rd_lineInformation rd)
    /\ allExpanded (toggleAll expandedBlocks (rd_blocks rd)) (rd_blocks rd')
       = true
    /\ toggleAll (toggleAll expandedBlocks (rd_blocks rd)) (rd_blocks rd')
       = [].
Proof.
  intros (out & Hout & -> & -> & _)%renderDiff_inv Hnot.
  eexists. split; [apply (renderDiff_out lib props out Hout)|].
  cbn [rd_blocks diffNodes].
  assert (allExpanded (toggleAll expandedBlocks
                         (blocks (computeHiddenBlocks (lineInformation out)
                                    (cl_diffLines out) (extraLinesOf props))))
                      (blocks (computeHiddenBlocks (lineInformation out)
                                 (cl_diffLines out) (extraLinesOf props)))
          = true) as Hall.
  { unfold toggleAll. rewrite Hnot. unfold allExpanded.
    apply bool_decide_eq_true. by rewrite length_fmap. }
  split; [done|]. split; [|split; [done|]].
  - apply nodes_unfolded. right. intros b Hb.
    unfold toggleAll. rewrite Hnot. apply list_elem_of_fmap. eauto.
  - unfold toggleAll at 1. by rewrite Hall.
Qed.

Lemma summary_button_expands_all_witness :
  exists rd',
    renderDiff standIn props_inline
      (toggleAll [] (rd_blocks (renderedOf (renderDiff standIn props_inline
                                                       []))))
    = inr rd'
    /\ rd_blocks rd'
       = rd_blocks (renderedOf (renderDiff standIn props_inline []))
    /\ diffNodes rd'
       = allViews (splitView props_inline)
           (rd_lineInformation (renderedOf (renderDiff standIn props_inline
                                                       [])))
    /\ allExpanded
         (toggleAll [] (rd_blocks (renderedOf (renderDiff standIn
                                                 props_inline []))))
         (rd_blocks rd') = true
    /\ toggleAll
         (toggleAll [] (rd_blocks (renderedOf (renderDiff standIn
                                                 props_inline []))))
         (rd_blocks rd') = [].
Proof.
  destruct (renderDiff standIn props_inline []) as [e|rd] eqn:Hrun;
    [by vm_compute in Hrun|].
  refine (summary_button_expands_all standIn props_inline [] rd Hrun _).
  vm_compute in Hrun. injection Hrun as <-. reflexivity.
Defined.

(** X20. In every fold state the handlers reach under fixed props, no block
    position occurs twice and every element is the position of a block; so,
    with [showDiffOnly] set, the button of the summary counts every block as
    expanded exactly when [renderDiff] shows every row and no fold row. *)
Theorem fold_state_reflects_view lib props expandedBlocks rd :
  reachable lib props expandedBlocks ->
  renderDiff lib props expandedBlocks = inr rd ->
  showDiffOnly props = true ->
  foldStateOk (rd_blocks rd) expandedBlocks
  /\ (allExpanded expandedBlocks (rd_blocks rd) = true
      <-> diffNodes rd = allViews (splitView props) (rd_lineInformation rd)).
Proof.
  intros Hreach (out & Hout & -> & -> & ->)%renderDiff_inv Hshow.
  pose proof (reachable_ok lib props out Hout _ Hreach) as Hok.
  split; [done|].
  rewrite (all_expanded_iff props out expandedBlocks Hok). split.
  - intros Hall. apply nodes_unfolded. by right.
  - intros Heq b [p Hb]%list_elem_of_lookup_1.
    destruct (computeHiddenBlocks_invariants (lineInformation out)
                (cl_diffLines out) (extraLinesOf props))
      as (_ & (_ & Hshape) & _).
    destruct (Hshape p b Hb) as [-> _].
    destruct (decide (Z.of_nat p ∈ expandedBlocks)) as [|Hnot]; [done|].
    by destruct (folded_block_shows props out expandedBlocks p b Hshow
                   Hb Hnot).
Qed.

Lemma fold_state_reflects_view_witness :
  foldStateOk (rd_blocks (renderedOf (renderDiff standIn props_inline
                                                 [0; 1])))
              (onBlockExpand 1 (onBlockExpand 0 []))
  /\ (allExpanded (onBlockExpand 1 (onBlockExpand 0 []))
                  (rd_blocks (renderedOf (renderDiff standIn props_inline
                                                     [0; 1]))) = true
      <-> diffNodes (renderedOf (renderDiff standIn props_inline [0; 1]))
          = allViews (splitView props_inline)
              (rd_lineInformation (renderedOf (renderDiff standIn
                                                 props_inline [0; 1])))).
Proof.
  destruct (renderDiff standIn props_inline [0; 1]) as [e|rd] eqn:Hrun;
    [by vm_compute in Hrun|].
  refine (fold_state_reflects_view standIn props_inline
            (onBlockExpand 1 (onBlockExpand 0 [])) rd _ Hrun eq_refl).
  destruct (renderDiff standIn props_inline []) as [e0|rd0] eqn:Hrun0;
    [by vm_compute in Hrun0|].
  destruct (renderDiff standIn props_inline [0]) as [e1|rd1] eqn:Hrun1;
    [by vm_compute in Hrun1|].
  apply (reach_expand standIn props_inline [0] rd1 1 1 7 7);
    [apply (reach_expand standIn props_inline [] rd0 3 0 3 3);
     [apply reach_initial|exact Hrun0|]
    |exact Hrun1|].
  - vm_compute in Hrun0. injection Hrun0 as <-.
    apply list_elem_of_here.
  - vm_compute in Hrun1. injection Hrun1 as <-.
    do 6 apply list_elem_of_further. apply list_elem_of_here.
Defined.

(** ** Rows without a change, the summary and the inline view *)

Lemma changedFrom_none rows :
  Forall (fun row => ~ changed row) rows ->
  forall i, changedFrom i rows = [].
Proof.
  induction 1 as [|row rest Hrow _ IH]; intros i; simpl; [done|].
  rewrite IH. by destruct (decide (changed row)).
Qed.

Lemma hidden_unprotected rows diffLines extraLines :
  rows <> [] ->
  (forall x, ~ protected diffLines extraLines x) ->
  blocks (computeHiddenBlocks rows diffLines extraLines)
  = [mkBlock 0 0 (Z.of_nat (length rows) - 1) (Z.of_nat (length rows))].
Proof.
  intros Hrows Hfree.
  destruct (computeHiddenBlocks_invariants rows diffLines extraLines)
    as ((_ & Hsorted & _) & (_ & Hshape) & (_ & Hmax & Hcover & _) & _).
  unfold computeHiddenBlocks. cbn [blocks].
  assert (0 < Z.of_nat (length rows)) as Hn by (destruct rows; [done|simpl; lia]).
  assert (forall b, b ∈ hb_blocks (forEachLine diffLines extraLines rows 0
                                     (mkBlockState 0 None ∅ [])) ->
            startLine b = 0 /\ endLine b = Z.of_nat (length rows) - 1) as Hb.
  { intros b Hin. destruct (Hmax b Hin) as (_ & [?|Hp] & [Hp'|[? _]]);
      try done; by destruct (Hfree _ Hp) || by destruct (Hfree _ Hp'). }
  destruct (hb_blocks (forEachLine diffLines extraLines rows 0
                         (mkBlockState 0 None ∅ []))) as [|b rest] eqn:Hbs.
  - destruct (Hcover 0) as (b & Hin & _); [lia|apply Hfree|].
    by apply not_elem_of_nil in Hin.
  - destruct rest as [|b2 rest].
    + destruct (Hb b) as [Hs He]; [left|].
      destruct (Hshape 0%nat b eq_refl) as [Hi Hl].
      destruct b as [bi bs be bl]. simpl in *. subst.
      by replace (Z.of_nat (length rows) - 1 - 0 + 1)
        with (Z.of_nat (length rows)) by lia.
    + exfalso. apply StronglySorted_inv in Hsorted as [_ Hall].
      apply Forall_cons in Hall as [Hapart _]. unfold apart in Hapart.
      destruct (Hb b) as [_ He]; [left|].
      destruct (Hb b2) as [Hs _]; [right; left|]. lia.
Qed.

Lemma omap_imap_last {A B} (f : nat -> A -> option B) (init : list A) x y :
  (forall (i : nat) a, init !! i = Some a -> f i a = None) ->
  f (length init) x = Some y ->
  omap id (imap f (init ++ [x])) = [y].
Proof.
  revert f. induction init as [|a init IH]; intros f Hnone Hlast; simpl.
  - simpl in Hlast. by rewrite Hlast.
  - rewrite (Hnone 0%nat a eq_refl). simpl. apply IH.
    + intros i a' Hi. apply (Hnone (S i) a' Hi).
    + exact Hlast.
Qed.

Lemma countLine_shape lib disableWordDiff lineCompareMethod row d a :
  rowShape lib disableWordDiff lineCompareMethod row ->
  countLine (d, a) row
  = (d + (if decide (leftType row = Some REMOVED) then 1 else 0),
     a + (if decide (rightType row = Some ADDED) then 1 else 0)).
Proof.
  intros []; unfold countLine, leftType, rightType; simpl; f_equal; lia.
Qed.

Lemma countChanges_shapes lib disableWordDiff lineCompareMethod rows :
  Forall (rowShape lib disableWordDiff lineCompareMethod) rows ->
  forall d a,
    foldl countLine (d, a) rows
    = (d + Z.of_nat (length (filter (fun row => leftType row = Some REMOVED)
                                    rows)),
       a + Z.of_nat (length (filter (fun row => rightType row = Some ADDED)
                                    rows))).
Proof.
  induction 1 as [|row rest Hrow _ IH]; intros d a; cbn [foldl].
  - simpl. f_equal; lia.
  - rewrite (countLine_shape _ _ _ _ _ _ Hrow), IH, !filter_cons.
    destruct (decide (leftType row = Some REMOVED)),
             (decide (rightType row = Some ADDED)); simpl length; f_equal; lia.
Qed.

Lemma nodeOf_LineRows sd sv hb st (i : nat) line key tableRows :
  nodeOf sd sv hb st i line = Some (LineRows key tableRows) ->
  key = i /\ tableRows = viewRows sv line.
Proof.
  unfold nodeOf, diffNode, viewRows.
  repeat case_match; intros; by simplify_eq.
Qed.

Lemma inline_shape lib disableWordDiff lineCompareMethod row :
  rowShape lib disableWordDiff lineCompareMethod row ->
  Forall (fun tr => length tr = 1%nat) (renderInlineView row)
  /\ length (renderInlineView row)
     = if decide (leftType row = Some REMOVED /\ rightType row = Some ADDED)
       then 2%nat else 1%nat.
Proof.
  intros []; split; try (by repeat constructor).
  all: by case_decide as Hd;
         try done; try (destruct Hd; done); try (destruct Hd; split; done).
Qed.

(** * Further properties: unchanged texts, the summary, the inline view *)

(** X21. When no row has a change and [alwaysShowLines] names nothing, the
    rows form one block, and with [showDiffOnly] set and nothing expanded
    [renderDiff] returns a single node: the fold row over all the rows,
    carrying the line numbers of the last row. *)
Theorem unchanged_rows_fold_to_one lib props rd line :
  renderDiff lib props [] = inr rd ->
  showDiffOnly props = true ->
  default [] (alwaysShowLines props) = [] ->
  Forall (fun row => ~ changed row) (rd_lineInformation rd) ->
  last (rd_lineInformation rd) = Some line ->
  rd_blocks rd
  = [mkBlock 0 0 (Z.of_nat (length (rd_lineInformation rd)) - 1)
             (Z.of_nat (length (rd_lineInformation rd)))]
  /\ diffNodes rd
     = [SkippedLineIndicator (Z.of_nat (length (rd_lineInformation rd))) 0
          (default 0 (leftNumber line)) (default 0 (rightNumber line))].
Proof.
  intros (out & Hout & -> & -> & ->)%renderDiff_inv Hshow Hnone Hrows Hlast.
  rewrite Hnone in Hout. unfold computeLineInformation in Hout.
  apply run_marksChanged in Hout.
  rewrite (changedFrom_none _ Hrows) in Hout. rewrite Hout, Hshow.
  apply last_Some in Hlast as [init Hinit].
  assert (blocks (computeHiddenBlocks (lineInformation out) []
                                      (extraLinesOf props))
          = [mkBlock 0 0 (Z.of_nat (length (lineInformation out)) - 1)
                     (Z.of_nat (length (lineInformation out)))]) as Hbs.
  { apply hidden_unprotected.
    - rewrite Hinit. by destruct init.
    - by intros x (d & ?%not_elem_of_nil & _). }
  split; [done|].
  assert (forall (i : nat) row,
            lineInformation out !! i = Some row ->
            nodeOf true (splitView props)
                   (computeHiddenBlocks (lineInformation out) []
                                        (extraLinesOf props)) [] i row
            = foldedNode (splitView props) [] 0
                (mkBlock 0 0 (Z.of_nat (length (lineInformation out)) - 1)
                         (Z.of_nat (length (lineInformation out)))) row i)
    as Hnode.
  { intros i row Hi. apply nodeOf_block; [by rewrite Hbs|].
    apply lookup_lt_Some in Hi. simpl. lia. }
  revert Hnode. rewrite Hinit. intros Hnode.
  apply omap_imap_last.
  - intros i row Hi. rewrite Hnode by (by apply lookup_app_l_Some).
    unfold foldedNode. simpl. apply lookup_lt_Some in Hi.
    rewrite length_app. simpl. rewrite bool_decide_eq_false_2 by lia. done.
  - rewrite Hnode by (by rewrite list_lookup_middle).
    unfold foldedNode. simpl. rewrite length_app. simpl.
    rewrite bool_decide_eq_true_2 by lia. do 2 f_equal. lia.
Qed.

Lemma unchanged_rows_fold_to_one_witness :
  rd_blocks (renderedOf (renderDiff standIn
                           (props_default text_abc text_abc) []))
  = [mkBlock 0 0
       (Z.of_nat (length (rd_lineInformation
                            (renderedOf (renderDiff standIn
                               (props_default text_abc text_abc) [])))) - 1)
       (Z.of_nat (length (rd_lineInformation
                            (renderedOf (renderDiff standIn
                               (props_default text_abc text_abc) [])))))]
  /\ diffNodes (renderedOf (renderDiff standIn
                              (props_default text_abc text_abc) []))
     = [SkippedLineIndicator
          (Z.of_nat (length (rd_lineInformation
                               (renderedOf (renderDiff standIn
                                  (props_default text_abc text_abc) [])))))
          0
          (default 0 (leftNumber (both (side DEFAULT 3 "c")
                                       (side DEFAULT 3 "c"))))
          (default 0 (rightNumber (both (side DEFAULT 3 "c")
                                        (side DEFAULT 3 "c"))))].
Proof.
  destruct (renderDiff standIn (props_default text_abc text_abc) [])
    as [e|rd] eqn:Hrun; [by vm_compute in Hrun|].
  refine (unchanged_rows_fold_to_one standIn
            (props_default text_abc text_abc) rd
            (both (side DEFAULT 3 "c") (side DEFAULT 3 "c"))
            Hrun eq_refl eq_refl _ _);
    vm_compute in Hrun; injection Hrun as <-.
  - repeat constructor; intros [H|H]; discriminate.
  - reflexivity.
Defined.

(** X22. The number [render] shows in the summary is the number of rows
    with a REMOVED left side plus the number of rows with an ADDED right
    side: on the rows of [computeLineInformation] the two other tests of the
    loop never hold, and a modified line counts twice. *)
Theorem summary_total lib props expandedBlocks total rd :
  render lib props expandedBlocks = inr (inr (total, rd)) ->
  total
  = Z.of_nat (length (filter (fun row => leftType row = Some REMOVED)
                             (rd_lineInformation rd)))
    + Z.of_nat (length (filter (fun row => rightType row = Some ADDED)
                               (rd_lineInformation rd))).
Proof.
  unfold render. destruct (render_guard _ _ _); [done|].
  destruct (renderDiff lib props expandedBlocks) as [e|rd'] eqn:Hrd; [done|].
  intros [= <- <-].
  apply renderDiff_inv in Hrd as (out & Hout & -> & _).
  apply run_shapes in Hout. unfold totalChanges, countChanges.
  by rewrite (countChanges_shapes _ _ _ _ Hout).
Qed.

Lemma summary_total_witness :
  3 = Z.of_nat (length (filter (fun row => leftType row = Some REMOVED)
                          (rd_lineInformation
                             (renderedOf (renderDiff standIn props_inline
                                                    [])))))
      + Z.of_nat (length (filter (fun row => rightType row = Some ADDED)
                            (rd_lineInformation
                               (renderedOf (renderDiff standIn props_inline
                                                      []))))).
Proof.
  destruct (renderDiff standIn props_inline []) as [e|rd] eqn:Hrun;
    [by vm_compute in Hrun|].
  refine (summary_total standIn props_inline [] 3 rd _).
  unfold render. rewrite Hrun. vm_compute in Hrun. injection Hrun as <-.
  reflexivity.
Defined.

(** X23. In the inline view every line [renderDiff] shows has one table
    row holding one [renderLine] call, or, when its left side is REMOVED and
    its right side ADDED, two such table rows: the row the code writes around
    an unassigned [content] never occurs. *)
Theorem inline_view_rows lib props expandedBlocks rd key tableRows :
  renderDiff lib props expandedBlocks = inr rd ->
  splitView props = false ->
  LineRows key tableRows ∈ diffNodes rd ->
  exists line,
    rd_lineInformation rd !! key = Some line
    /\ tableRows = renderInlineView line
    /\ Forall (fun tr => length tr = 1%nat) tableRows
    /\ length tableRows
       = if decide (leftType line = Some REMOVED
                    /\ rightType line = Some ADDED)
         then 2%nat else 1%nat.
Proof.
  intros (out & Hout & -> & _ & ->)%renderDiff_inv Hinline
         (i & line & Hi & Hnode)%elem_of_nodes.
  apply nodeOf_LineRows in Hnode as [-> ->].
  rewrite Hinline. unfold viewRows. exists line. split; [done|].
  split; [done|]. apply run_shapes in Hout.
  rewrite Forall_forall in Hout.
  by eapply inline_shape, Hout, list_elem_of_lookup_2.
Qed.

Lemma inline_view_rows_witness :
  exists line,
    rd_lineInformation (renderedOf (renderDiff standIn props_inline [])) !! 4%nat
    = Some line
    /\ [[mkLineCall (Some 5) REMOVED LEFT (VString "e") Null None];
        [mkLineCall None ADDED RIGHT (VString "E") (Given 5) (Some RIGHT)]]
       = renderInlineView line
    /\ Forall (fun tr => length tr = 1%nat)
              [[mkLineCall (Some 5) REMOVED LEFT (VString "e") Null None];
               [mkLineCall None ADDED RIGHT (VString "E") (Given 5)
                           (Some RIGHT)]]
    /\ length [[mkLineCall (Some 5) REMOVED LEFT (VString "e") Null None];
               [mkLineCall None ADDED RIGHT (VString "E") (Given 5)
                           (Some RIGHT)]]
       = if decide (leftType line = Some REMOVED
                    /\ rightType line = Some ADDED)
         then 2%nat else 1%nat.
Proof.
  destruct (renderDiff standIn props_inline []) as [e|rd] eqn:Hrun;
    [by vm_compute in Hrun|].
  refine (inline_view_rows standIn props_inline [] rd 4 _ Hrun eq_refl _).
  vm_compute in Hrun. injection Hrun as <-.
  do 2 apply list_elem_of_further. apply list_elem_of_here.
Defined.



(** * Further properties: cells of the table *)

(** X25. The [renderLine] calls of either view on a row of
    [computeLineInformation]: no cell has type CHANGED; an ADDED cell is a
    right cell and a REMOVED cell a left cell; a fragment list is the value
    only with word diff enabled and on a cell that is not DEFAULT; and the
    content is wrapped in [div] exactly for DEFAULT cells and fragment
    lists, else in [ins] or [del]. *)
Theorem rendered_cell_types lib oldString newString disableWordDiff
    lineCompareMethod linesOffset showLines out row c :
  computeLineInformation lib oldString newString disableWordDiff
                         lineCompareMethod linesOffset showLines = inr out ->
  row ∈ lineInformation out ->
  c ∈ concat (renderSplitView row) \/ c ∈ concat (renderInlineView row) ->
  lc_type c <> CHANGED
  /\ (lc_type c = ADDED -> lc_prefix c = RIGHT)
  /\ (lc_type c = REMOVED -> lc_prefix c = LEFT)
  /\ (hasWordDiff c = true ->
      disableWordDiff = false /\ lc_type c <> DEFAULT)
  /\ (elementType c = div <-> lc_type c = DEFAULT \/ hasWordDiff c = true).
Proof.
  intros Hout Hrow Hc. apply run_shapes in Hout.
  rewrite Forall_forall in Hout. specialize (Hout row Hrow).
  destruct Hout; simpl in Hc;
    rewrite ?elem_of_cons, ?elem_of_nil in Hc;
    repeat (destruct Hc as [Hc|Hc]); try done; subst c.
  all: unfold elementType; simpl; repeat split; try done; intros.
  all: try (by left); try (by right); try naive_solver.
Qed.

Lemma rendered_cell_types_witness :
  lc_type (mkLineCall None ADDED RIGHT (VString "z") (Given 4) None)
    <> CHANGED
  /\ (lc_type (mkLineCall None ADDED RIGHT (VString "z") (Given 4) None)
      = ADDED ->
      lc_prefix (mkLineCall None ADDED RIGHT (VString "z") (Given 4) None)
      = RIGHT)
  /\ (lc_type (mkLineCall None ADDED RIGHT (VString "z") (Given 4) None)
      = REMOVED ->
      lc_prefix (mkLineCall None ADDED RIGHT (VString "z") (Given 4) None)
      = LEFT)
  /\ (hasWordDiff (mkLineCall None ADDED RIGHT (VString "z") (Given 4) None)
      = true ->
      false = false
      /\ lc_type (mkLineCall None ADDED RIGHT (VString "z") (Given 4) None)
         <> DEFAULT)
  /\ (elementType (mkLineCall None ADDED RIGHT (VString "z") (Given 4) None)
      = div
      <-> lc_type (mkLineCall None ADDED RIGHT (VString "z") (Given 4) None)
          = DEFAULT
          \/ hasWordDiff (mkLineCall None ADDED RIGHT (VString "z") (Given 4)
                                     None) = true).
Proof.
  destruct run_abc_words as [e|out] eqn:Hrun; [by vm_compute in Hrun|].
  refine (rendered_cell_types standIn (InString text_abc)
            (InString text_axyz) false (Preset CHARS) 0 [] out
            (both emptyInfo (side ADDED 4 "z"))
            (mkLineCall None ADDED RIGHT (VString "z") (Given 4) None)
            Hrun _ _).
  - vm_compute in Hrun. injection Hrun as <-.
    do 3 apply list_elem_of_further. apply list_elem_of_here.
  - right. apply list_elem_of_here.
Defined.


(** X27. When no row is protected, because [diffLines] is empty or
    [extraLines] is negative, [computeHiddenBlocks] puts all the rows, diff
    lines included, into one block: [blocks] is the single block from row 0
    to the last row and [lineBlocks] sends every row index to 0. *)
Theorem hidden_blocks_nothing_protected rows diffLines extraLines :
  rows <> [] ->
  diffLines = [] \/ extraLines < 0 ->
  blocks (computeHiddenBlocks rows diffLines extraLines)
  = [mkBlock 0 0 (Z.of_nat (length rows) - 1) (Z.of_nat (length rows))]
  /\ forall x,
       lineBlocks (computeHiddenBlocks rows diffLines extraLines) !! x
       = if decide (0 <= x < Z.of_nat (length rows)) then Some 0 else None.
Proof.
  intros Hrows Hfree.
  assert (blocks (computeHiddenBlocks rows diffLines extraLines)
          = [mkBlock 0 0 (Z.of_nat (length rows) - 1)
                     (Z.of_nat (length rows))]) as Hbs.
  { apply hidden_unprotected; [done|]. intros x (d & Hd & Hr).
    destruct Hfree as [->|Hneg]; [by apply not_elem_of_nil in Hd|lia]. }
  split; [done|]. intros x.
  assert (forall x k,
            lineBlocks (computeHiddenBlocks rows diffLines extraLines) !! x
            = Some k
            <-> exists (p : nat) b,
                  k = Z.of_nat p
                  /\ blocks (computeHiddenBlocks rows diffLines extraLines)
                       !! p = Some b
                  /\ startLine b <= x <= endLine b) as Hmap
    by apply (computeHiddenBlocks_invariants rows diffLines extraLines).
  rewrite Hbs in Hmap. case_decide as Hx.
  - apply Hmap. exists 0%nat, (mkBlock 0 0 (Z.of_nat (length rows) - 1)
                                       (Z.of_nat (length rows))).
    repeat split; simpl; lia.
  - destruct (lineBlocks _ !! x) as [k|] eqn:Hk; [|done].
    apply Hmap in Hk as (p & b & _ & Hb & Hr).
    destruct p; [|by destruct p]. injection Hb as <-. simpl in Hr. lia.
Qed.

Lemma hidden_blocks_nothing_protected_witness :
  blocks (computeHiddenBlocks (replicate 4 row_test) [1] (-1))
  = [mkBlock 0 0 (Z.of_nat (length (replicate 4 row_test)) - 1)
             (Z.of_nat (length (replicate 4 row_test)))]
  /\ forall x,
       lineBlocks (computeHiddenBlocks (replicate 4 row_test) [1] (-1)) !! x
       = if decide (0 <= x < Z.of_nat (length (replicate 4 row_test)))
         then Some 0 else None.
Proof.
  apply (hidden_blocks_nothing_protected (replicate 4 row_test) [1] (-1));
    [done|right; lia].
Defined.
